(** * SB 988 compliance simulator: the simulation engine

    A shallow embedding of [core/entities.py] and
    [core/simulation_engine.py], and the properties of the engine's
    time-stepped loop.

    Conventions of the embedding.
    - A Python [float] is an IEEE-754 binary64 value: Rocq's primitive
      [float].  [numpy.mean] and [numpy.var] are written out with numpy's
      pairwise summation.
    - A naive [datetime] is the number of microseconds since
      0001-01-01T00:00:00, a [date] the number of days since 0001-01-01; a
      [timedelta] is a number of microseconds.
    - A [dict] is an association list in insertion order.
    - A method that mutates [self] is a computation in a state-and-exception
      monad over the engine's attributes: a raised exception leaves the
      state as it was at the raise.
    - An injected collaborator works on the objects it is passed and on
      its own state, as the ownership rule of the spec has it.  The engine's
      record of the calls it made is a ghost field. *)

From Stdlib Require Import ZArith String List Bool Lia PeanoNat.
From Stdlib Require Import Floats Uint63.
Import ListNotations.

Local Open Scope Z_scope.
Local Open Scope list_scope.

Set Implicit Arguments.
Set Warnings "-inexact-float".

(** ** Python values *)

Module Py.

(** [dict[str, V]]: keys in insertion order. *)
Definition dict (V : Type) : Type := list (string * V).

Definition values {V} (d : dict V) : list V := map snd d.
Definition keys {V} (d : dict V) : list string := map fst d.

(** The objects of [d.values()] after they were mutated in place: the
    [i]-th entry keeps its key and takes the [i]-th new content. *)
Fixpoint write_values {V} (d : dict V) (vs : list V) : dict V :=
  match d, vs with
  | (k, _) :: d', v :: vs' => (k, v) :: write_values d' vs'
  | _, _ => d
  end.

(** The [i]-th value of the dict mutated in place. *)
Fixpoint write_nth {V} (d : dict V) (i : nat) (v : V) : dict V :=
  match d, i with
  | [] , _ => []
  | (k, _) :: d', O => (k, v) :: d'
  | e :: d', S j => e :: write_nth d' j v
  end.

(** [l[-n:]] for [n > 0]. *)
Definition last_n {A} (n : nat) (l : list A) : list A :=
  skipn (length l - n) l.

(** [not s] for a [str]: the empty string is falsy. *)
Definition str_falsy (s : string) : bool :=
  match s with EmptyString => true | _ => false end.

(** [float(n)] for a count small enough to be exact in binary64
    (below 2^53). *)
Definition float_of_nat (n : nat) : float :=
  PrimFloat.of_uint63 (Uint63.of_Z (Z.of_nat n)).

(** [a / b] on two [int]s (true division), for counts below 2^53. *)
Definition int_truediv (a b : nat) : float :=
  PrimFloat.div (float_of_nat a) (float_of_nat b).

End Py.

(** ** [datetime] *)

Module DateTime.

Definition datetime := Z.
Definition date := Z.
Definition timedelta := Z.

Definition us_per_day : Z := 86400000000.

(** [date.max.toordinal()] *)
Definition max_ordinal : Z := 3652059.

(** A [datetime] between [datetime.min] and [datetime.max]. *)
Definition in_range (t : Z) : bool :=
  (0 <=? t) && (t <? max_ordinal * us_per_day).

(** [t.date()] *)
Definition date_of (t : datetime) : date := t / us_per_day.

Definition is_leap (y : Z) : bool :=
  (y mod 4 =? 0) && (negb (y mod 100 =? 0) || (y mod 400 =? 0)).

Definition days_before_year (y : Z) : Z :=
  let y1 := y - 1 in y1 * 365 + y1 / 4 - y1 / 100 + y1 / 400.

Definition days_before_month (y m : Z) : Z :=
  nth (Z.to_nat m)
      [0; 0; 31; 59; 90; 120; 151; 181; 212; 243; 273; 304; 334] 0
  + (if (2 <? m) && is_leap y then 1 else 0).

(** [date(y, m, d).toordinal()] *)
Definition ymd2ord (y m d : Z) : Z :=
  days_before_year y + days_before_month y m + d.

(** [date(y, m, d)] *)
Definition mkdate (y m d : Z) : date := ymd2ord y m d - 1.

(** [datetime(y, m, d)] (midnight) *)
Definition mkdatetime (y m d : Z) : datetime := mkdate y m d * us_per_day.

(** [timedelta(days=n)] *)
Definition days (n : Z) : timedelta := n * us_per_day.

End DateTime.

Import DateTime.

(** ** [numpy] *)

Module np.

Local Open Scope float_scope.

Definition add_all (acc : float) (l : list float) : float :=
  fold_left PrimFloat.add l acc.

(** The eight partial sums of numpy's unrolled loop: [r[j] += a[i + j]]
    for each full block of eight. *)
Fixpoint blocks8 (fuel : nat) (r : list float) (a : list float)
  : list float * list float :=
  match fuel with
  | O => (r, a)
  | S fuel' =>
      match a with
      | a0 :: a1 :: a2 :: a3 :: a4 :: a5 :: a6 :: a7 :: rest =>
          match r with
          | [r0; r1; r2; r3; r4; r5; r6; r7] =>
              blocks8 fuel'
                [r0 + a0; r1 + a1; r2 + a2; r3 + a3;
                 r4 + a4; r5 + a5; r6 + a6; r7 + a7] rest
          | _ => (r, a)
          end
      | _ => (r, a)
      end
  end.

(** numpy's [pairwise_sum] on a block of at most 128 elements. *)
Definition block_sum (a : list float) : float :=
  match a with
  | a0 :: a1 :: a2 :: a3 :: a4 :: a5 :: a6 :: a7 :: rest =>
      match blocks8 (length rest) [a0; a1; a2; a3; a4; a5; a6; a7] rest with
      | ([r0; r1; r2; r3; r4; r5; r6; r7], tail) =>
          add_all (((r0 + r1) + (r2 + r3)) + ((r4 + r5) + (r6 + r7))) tail
      | _ => 0
      end
  | _ => add_all 0 a
  end.

(** numpy's [pairwise_sum]: blocks of at most 128 elements, longer inputs
    split in two at a multiple of eight. *)
Fixpoint pairwise_sum (fuel : nat) (a : list float) : float :=
  match fuel with
  | O => block_sum a
  | S fuel' =>
      let n := length a in
      if (n <=? 128)%nat then block_sum a
      else
        let n2 := (n / 2)%nat in
        let n2 := (n2 - n2 mod 8)%nat in
        pairwise_sum fuel' (firstn n2 a) + pairwise_sum fuel' (skipn n2 a)
  end.

(** [np.add.reduce(a)] on a one-dimensional float64 array. *)
Definition sum (a : list float) : float := pairwise_sum (length a) a.

(** [np.mean(a)] *)
Definition mean (a : list float) : float :=
  sum a / Py.float_of_nat (length a).

(** [np.var(a)]: [mean(abs(a - a.mean())**2)] *)
Definition var (a : list float) : float :=
  let m := mean a in
  let x := map (fun v => v - m) a in
  let x := map (fun v => v * v) x in
  sum x / Py.float_of_nat (length a).

End np.

(** ** [decimal.Decimal]

    The engine adds [Decimal] amounts and converts [Decimal] rates to
    [float]; both operations are the library's. *)

Class DecimalLib := {
  Decimal : Type;
  (** [Decimal('0')], and the [int] [0] that [sum] starts from *)
  Decimal_zero : Decimal;
  (** [a + b] *)
  Decimal_add : Decimal -> Decimal -> Decimal;
  (** [float(d)] *)
  Decimal_float : Decimal -> float
}.

(** ** core/entities.py *)

Inductive FreelancerType :=
| INDEPENDENT_CONTRACTOR | GIG_WORKER | CONSULTANT
| CREATIVE_PROFESSIONAL | TECHNICAL_SPECIALIST.

Inductive ClientType :=
| SMALL_BUSINESS | MEDIUM_ENTERPRISE | LARGE_CORPORATION
| STARTUP | NON_PROFIT | GOVERNMENT.

Inductive ContractStatus :=
| DRAFT | NEGOTIATING | ACTIVE | COMPLETED | TERMINATED | DISPUTED.

Inductive ComplianceStatus :=
| COMPLIANT | NON_COMPLIANT | PENDING_REVIEW | COMPLIANCE_DISPUTED.

(** [status.value] *)
Definition ContractStatus_value (s : ContractStatus) : string :=
  match s with
  | DRAFT => "draft" | NEGOTIATING => "negotiating" | ACTIVE => "active"
  | COMPLETED => "completed" | TERMINATED => "terminated"
  | DISPUTED => "disputed"
  end.

Definition ComplianceStatus_value (s : ComplianceStatus) : string :=
  match s with
  | COMPLIANT => "compliant" | NON_COMPLIANT => "non_compliant"
  | PENDING_REVIEW => "pending_review" | COMPLIANCE_DISPUTED => "disputed"
  end.

Section Entities.

Context `{DecimalLib}.

Record Freelancer := mkFreelancer {
  f_id : string;
  f_name : string;
  freelancer_type : FreelancerType;
  skills : list string;
  experience_years : float;
  hourly_rate : Decimal;
  f_location : string;
  f_created_at : datetime;
  sb988_aware : bool;
  compliance_preference : string;
  administrative_capacity : float;
  annual_income : option Decimal;
  primary_client_dependency : float;
  risk_tolerance : float;
  negotiation_skill : float;
  market_knowledge : float
}.

Record Client := mkClient {
  c_id : string;
  c_name : string;
  client_type : ClientType;
  industry : string;
  size : string;
  c_location : string;
  c_created_at : datetime;
  annual_revenue : option Decimal;
  freelancer_spend_budget : option Decimal;
  sb988_awareness : float;
  compliance_priority : string;
  legal_resources : float;
  risk_aversion : float;
  negotiation_power : float;
  market_influence : float
}.

Record Contract := mkContract {
  k_id : string;
  k_freelancer_id : string;
  k_client_id : string;
  title : string;
  k_description : string;
  status : ContractStatus;
  k_created_at : datetime;
  start_date : option date;
  end_date : option date;
  total_value : Decimal;
  payment_terms : string;
  currency : string;
  estimated_hours : option float;
  actual_hours : option float;
  deliverables : list string;
  milestones : list (Py.dict string);
  sb988_compliant : ComplianceStatus;
  compliance_score : float;
  compliance_requirements : list string;
  administrative_burden_score : float;
  exclusivity_clause : bool;
  location_requirements : option string;
  equipment_provided : bool;
  supervision_level : string
}.

Record Transaction := mkTransaction {
  t_id : string;
  t_contract_id : string;
  t_freelancer_id : string;
  t_client_id : string;
  amount : Decimal;
  transaction_date : datetime;
  payment_method : string;
  t_status : string;
  compliance_costs : Decimal;
  administrative_overhead : Decimal;
  dispute_costs : Decimal;
  t_description : option string;
  reference_number : option string
}.

Record MarketSnapshot := mkMarketSnapshot {
  timestamp : datetime;
  total_freelancers : nat;
  total_clients : nat;
  active_contracts : nat;
  total_transaction_volume : Decimal;
  average_hourly_rate : float;
  compliance_rate : float;
  market_demand : float;
  regulatory_pressure : float;
  economic_uncertainty : float
}.

(** [contract.status = s] *)
Definition set_status (s : ContractStatus) (c : Contract) : Contract :=
  mkContract (k_id c) (k_freelancer_id c) (k_client_id c) (title c)
    (k_description c) s (k_created_at c) (start_date c) (end_date c)
    (total_value c) (payment_terms c) (currency c) (estimated_hours c)
    (actual_hours c) (deliverables c) (milestones c) (sb988_compliant c)
    (compliance_score c) (compliance_requirements c)
    (administrative_burden_score c) (exclusivity_clause c)
    (location_requirements c) (equipment_provided c) (supervision_level c).

(** [__post_init__]: [if not self.id: self.id = str(uuid.uuid4())], where
    [uuid4] is the random token the call draws. *)
Definition post_init_id (uuid4 : string) (id : string) : string :=
  if Py.str_falsy id then uuid4 else id.

Definition Freelancer_post_init (uuid4 : string) (f : Freelancer)
  : Freelancer :=
  mkFreelancer (post_init_id uuid4 (f_id f)) (f_name f) (freelancer_type f)
    (skills f) (experience_years f) (hourly_rate f) (f_location f)
    (f_created_at f) (sb988_aware f) (compliance_preference f)
    (administrative_capacity f) (annual_income f)
    (primary_client_dependency f) (risk_tolerance f) (negotiation_skill f)
    (market_knowledge f).

Definition Client_post_init (uuid4 : string) (c : Client) : Client :=
  mkClient (post_init_id uuid4 (c_id c)) (c_name c) (client_type c)
    (industry c) (size c) (c_location c) (c_created_at c) (annual_revenue c)
    (freelancer_spend_budget c) (sb988_awareness c) (compliance_priority c)
    (legal_resources c) (risk_aversion c) (negotiation_power c)
    (market_influence c).

Definition Transaction_post_init (uuid4 : string) (t : Transaction)
  : Transaction :=
  mkTransaction (post_init_id uuid4 (t_id t)) (t_contract_id t)
    (t_freelancer_id t) (t_client_id t) (amount t) (transaction_date t)
    (payment_method t) (t_status t) (compliance_costs t)
    (administrative_overhead t) (dispute_costs t) (t_description t)
    (reference_number t).

(** The lists of a [Contract] are those of the constructed object: [None]
    has become a fresh empty list. *)
Definition Contract_post_init (uuid4 : string) (c : Contract) : Contract :=
  mkContract (post_init_id uuid4 (k_id c)) (k_freelancer_id c)
    (k_client_id c) (title c)
    (k_description c) (status c) (k_created_at c) (start_date c) (end_date c)
    (total_value c) (payment_terms c) (currency c) (estimated_hours c)
    (actual_hours c) (deliverables c) (milestones c) (sb988_compliant c)
    (compliance_score c) (compliance_requirements c)
    (administrative_burden_score c) (exclusivity_clause c)
    (location_requirements c) (equipment_provided c) (supervision_level c).

End Entities.

(** ** core/simulation_engine.py *)

Record SimulationConfig := mkConfig {
  cfg_start_date : datetime;
  cfg_end_date : datetime;
  time_step : timedelta;
  initial_freelancers : Z;
  initial_clients : Z;
  market_volatility : float;
  regulatory_enforcement_level : float;
  agent_interaction_probability : float;
  contract_formation_rate : float;
  base_hourly_rate : float;
  inflation_rate : float;
  sb988_enforcement_date : option datetime;
  compliance_grace_period : Z;
  random_seed : option Z;
  max_iterations : Z;
  convergence_threshold : float
}.

(** Exceptions that leave [step]: the [OverflowError] of [datetime]
    arithmetic, and whatever an injected collaborator raises. *)
Inductive exn :=
| OverflowError
| Raised (what : string).

(** The three entity mappings the engine hands to its collaborators by
    reference. *)
Record Mappings `{DecimalLib} := mkMappings {
  m_freelancers : Py.dict Freelancer;
  m_clients : Py.dict Client;
  m_contracts : Py.dict Contract
}.

(** Modelled from the spec: [core/metrics.py] and [core/scenario.py], which
    the engine imports, are not among the sources; their methods are
    parameters with the signatures the spec gives them.  The class also
    holds what lives outside the engine: the state [X] of the injected
    collaborators and of the process-wide random number generator.  A
    collaborator is a function of its arguments and of [X]; it returns the
    final contents of the objects it was passed, the new [X], and the
    exception it raised, if any. *)
Class Collaborators `{DecimalLib} := {
  X : Type;
  (** [np.random.seed(n)] *)
  np_random_seed : Z -> X -> X;
  Summary : Type;
  ScenarioResult : Type;
  (** [MetricsCollector()] *)
  MetricsCollector_init : X -> X;
  (** [MetricsCollector.collect_step_metrics(freelancers, clients,
      contracts, transactions, current_time)]: an observation, it keeps its
      aggregates in its own state. *)
  collect_step_metrics :
    Mappings -> list Transaction -> datetime -> X -> X * option exn;
  (** [MetricsCollector.get_summary()] *)
  get_summary : X -> X * (exn + Summary)
}.

Section Engine.

Context `{Collaborators}.

(** Modelled from the spec: the three methods of a [Scenario]
    ([core/scenario.py]).  [apply] mutates the mappings it is given in
    place. *)
Record Scenario := mkScenario {
  is_active : datetime -> X -> X * (exn + bool);
  apply : Mappings -> datetime -> X -> (Mappings * X) * option exn;
  get_results : X -> X * (exn + ScenarioResult)
}.

(** The injected behavioral models, called with the keyword arguments
    [freelancer, market_state, available_clients, current_time] and so on.
    A model may mutate the entities it is passed; the market snapshot is
    the read-only rollup of the spec's data model. *)
Definition FreelancerModel : Type :=
  Freelancer -> option MarketSnapshot -> list Client -> datetime ->
  X -> (Freelancer * list Client * X) * option exn.

Definition ClientModel : Type :=
  Client -> option MarketSnapshot -> list Freelancer -> datetime ->
  X -> (Client * list Freelancer * X) * option exn.

Definition MarketModel : Type :=
  Mappings -> datetime -> X -> (Mappings * X) * option exn.

(** The attributes of a [SimulationEngine]; the metrics collector's state
    is in [X]. *)
Record SimulationEngine := mkEngine {
  config : SimulationConfig;
  current_time : datetime;
  freelancers : Py.dict Freelancer;
  clients : Py.dict Client;
  contracts : Py.dict Contract;
  transactions : list Transaction;
  market_snapshots : list MarketSnapshot;
  scenarios : list Scenario;
  freelancer_behavior_model : option FreelancerModel;
  client_behavior_model : option ClientModel;
  market_dynamics_model : option MarketModel
}.

(** The calls the engine makes to its collaborators, with their
    arguments; scenarios are named by their position in
    [self.scenarios], and a call of [is_active] carries what it
    returned. *)
Inductive Call :=
| CallMarketDynamics (m : Mappings) (t : datetime)
| CallFreelancerBehavior (f : Freelancer)
    (market_state : option MarketSnapshot)
    (available_clients : list Client) (t : datetime)
| CallClientBehavior (c : Client)
    (market_state : option MarketSnapshot)
    (available_freelancers : list Freelancer) (t : datetime)
| CallIsActive (i : nat) (t : datetime) (r : exn + bool)
| CallApply (i : nat) (m : Mappings) (t : datetime)
| CallCollectMetrics (m : Mappings) (txs : list Transaction) (t : datetime).

(** The engine, the world around it, and the history of the calls the
    engine has made (a ghost field: no code reads it). *)
Record World := mkWorld {
  self : SimulationEngine;
  ext : X;
  calls : list Call
}.

(** *** The monad of engine methods *)

Definition M (A : Type) : Type := World -> World * (exn + A).

Definition ret {A} (a : A) : M A := fun w => (w, inr a).

Definition bind {A B} (c : M A) (k : A -> M B) : M B :=
  fun w =>
    match c w with
    | (w', inr a) => k a w'
    | (w', inl e) => (w', inl e)
    end.

Definition raise {A} (e : exn) : M A := fun w => (w, inl e).

Definition get_self : M SimulationEngine := fun w => (w, inr (self w)).

Definition modify (f : SimulationEngine -> SimulationEngine) : M unit :=
  fun w => (mkWorld (f (self w)) (ext w) (calls w), inr tt).

Definition log (c : Call) : M unit :=
  fun w => (mkWorld (self w) (ext w) (calls w ++ [c]), inr tt).

(** A call of a collaborator that may mutate the objects [S] it is passed:
    the mutations are in the engine's attributes whether it returns or
    raises. *)
Definition invoke {S} (f : X -> (S * X) * option exn)
    (store : S -> SimulationEngine -> SimulationEngine) : M unit :=
  fun w =>
    let '((s, x), r) := f (ext w) in
    (mkWorld (store s (self w)) x (calls w),
     match r with None => inr tt | Some e => inl e end).

End Engine.

Declare Scope engine_scope.
Delimit Scope engine_scope with engine.
Notation "x <- c ;; k" := (bind c (fun x => k))
  (at level 61, c at next level, right associativity) : engine_scope.
Notation "c ;; k" := (bind c (fun _ => k))
  (at level 61, right associativity) : engine_scope.
Local Open Scope engine_scope.

Section Methods.

Context `{Collaborators}.

Local Open Scope float_scope.
Local Open Scope Z_scope.

(** *** Attribute assignment *)

Definition set_current_time (t : datetime) (e : SimulationEngine) :=
  mkEngine (config e) t (freelancers e) (clients e) (contracts e)
    (transactions e) (market_snapshots e) (scenarios e)
    (freelancer_behavior_model e) (client_behavior_model e)
    (market_dynamics_model e).

Definition set_freelancers (d : Py.dict Freelancer) (e : SimulationEngine) :=
  mkEngine (config e) (current_time e) d (clients e) (contracts e)
    (transactions e) (market_snapshots e) (scenarios e)
    (freelancer_behavior_model e) (client_behavior_model e)
    (market_dynamics_model e).

Definition set_clients (d : Py.dict Client) (e : SimulationEngine) :=
  mkEngine (config e) (current_time e) (freelancers e) d (contracts e)
    (transactions e) (market_snapshots e) (scenarios e)
    (freelancer_behavior_model e) (client_behavior_model e)
    (market_dynamics_model e).

Definition set_contracts (d : Py.dict Contract) (e : SimulationEngine) :=
  mkEngine (config e) (current_time e) (freelancers e) (clients e) d
    (transactions e) (market_snapshots e) (scenarios e)
    (freelancer_behavior_model e) (client_behavior_model e)
    (market_dynamics_model e).

Definition set_market_snapshots (l : list MarketSnapshot)
    (e : SimulationEngine) :=
  mkEngine (config e) (current_time e) (freelancers e) (clients e)
    (contracts e) (transactions e) l (scenarios e)
    (freelancer_behavior_model e) (client_behavior_model e)
    (market_dynamics_model e).

Definition set_scenarios (l : list Scenario) (e : SimulationEngine) :=
  mkEngine (config e) (current_time e) (freelancers e) (clients e)
    (contracts e) (transactions e) (market_snapshots e) l
    (freelancer_behavior_model e) (client_behavior_model e)
    (market_dynamics_model e).

Definition set_models (fm : option FreelancerModel) (cm : option ClientModel)
    (mm : option MarketModel) (e : SimulationEngine) :=
  mkEngine (config e) (current_time e) (freelancers e) (clients e)
    (contracts e) (transactions e) (market_snapshots e) (scenarios e)
    fm cm mm.

(** The three mappings, as passed by reference in one call. *)
Definition mappings (e : SimulationEngine) : Mappings :=
  mkMappings (freelancers e) (clients e) (contracts e).

Definition set_mappings (m : Mappings) (e : SimulationEngine) :=
  set_contracts (m_contracts m)
    (set_clients (m_clients m) (set_freelancers (m_freelancers m) e)).

(** *** Construction and injection *)

(** [SimulationEngine(config)], in the world [x], for a [random_seed] that
    [np.random.seed] accepts (an integer from 0 to 2^32 - 1): outside that
    range the call raises [ValueError] and no engine is constructed, a case
    that is not modelled. *)
Definition __init__ (cfg : SimulationConfig) (x : X) : World :=
  mkWorld
    (mkEngine cfg (cfg_start_date cfg) [] [] [] [] [] [] None None None)
    (let x := MetricsCollector_init x in
     match random_seed cfg with
     | Some seed => if seed =? 0 then x else np_random_seed seed x
     | None => x
     end)
    [].

Definition add_scenario (s : Scenario) : M unit :=
  modify (fun e => set_scenarios (scenarios e ++ [s]) e).

(** The injected models are functions, which Python holds true, so that
    [if freelancer_model:] is the test for [None]; a callable object that
    defines [__bool__] or [__len__] so as to be false is not modelled. *)
Definition set_behavioral_models (freelancer_model : option FreelancerModel)
    (client_model : option ClientModel) (market_model : option MarketModel)
  : M unit :=
  modify (fun e =>
    set_models
      (match freelancer_model with
       | Some m => Some m | None => freelancer_behavior_model e end)
      (match client_model with
       | Some m => Some m | None => client_behavior_model e end)
      (match market_model with
       | Some m => Some m | None => market_dynamics_model e end)
      e).

Definition initialize_population : M unit := ret tt.

(** *** Derived aggregates *)

Definition _calculate_average_hourly_rate (e : SimulationEngine) : float :=
  match freelancers e with
  | [] => 0%float
  | _ =>
      np.mean (map (fun f => Decimal_float (hourly_rate f))
                   (Py.values (freelancers e)))
  end.

Definition is_compliant (c : Contract) : bool :=
  String.eqb (ComplianceStatus_value (sb988_compliant c)) "compliant".

Definition _calculate_compliance_rate (e : SimulationEngine) : float :=
  match contracts e with
  | [] => 0%float
  | _ =>
      let compliant_contracts :=
        length (filter is_compliant (Py.values (contracts e))) in
      Py.int_truediv compliant_contracts (length (contracts e))
  end.

Definition is_active_contract (c : Contract) : bool :=
  String.eqb (ContractStatus_value (status c)) "active".

(** [sum(t.amount for t in transactions if ...)] *)
Definition sum_amounts (l : list Transaction) : Decimal :=
  fold_left (fun acc t => Decimal_add acc (amount t)) l Decimal_zero.

Definition same_date (now : datetime) (t : Transaction) : bool :=
  date_of (transaction_date t) =? date_of now.

Definition make_snapshot (e : SimulationEngine) : MarketSnapshot :=
  mkMarketSnapshot
    (current_time e)
    (length (freelancers e))
    (length (clients e))
    (length (filter is_active_contract (Py.values (contracts e))))
    (sum_amounts (filter (same_date (current_time e)) (transactions e)))
    (_calculate_average_hourly_rate e)
    (_calculate_compliance_rate e)
    0.5%float 0.5%float 0.5%float.

(** *** The six phases of a step *)

Definition _update_market_conditions : M unit :=
  e <- get_self ;;
  match market_dynamics_model e with
  | Some model =>
      log (CallMarketDynamics (mappings e) (current_time e)) ;;
      invoke (model (mappings e) (current_time e)) set_mappings
  | None => ret tt
  end ;;
  e <- get_self ;;
  let snapshot := make_snapshot e in
  modify (set_market_snapshots (market_snapshots e ++ [snapshot])).

(** [self.market_snapshots[-1] if self.market_snapshots else None] *)
Definition latest_snapshot (e : SimulationEngine) : option MarketSnapshot :=
  nth_error (market_snapshots e) (length (market_snapshots e) - 1).

(** [for i in range(start, start + n): body(i)] *)
Fixpoint for_range (n : nat) (start : nat) (body : nat -> M unit) : M unit :=
  match n with
  | O => ret tt
  | S n' => body start ;; for_range n' (S start) body
  end.

(** The body of the loop over [self.freelancers.values()], at the [i]-th
    value. *)
Definition freelancer_behavior (model : FreelancerModel) (i : nat) : M unit :=
  e <- get_self ;;
  match nth_error (freelancers e) i with
  | None => ret tt
  | Some (_, freelancer) =>
      let market_state := latest_snapshot e in
      let available_clients := Py.values (clients e) in
      log (CallFreelancerBehavior freelancer market_state available_clients
             (current_time e)) ;;
      invoke (model freelancer market_state available_clients (current_time e))
        (fun '(f', cs') e =>
           set_clients (Py.write_values (clients e) cs')
             (set_freelancers (Py.write_nth (freelancers e) i f') e))
  end.

Definition client_behavior (model : ClientModel) (i : nat) : M unit :=
  e <- get_self ;;
  match nth_error (clients e) i with
  | None => ret tt
  | Some (_, client) =>
      let market_state := latest_snapshot e in
      let available_freelancers := Py.values (freelancers e) in
      log (CallClientBehavior client market_state available_freelancers
             (current_time e)) ;;
      invoke (model client market_state available_freelancers (current_time e))
        (fun '(c', fs') e =>
           set_freelancers (Py.write_values (freelancers e) fs')
             (set_clients (Py.write_nth (clients e) i c') e))
  end.

Definition _execute_agent_behaviors : M unit :=
  e <- get_self ;;
  match freelancer_behavior_model e with
  | Some model =>
      for_range (length (freelancers e)) 0 (freelancer_behavior model)
  | None => ret tt
  end ;;
  e <- get_self ;;
  match client_behavior_model e with
  | Some model =>
      for_range (length (clients e)) 0 (client_behavior model)
  | None => ret tt
  end.

(** The body of the loop of [_process_contracts]. *)
Definition process_contract (now : datetime) (contract : Contract)
  : Contract :=
  match end_date contract with
  | Some d =>
      if (d <? date_of now) && is_active_contract contract
      then set_status COMPLETED contract
      else contract
  | None => contract
  end.

Definition _process_contracts : M unit :=
  modify (fun e =>
    set_contracts
      (map (fun kc => (fst kc, process_contract (current_time e) (snd kc)))
           (contracts e))
      e).

Definition call_is_active (i : nat) (s : Scenario) (t : datetime) : M bool :=
  fun w =>
    let '(x, r) := is_active s t (ext w) in
    (mkWorld (self w) x (calls w ++ [CallIsActive i t r]), r).

(** The loop of [_apply_regulatory_scenarios], from the [i]-th scenario
    on. *)
Fixpoint apply_scenarios (i : nat) (l : list Scenario) : M unit :=
  match l with
  | [] => ret tt
  | scenario :: rest =>
      e <- get_self ;;
      active <- call_is_active i scenario (current_time e) ;;
      (if active : bool then
         e <- get_self ;;
         log (CallApply i (mappings e) (current_time e)) ;;
         invoke (apply scenario (mappings e) (current_time e)) set_mappings
       else ret tt) ;;
      apply_scenarios (S i) rest
  end.

Definition _apply_regulatory_scenarios : M unit :=
  e <- get_self ;;
  apply_scenarios 0 (scenarios e).

Definition _collect_step_metrics : M unit :=
  e <- get_self ;;
  log (CallCollectMetrics (mappings e) (transactions e) (current_time e)) ;;
  fun w =>
    let '(x, r) :=
      collect_step_metrics (mappings e) (transactions e) (current_time e)
        (ext w) in
    (mkWorld (self w) x (calls w),
     match r with None => inr tt | Some ex => inl ex end).

(** [self.current_time += self.config.time_step] *)
Definition advance_time : M unit :=
  e <- get_self ;;
  let t := current_time e + time_step (config e) in
  if in_range t then modify (set_current_time t) else raise OverflowError.

Definition step : M unit :=
  _update_market_conditions ;;
  _execute_agent_behaviors ;;
  _process_contracts ;;
  _apply_regulatory_scenarios ;;
  _collect_step_metrics ;;
  advance_time.

(** *** Convergence and the main loop *)

Definition _check_convergence (e : SimulationEngine) : bool :=
  if (length (market_snapshots e) <? 10)%nat then false
  else
    let recent_snapshots := Py.last_n 10 (market_snapshots e) in
    let compliance_rates := map compliance_rate recent_snapshots in
    let variance := np.var compliance_rates in
    PrimFloat.ltb variance (convergence_threshold (config e)).

Record Results := mkResults {
  r_config : SimulationConfig;
  r_start_time : datetime;
  r_end_time : datetime;
  r_total_steps : nat;
  r_final_freelancers : nat;
  r_final_clients : nat;
  r_final_contracts : nat;
  r_final_transactions : nat;
  r_market_evolution : list MarketSnapshot;
  r_metrics : Summary;
  r_scenario_results : list ScenarioResult;
  r_freelancers : list Freelancer;
  r_clients : list Client;
  r_contracts : list Contract;
  r_transactions : list Transaction
}.

Definition call_fn {A} (f : X -> X * (exn + A)) : M A :=
  fun w => let '(x, r) := f (ext w) in (mkWorld (self w) x (calls w), r).

(** [[s.get_results() for s in self.scenarios]] *)
Fixpoint collect_results (l : list Scenario) : M (list ScenarioResult) :=
  match l with
  | [] => ret []
  | s :: rest =>
      r <- call_fn (get_results s) ;;
      rs <- collect_results rest ;;
      ret (r :: rs)
  end.

Definition _generate_results : M Results :=
  e <- get_self ;;
  metrics <- call_fn get_summary ;;
  scenario_results <- collect_results (scenarios e) ;;
  ret (mkResults (config e) (cfg_start_date (config e)) (current_time e)
         (length (market_snapshots e))
         (length (freelancers e)) (length (clients e))
         (length (contracts e)) (length (transactions e))
         (market_snapshots e) metrics scenario_results
         (Py.values (freelancers e)) (Py.values (clients e))
         (Py.values (contracts e)) (transactions e)).

(** The [while] loop of [run]; [fuel] bounds the iterations that remain,
    which is at most [max_iterations - iteration]. *)
Fixpoint main_loop (fuel : nat) (iteration : Z) : M Z :=
  match fuel with
  | O => ret iteration
  | S fuel' =>
      e <- get_self ;;
      if (current_time e <=? cfg_end_date (config e))
         && (iteration <? max_iterations (config e))
      then
        step ;;
        let iteration := iteration + 1 in
        e <- get_self ;;
        if _check_convergence e then ret iteration
        else main_loop fuel' iteration
      else ret iteration
  end.

Definition run : M Results :=
  initialize_population ;;
  e <- get_self ;;
  _ <- main_loop (Z.to_nat (max_iterations (config e))) 0 ;;
  _generate_results.

End Methods.

(** ** The vocabulary of the properties *)

Unset Implicit Arguments.

Section Vocabulary.

Context `{Collaborators}.

(** The attributes that no phase but the last assigns. *)
Definition setup (e : SimulationEngine) :=
  (config e, current_time e, transactions e, scenarios e,
   freelancer_behavior_model e, client_behavior_model e,
   market_dynamics_model e).

(** The call phase 1 makes, if a market model is injected. *)
Definition market_calls (e : SimulationEngine) : list Call :=
  match market_dynamics_model e with
  | Some _ => [CallMarketDynamics (mappings e) (current_time e)]
  | None => []
  end.

Definition processed (e : SimulationEngine) : Py.dict Contract :=
  map (fun kc => (fst kc, process_contract (current_time e) (snd kc)))
      (contracts e).

Definition metrics_call (e : SimulationEngine) : Call :=
  CallCollectMetrics (mappings e) (transactions e) (current_time e).

(** A call of a behavioral model with the given market state. *)
Definition behavior_call (ms : option MarketSnapshot) (c : Call) : Prop :=
  match c with
  | CallFreelancerBehavior _ ms' _ _ => ms' = ms
  | CallClientBehavior _ ms' _ _ => ms' = ms
  | _ => False
  end.

Definition is_freelancer_call (c : Call) : Prop :=
  match c with CallFreelancerBehavior _ _ _ _ => True | _ => False end.

Definition is_client_call (c : Call) : Prop :=
  match c with CallClientBehavior _ _ _ _ => True | _ => False end.

(** What the behavioral models cannot change: the setup, the snapshots,
    the contracts, and how many freelancers and clients there are. *)
Definition agents_frame (w0 w : World) : Prop :=
  setup (self w) = setup (self w0) /\
  market_snapshots (self w) = market_snapshots (self w0) /\
  contracts (self w) = contracts (self w0) /\
  length (freelancers (self w)) = length (freelancers (self w0)) /\
  length (clients (self w)) = length (clients (self w0)).

Definition n_freelancer_calls (e : SimulationEngine) : nat :=
  match freelancer_behavior_model e with
  | Some _ => length (freelancers e)
  | None => O
  end.

Definition n_client_calls (e : SimulationEngine) : nat :=
  match client_behavior_model e with
  | Some _ => length (clients e)
  | None => O
  end.

(** The calls of one pass over [n] scenarios from the [i]-th on: each is
    asked whether it is active, and applied right away when it is. *)
Inductive scenario_calls (t : datetime) : nat -> nat -> list Call -> Prop :=
| sc_done i : scenario_calls t i 0 []
| sc_inactive i n rest :
    scenario_calls t (S i) n rest ->
    scenario_calls t i (S n) (CallIsActive i t (inr false) :: rest)
| sc_active i n m rest :
    scenario_calls t (S i) n rest ->
    scenario_calls t i (S n)
      (CallIsActive i t (inr true) :: CallApply i m t :: rest).

Definition is_scenario_call (c : Call) : Prop :=
  match c with
  | CallIsActive _ _ _ | CallApply _ _ _ => True
  | _ => False
  end.

(** How a step ends: a phase raises in the state the phases before it
    left, or all six return.  Phase 3 calls no collaborator and cannot
    raise. *)
Inductive step_outcome (w : World) : World -> exn + unit -> Prop :=
| raised_in_phase1 w' e :
    _update_market_conditions w = (w', inl e) ->
    step_outcome w w' (inl e)
| raised_in_phase2 w1 w' e :
    _update_market_conditions w = (w1, inr tt) ->
    _execute_agent_behaviors w1 = (w', inl e) ->
    step_outcome w w' (inl e)
| raised_in_phase4 w1 w2 w3 w' e :
    _update_market_conditions w = (w1, inr tt) ->
    _execute_agent_behaviors w1 = (w2, inr tt) ->
    _process_contracts w2 = (w3, inr tt) ->
    _apply_regulatory_scenarios w3 = (w', inl e) ->
    step_outcome w w' (inl e)
| raised_in_phase5 w1 w2 w3 w4 w' e :
    _update_market_conditions w = (w1, inr tt) ->
    _execute_agent_behaviors w1 = (w2, inr tt) ->
    _process_contracts w2 = (w3, inr tt) ->
    _apply_regulatory_scenarios w3 = (w4, inr tt) ->
    _collect_step_metrics w4 = (w', inl e) ->
    step_outcome w w' (inl e)
| raised_in_phase6 w1 w2 w3 w4 w5 w' e :
    _update_market_conditions w = (w1, inr tt) ->
    _execute_agent_behaviors w1 = (w2, inr tt) ->
    _process_contracts w2 = (w3, inr tt) ->
    _apply_regulatory_scenarios w3 = (w4, inr tt) ->
    _collect_step_metrics w4 = (w5, inr tt) ->
    advance_time w5 = (w', inl e) ->
    step_outcome w w' (inl e)
| completed w1 w2 w3 w4 w5 w' :
    _update_market_conditions w = (w1, inr tt) ->
    _execute_agent_behaviors w1 = (w2, inr tt) ->
    _process_contracts w2 = (w3, inr tt) ->
    _apply_regulatory_scenarios w3 = (w4, inr tt) ->
    _collect_step_metrics w4 = (w5, inr tt) ->
    advance_time w5 = (w', inr tt) ->
    step_outcome w w' (inr tt).

(** What the last five phases leave alone. *)
Definition late_frame (w0 w : World) : Prop :=
  setup (self w) = setup (self w0) /\
  market_snapshots (self w) = market_snapshots (self w0) /\
  exists new, calls w = calls w0 ++ new /\
    Forall (fun c => is_freelancer_call c \/ is_client_call c ->
                     behavior_call (latest_snapshot (self w0)) c) new.

(** The snapshot that phase 1 of a step from [w] appends: it is made
    from the state the market model leaves. *)
Definition phase1_snapshot (w : World) : MarketSnapshot :=
  make_snapshot (self (fst (_update_market_conditions w))).

(** The condition of the [while] loop of [run]. *)
Definition loop_guard (iteration : Z) (e : SimulationEngine) : bool :=
  (current_time e <=? cfg_end_date (config e))
  && (iteration <? max_iterations (config e)).

(** The [while] loop of [run] entered with the counter at [iteration]: the
    iterations that remain are at most [max_iterations - iteration]. *)
Definition while_loop (iteration : Z) : M Z :=
  fun w =>
    main_loop
      (Z.to_nat (max_iterations (config (self w)) - iteration)) iteration w.

(** The loop entered at [(it, w)] comes back to its head at [(it', w')]:
    every step in between returned, and none of them converged. *)
Inductive loop_reaches : Z -> World -> Z -> World -> Prop :=
| reaches_here it w : loop_reaches it w it w
| reaches_later it w w1 it' w' :
    loop_guard it (self w) = true ->
    step w = (w1, inr tt) ->
    _check_convergence (self w1) = false ->
    loop_reaches (it + 1) w1 it' w' ->
    loop_reaches it w it' w'.

(** An engine with no scenario and no behavioral model. *)
Definition bare (e : SimulationEngine) : Prop :=
  scenarios e = [] /\
  freelancer_behavior_model e = None /\
  client_behavior_model e = None /\
  market_dynamics_model e = None.

(** [n] calls of [step] in a row. *)
Fixpoint steps (n : nat) : M unit :=
  match n with
  | O => ret tt
  | S k => step ;; steps k
  end.

(** What the engine may do to a contract: nothing, or complete it when it
    is active. *)
Definition evolves (c c' : Contract) : Prop :=
  c' = c \/ (status c = ACTIVE /\ c' = set_status COMPLETED c).

(** The same keys in the same order, each contract evolved. *)
Definition contracts_evolve (d d' : Py.dict Contract) : Prop :=
  Forall2 (fun kc kc' => fst kc' = fst kc /\ evolves (snd kc) (snd kc')) d d'.

Definition alternating_from_0 : list float :=
  [0; 1; 0; 1; 0; 1; 0; 1; 0; 1]%float.

Definition alternating_from_1 : list float :=
  [1; 0; 1; 0; 1; 0; 1; 0; 1; 0]%float.

(** The compliance rates the predicate looks at. *)
Definition recent_rates (e : SimulationEngine) : list float :=
  map compliance_rate (Py.last_n 10 (market_snapshots e)).

(** No collaborator of the engine raises, whatever it is passed. *)
Definition never_raises (e : SimulationEngine) : Prop :=
  (forall m txs t x, snd (collect_step_metrics m txs t x) = None) /\
  (forall x, exists s, snd (get_summary x) = inr s) /\
  (forall model, market_dynamics_model e = Some model ->
     forall m t x, snd (model m t x) = None) /\
  (forall model, freelancer_behavior_model e = Some model ->
     forall f ms cs t x, snd (model f ms cs t x) = None) /\
  (forall model, client_behavior_model e = Some model ->
     forall c ms fs t x, snd (model c ms fs t x) = None) /\
  Forall (fun s =>
            (forall t x, exists b, snd (is_active s t x) = inr b) /\
            (forall m t x, snd (apply s m t x) = None) /\
            (forall x, exists r, snd (get_results s x) = inr r))
         (scenarios e).


(** The times of [n] steps from [t] on, [step] apart. *)
Definition step_times (t : datetime) (step : timedelta) (n : nat)
  : list datetime :=
  map (fun i => t + Z.of_nat i * step) (seq 0 n).

(** The aggregates of the current state that the next snapshot records. *)
Definition active_count (e : SimulationEngine) : nat :=
  length (filter is_active_contract (Py.values (contracts e))).


(** *** The effects of the collaborators' calls

    What the calls of a phase are to do, call after call, to the objects
    they are passed and to the world [X] around the engine.  These
    functions are written on the mappings and the world alone, by recursion
    on the mapping or on the list of scenarios; none of them reads the
    history of calls.  The properties compare the engine's methods with
    them. *)

(** The exception an outcome carries, if it carries one. *)
Definition raised {A} (r : exn + A) : option exn :=
  match r with inl e => Some e | inr _ => None end.

(** Phase 1: the market model, when one is injected, is called on the
    three mappings and the clock. *)
Definition market_effect (e : SimulationEngine) (x : X)
  : (Mappings * X) * option exn :=
  match market_dynamics_model e with
  | Some model => model (mappings e) (current_time e) x
  | None => ((mappings e, x), None)
  end.

(** The freelancer model called on each freelancer of [fs] in turn, each
    time with the market state [ms], the clients as the calls before left
    them, and the time [t]: the freelancers and the clients as the calls
    left them, the world after the last call made, and the exception of the
    call that raised, after which no call is made. *)
Fixpoint freelancer_calls (model : FreelancerModel)
    (ms : option MarketSnapshot) (t : datetime)
    (fs : Py.dict Freelancer) (cs : Py.dict Client) (x : X)
  : (Py.dict Freelancer * Py.dict Client * X) * option exn :=
  match fs with
  | [] => (([], cs, x), None)
  | (k, f) :: rest =>
      let '((f', cs', x'), r) := model f ms (Py.values cs) t x in
      let cs1 := Py.write_values cs cs' in
      match r with
      | Some ex => (((k, f') :: rest, cs1, x'), Some ex)
      | None =>
          let '((rest', cs2, x2), r2) :=
            freelancer_calls model ms t rest cs1 x' in
          (((k, f') :: rest', cs2, x2), r2)
      end
  end.

(** The same for the client model on each client of [cs], with the
    freelancers as the calls before left them. *)
Fixpoint client_calls (model : ClientModel)
    (ms : option MarketSnapshot) (t : datetime)
    (cs : Py.dict Client) (fs : Py.dict Freelancer) (x : X)
  : (Py.dict Client * Py.dict Freelancer * X) * option exn :=
  match cs with
  | [] => (([], fs, x), None)
  | (k, c) :: rest =>
      let '((c', fs', x'), r) := model c ms (Py.values fs) t x in
      let fs1 := Py.write_values fs fs' in
      match r with
      | Some ex => (((k, c') :: rest, fs1, x'), Some ex)
      | None =>
          let '((rest', fs2, x2), r2) :=
            client_calls model ms t rest fs1 x' in
          (((k, c') :: rest', fs2, x2), r2)
      end
  end.

(** Phase 2 on the mappings [m] with the market state [ms]: the
    freelancer model over the freelancers, then, unless a call raised, the
    client model over the clients; a model that is not injected is not
    called. *)
Definition agents_effect (e : SimulationEngine) (ms : option MarketSnapshot)
    (m : Mappings) (x : X) : (Mappings * X) * option exn :=
  let t := current_time e in
  let '((fs, cs, x1), r1) :=
    match freelancer_behavior_model e with
    | Some model =>
        freelancer_calls model ms t (m_freelancers m) (m_clients m) x
    | None => ((m_freelancers m, m_clients m, x), None)
    end in
  match r1 with
  | Some ex => ((mkMappings fs cs (m_contracts m), x1), Some ex)
  | None =>
      match client_behavior_model e with
      | Some model =>
          let '((cs', fs', x2), r2) := client_calls model ms t cs fs x1 in
          ((mkMappings fs' cs' (m_contracts m), x2), r2)
      | None => ((mkMappings fs cs (m_contracts m), x1), None)
      end
  end.

(** Phase 3 on the mappings: the lifecycle rule on every contract. *)
Definition lifecycle (t : datetime) (m : Mappings) : Mappings :=
  mkMappings (m_freelancers m) (m_clients m)
    (map (fun kc => (fst kc, process_contract t (snd kc))) (m_contracts m)).

(** Phase 4: each scenario of [l] in turn is asked whether it is active at
    [t], in the world the scenarios before it left, and applied to the
    mappings right away when it answers yes; the pass ends at the first
    call that raises. *)
Fixpoint scenario_pass (t : datetime) (l : list Scenario) (m : Mappings)
    (x : X) : (Mappings * X) * option exn :=
  match l with
  | [] => ((m, x), None)
  | s :: rest =>
      let '(x1, a) := is_active s t x in
      match a with
      | inl ex => ((m, x1), Some ex)
      | inr false => scenario_pass t rest m x1
      | inr true =>
          let '((m', x2), r) := apply s m t x1 in
          match r with
          | Some ex => ((m', x2), Some ex)
          | None => scenario_pass t rest m' x2
          end
      end
  end.

(** The engine [e] with the mappings [m] and the snapshot [s] appended to
    its log. *)
Definition engine_with (e : SimulationEngine) (s : MarketSnapshot)
    (m : Mappings) : SimulationEngine :=
  set_market_snapshots (market_snapshots e ++ [s]) (set_mappings m e).

(** A whole step on the attributes and the world: the six phases, each
    from what the one before it left, up to the first call that raises. *)
Definition step_effect (e : SimulationEngine) (x : X)
  : (SimulationEngine * X) * (exn + unit) :=
  let t := current_time e in
  let '((m1, x1), r1) := market_effect e x in
  match r1 with
  | Some ex => ((set_mappings m1 e, x1), inl ex)
  | None =>
      let s := make_snapshot (set_mappings m1 e) in
      let '((m2, x2), r2) := agents_effect e (Some s) m1 x1 in
      match r2 with
      | Some ex => ((engine_with e s m2, x2), inl ex)
      | None =>
          let '((m4, x4), r4) :=
            scenario_pass t (scenarios e) (lifecycle t m2) x2 in
          match r4 with
          | Some ex => ((engine_with e s m4, x4), inl ex)
          | None =>
              let '(x5, r5) :=
                collect_step_metrics m4 (transactions e) t x4 in
              match r5 with
              | Some ex => ((engine_with e s m4, x5), inl ex)
              | None =>
                  let t' := t + time_step (config e) in
                  if in_range t'
                  then ((set_current_time t' (engine_with e s m4), x5),
                        inr tt)
                  else ((engine_with e s m4, x5), inl OverflowError)
              end
          end
      end
  end.

End Vocabulary.

(** ** Sample collaborators and populations

    Amounts in cents as integers; an ambient state made of the generator's
    state and the number of steps the metrics collector has seen. *)

Module Sample.

Local Open Scope string_scope.
Local Open Scope list_scope.
Local Open Scope Z_scope.

#[export] Instance cents : DecimalLib := {
  Decimal := Z;
  Decimal_zero := 0;
  Decimal_add := Z.add;
  Decimal_float := fun z =>
    PrimFloat.div (PrimFloat.of_uint63 (Uint63.of_Z z)) 100%float
}.

Record Ambient := mkAmbient { rng : Z; steps_seen : nat }.

#[export] Instance collaborators : Collaborators := {
  X := Ambient;
  np_random_seed := fun n x => mkAmbient n (steps_seen x);
  Summary := nat;
  ScenarioResult := string;
  MetricsCollector_init := fun x => mkAmbient (rng x) 0;
  collect_step_metrics := fun _ _ _ x =>
    (mkAmbient (rng x) (S (steps_seen x)), None);
  get_summary := fun x => (x, inr (steps_seen x))
}.

Definition config_jan (seed : option Z) : SimulationConfig :=
  mkConfig (mkdatetime 2024 1 1) (mkdatetime 2024 1 10) (days 1)
    1000 500 0.1%float 0.5%float 0.1%float 0.05%float 50%float 0.03%float
    None 90 seed 1000 0.001%float.

Definition contract (id : string) (s : ContractStatus)
    (ends : option date) (c : ComplianceStatus) : Contract :=
  mkContract id "f1" "c1" "work" EmptyString s (mkdatetime 2023 12 1)
    (Some (mkdate 2023 12 1)) ends 100000 "net_30" "USD" None None [] []
    c 0%float [] 0%float false None false "minimal".

Definition freelancer (id : string) (rate : Z) : Freelancer :=
  mkFreelancer id id CONSULTANT [] 3%float rate "CA" (mkdatetime 2023 1 1)
    false "neutral" 0.5%float None 0%float 0.5%float 0.5%float 0.5%float.

Definition client (id : string) : Client :=
  mkClient id id STARTUP "software" "1-10" "CA" (mkdatetime 2023 1 1)
    None None 0.5%float "medium" 0.5%float 0.5%float 0.5%float 0.5%float.

Definition transaction (id : string) (cents : Z) (at_ : datetime)
  : Transaction :=
  mkTransaction id "k1" "f1" "c1" cents at_ "ach" "completed" 0 0 0
    None None.

(** An engine populated by its caller before the run. *)
Definition populated (cfg : SimulationConfig) (x : Ambient) : World :=
  let w := __init__ cfg x in
  mkWorld
    (mkEngine cfg (cfg_start_date cfg)
       [("f1", freelancer "f1" 5000); ("f2", freelancer "f2" 7500)]
       [("c1", client "c1")]
       [("k1", contract "k1" ACTIVE (Some (mkdate 2024 1 5)) COMPLIANT);
        ("k2", contract "k2" ACTIVE None NON_COMPLIANT);
        ("k3", contract "k3" DRAFT (Some (mkdate 2023 12 31)) COMPLIANT)]
       [transaction "t1" 12000 (mkdatetime 2024 1 1 + 3600000000);
        transaction "t2" 30000 (mkdatetime 2024 1 2);
        transaction "t3" 500 (mkdatetime 2024 1 1 + 7200000000)]
       [] [] None None None)
    (ext w) (calls w).

(** A freelancer model that draws from the generator: the freelancer
    becomes aware of the regulation when the draw is even. *)
Definition random_awareness : FreelancerModel :=
  fun f _ cs _ x =>
    let f' :=
      mkFreelancer (f_id f) (f_name f) (freelancer_type f) (skills f)
        (experience_years f) (hourly_rate f) (f_location f) (f_created_at f)
        (Z.even (rng x)) (compliance_preference f)
        (administrative_capacity f) (annual_income f)
        (primary_client_dependency f) (risk_tolerance f)
        (negotiation_skill f) (market_knowledge f) in
    ((f', cs, mkAmbient (rng x * 5 + 3) (steps_seen x)), None).

(** A client model that does nothing. *)
Definition quiet_client : ClientModel :=
  fun c _ fs _ x => ((c, fs, x), None).

(** A market model that leaves the market as it is. *)
Definition quiet_market : MarketModel :=
  fun m _ x => ((m, x), None).

(** A scenario active from [since] on, whose [apply] leaves the mappings
    as they are. *)
Definition review_all (since : datetime) : Scenario :=
  mkScenario
    (fun t x => (x, inr (since <=? t)))
    (fun m _ x => ((m, x), None))
    (fun x => (x, inr "review"%string)).

(** A scenario whose [apply] fails. *)
Definition failing : Scenario :=
  mkScenario
    (fun _ x => (x, inr true))
    (fun m _ x => ((m, x), Some (Raised "apply failed")))
    (fun x => (x, inr "failed"%string)).

Definition with_models (w : World) : World :=
  fst ((set_behavioral_models (Some random_awareness) (Some quiet_client)
          (Some quiet_market) ;;
        add_scenario (review_all (mkdatetime 2024 1 3))) w).

Definition with_failing (w : World) : World :=
  fst (add_scenario failing w).

Definition snapshot_with_rate (r : float) : MarketSnapshot :=
  mkMarketSnapshot 0 0 0 0 0 0%float r 0.5%float 0.5%float 0.5%float.

(** An engine that has accumulated snapshots with the given compliance
    rates and runs with the given threshold. *)
Definition engine_with_rates (rates : list float) (threshold : float)
  : SimulationEngine :=
  mkEngine
    (mkConfig 0 0 (days 1) 1000 500 0.1%float 0.5%float 0.1%float
       0.05%float 50%float 0.03%float None 90 None 10000 threshold)
    0 [] [] [] [] (map snapshot_with_rate rates) [] None None None.

(** The populated engine with the sample models and scenario injected, a
    bare one, and one with the failing scenario registered. *)
Definition busy : World :=
  with_models (populated (config_jan (Some 7)) (mkAmbient 1 0)).

Definition plain : World := populated (config_jan None) (mkAmbient 1 0).

Definition broken : World := with_failing plain.

(** A whole run of the busy engine, seeded as given, started in a process
    whose generator is in state [ambient]. *)
Definition run_from (seed : option Z) (ambient : Z) : World * (exn + Results) :=
  run (with_models (populated (config_jan seed) (mkAmbient ambient 0))).

(** Which freelancers are aware of the regulation at the end of a run. *)
Definition final_awareness (r : exn + Results) : list bool :=
  match r with
  | inr res => map sb988_aware (r_freelancers res)
  | inl _ => []
  end.

(** One contract in three is compliant. *)
Definition third : float := Py.int_truediv 1 3.

(** A market model that fails. *)
Definition crashing_market : MarketModel :=
  fun m _ x => ((m, x), Some (Raised "market closed")).

Definition crashed : World :=
  fst (set_behavioral_models None None (Some crashing_market) plain).

(** The engine after a first run. *)
Definition second : World := fst (run plain).

(** A populated engine on the last day that [datetime] has. *)
Definition last_day : World :=
  populated
    (mkConfig (mkdatetime 9999 12 31) (mkdatetime 9999 12 31) (days 1)
       1000 500 0.1%float 0.5%float 0.1%float 0.05%float 50%float 0.03%float
       None 90 None 1000 0.001%float)
    (mkAmbient 1 0).

(** A fresh engine, without population, configured for the whole year. *)
Definition fresh_year : World :=
  __init__
    (mkConfig (mkdatetime 2024 1 1) (mkdatetime 2024 12 31) (days 1)
       1000 500 0.1%float 0.5%float 0.1%float 0.05%float 50%float 0.03%float
       None 90 None 10000 0.001%float)
    (mkAmbient 1 0).

(** A freelancer model that needs the market state: it fails when it is
    given none, and otherwise adds the snapshot's number of freelancers to
    the generator's state. *)
Definition wants_snapshot : FreelancerModel :=
  fun f ms cs _ x =>
    match ms with
    | Some s =>
        ((f, cs,
          mkAmbient (rng x + Z.of_nat (total_freelancers s)) (steps_seen x)),
         None)
    | None => ((f, cs, x), Some (Raised "no market state"))
    end.

(** The same for clients. *)
Definition client_wants_snapshot : ClientModel :=
  fun c ms fs _ x =>
    match ms with
    | Some s =>
        ((c, fs,
          mkAmbient (rng x + Z.of_nat (total_clients s)) (steps_seen x)),
         None)
    | None => ((c, fs, x), Some (Raised "no market state"))
    end.

Definition watchful : World :=
  fst (set_behavioral_models (Some wants_snapshot)
         (Some client_wants_snapshot) None plain).

(** A freelancer model that makes the freelancer aware of the regulation,
    counts the call in the generator's state, and then fails on the
    freelancer [f2]. *)
Definition picky : FreelancerModel :=
  fun f _ cs _ x =>
    let f' :=
      mkFreelancer (f_id f) (f_name f) (freelancer_type f) (skills f)
        (experience_years f) (hourly_rate f) (f_location f) (f_created_at f)
        true (compliance_preference f)
        (administrative_capacity f) (annual_income f)
        (primary_client_dependency f) (risk_tolerance f)
        (negotiation_skill f) (market_knowledge f) in
    ((f', cs, mkAmbient (rng x + 1) (steps_seen x)),
     if String.eqb (f_id f) "f2"
     then Some (Raised "freelancer model failed") else None).

Definition choosy : World :=
  fst (set_behavioral_models (Some picky) None None plain).

(** A scenario that leaves a trace of being asked (the generator's state
    plus one) and of being applied (the state doubled). *)
Definition tally : Scenario :=
  mkScenario
    (fun _ x => (mkAmbient (rng x + 1) (steps_seen x), inr true))
    (fun m _ x => ((m, mkAmbient (rng x * 2) (steps_seen x)), None))
    (fun x => (x, inr "tally"%string)).

Definition counted : World := fst (add_scenario tally plain).

(** The failing scenario registered between two others. *)
Definition troubled : World :=
  fst ((add_scenario tally ;; add_scenario failing ;; add_scenario tally)
         plain).

(** Collaborators whose metrics collector fails. *)
Definition strict : Collaborators := {|
  X := Ambient;
  np_random_seed := fun n x => mkAmbient n (steps_seen x);
  Summary := nat;
  ScenarioResult := string;
  MetricsCollector_init := fun x => mkAmbient (rng x) 0;
  collect_step_metrics := fun _ _ _ x =>
    (mkAmbient (rng x) (S (steps_seen x)), Some (Raised "metrics store full"));
  get_summary := fun x => (x, inr (steps_seen x))
|}.

(** The populated engine among them. *)
Definition unmetered : @World cents strict :=
  @mkWorld cents strict
    (@mkEngine cents strict (config_jan None) (mkdatetime 2024 1 1)
       (freelancers (self plain)) (clients (self plain))
       (contracts (self plain)) (transactions (self plain))
       [] [] None None None)
    (mkAmbient 1 0) [].

End Sample.

(** * Properties *)

Section Proofs.

Context `{Collaborators}.

(** ** Running a method *)

Lemma bind_ok {A B} (c : M A) (k : A -> M B) w w' b :
  bind c k w = (w', inr b) ->
  exists a w1, c w = (w1, inr a) /\ k a w1 = (w', inr b).
Proof.
  unfold bind. destruct (c w) as [w1 [e | a]]; intros E.
  - discriminate.
  - exists a, w1. split; [reflexivity | exact E].
Qed.

Lemma bind_err {A B} (c : M A) (k : A -> M B) w w' e :
  bind c k w = (w', inl e) ->
  c w = (w', inl e) \/
  exists a w1, c w = (w1, inr a) /\ k a w1 = (w', inl e).
Proof.
  unfold bind. destruct (c w) as [w1 [e1 | a]]; intros E.
  - left. injection E as -> ->. reflexivity.
  - right. exists a, w1. split; [reflexivity | exact E].
Qed.

Lemma bind_cases {A B} (c : M A) (k : A -> M B) w w' r :
  bind c k w = (w', r) ->
  (exists e, c w = (w', inl e) /\ r = inl e) \/
  exists a w1, c w = (w1, inr a) /\ k a w1 = (w', r).
Proof.
  unfold bind. destruct (c w) as [w1 [e1 | a]]; intros E.
  - left. injection E as -> <-. exists e1. split; reflexivity.
  - right. exists a, w1. split; [reflexivity | exact E].
Qed.

Lemma bind_step {A B} (c : M A) (k : A -> M B) w w1 a :
  c w = (w1, inr a) -> bind c k w = k a w1.
Proof. unfold bind. intros ->. reflexivity. Qed.

Lemma bind_raise {A B} (c : M A) (k : A -> M B) w w1 e :
  c w = (w1, inl e) -> bind c k w = (w1, inl e).
Proof. unfold bind. intros ->. reflexivity. Qed.

(** ** What a phase leaves alone *)

Lemma setup_fields e e' :
  setup e' = setup e ->
  config e' = config e /\ current_time e' = current_time e /\
  transactions e' = transactions e /\ scenarios e' = scenarios e /\
  freelancer_behavior_model e' = freelancer_behavior_model e /\
  client_behavior_model e' = client_behavior_model e /\
  market_dynamics_model e' = market_dynamics_model e.
Proof. unfold setup. intros E. injection E. intuition. Qed.

Lemma make_snapshot_ext e e' :
  mappings e' = mappings e -> transactions e' = transactions e ->
  current_time e' = current_time e ->
  make_snapshot e' = make_snapshot e.
Proof.
  unfold mappings. intros Em Et Ec. injection Em as Ef Ecl Ek.
  unfold make_snapshot, _calculate_average_hourly_rate,
    _calculate_compliance_rate.
  rewrite Ef, Ecl, Ek, Et, Ec. reflexivity.
Qed.

(** ** Phase 1 *)

Lemma update_market_spec w w' r :
  _update_market_conditions w = (w', r) ->
  setup (self w') = setup (self w) /\
  calls w' = calls w ++ market_calls (self w) /\
  match r with
  | inr _ =>
      market_snapshots (self w') =
        market_snapshots (self w) ++ [make_snapshot (self w')]
  | inl _ =>
      market_snapshots (self w') = market_snapshots (self w) /\
      market_dynamics_model (self w) <> None
  end /\
  (market_dynamics_model (self w) = None ->
   r = inr tt /\ ext w' = ext w /\ mappings (self w') = mappings (self w)).
Proof.
  unfold _update_market_conditions, market_calls, bind, get_self, log,
    invoke, modify, ret.
  destruct w as [e x cs]; cbn [self ext calls].
  destruct (market_dynamics_model e) as [model |] eqn:Em.
  - cbn [self ext calls].
    destruct (model (mappings e) (current_time e) x) as [[m x'] [ex |]];
      cbn [self ext calls]; intros E; injection E as <- <-;
      cbn [self ext calls]; repeat split; try discriminate;
      try reflexivity.
  - cbn [self ext calls]. intros E; injection E as <- <-.
    cbn [self ext calls]. rewrite app_nil_r.
    repeat split; reflexivity.
Qed.

(** ** Phases 3, 5 and 6 *)

Lemma process_contracts_spec w :
  _process_contracts w =
    (mkWorld (set_contracts (processed (self w)) (self w)) (ext w) (calls w),
     inr tt).
Proof. reflexivity. Qed.

Lemma collect_step_metrics_spec w w' r :
  _collect_step_metrics w = (w', r) ->
  self w' = self w /\ calls w' = calls w ++ [metrics_call (self w)].
Proof.
  unfold _collect_step_metrics, bind, get_self, log, metrics_call.
  cbn [self ext calls].
  destruct (collect_step_metrics _ _ _ _) as [x [ex |]];
    intros E; injection E as <- <-; split; reflexivity.
Qed.

Lemma advance_time_spec w w' r :
  advance_time w = (w', r) ->
  match r with
  | inr _ =>
      w' = mkWorld
             (set_current_time
                (current_time (self w) + time_step (config (self w)))
                (self w))
             (ext w) (calls w)
  | inl e => w' = w /\ e = OverflowError
  end.
Proof.
  unfold advance_time, bind, get_self, modify, raise.
  destruct (in_range _); intros E; injection E as <- <-.
  - reflexivity.
  - split; reflexivity.
Qed.

(** ** Phase 2 *)

Lemma agents_frame_refl w : agents_frame w w.
Proof. repeat split. Qed.

Lemma write_nth_length {V} (d : Py.dict V) i v :
  length (Py.write_nth d i v) = length d.
Proof.
  revert i. induction d as [| [k v0] d IH]; intros [| i]; cbn;
    try reflexivity.
  now rewrite IH.
Qed.

Lemma write_values_length {V} (d : Py.dict V) vs :
  length (Py.write_values d vs) = length d.
Proof.
  revert vs. induction d as [| [k v0] d IH]; intros [| v vs]; cbn;
    try reflexivity.
  now rewrite IH.
Qed.

Lemma latest_snapshot_frame e e' :
  market_snapshots e' = market_snapshots e ->
  latest_snapshot e' = latest_snapshot e.
Proof. unfold latest_snapshot. now intros ->. Qed.

Lemma for_range_spec (J : World -> Prop) (P : Call -> Prop) (len : nat)
    (body : nat -> M unit) :
  (forall i w w' r, J w -> body i w = (w', r) ->
     J w' /\ exists new, calls w' = calls w ++ new /\ Forall P new /\
                         (r = inr tt -> (i < len)%nat -> length new = 1%nat)) ->
  forall n i w w' r, J w -> for_range n i body w = (w', r) ->
    J w' /\ exists new, calls w' = calls w ++ new /\ Forall P new /\
                        (r = inr tt -> (i + n <= len)%nat -> length new = n).
Proof.
  intros Hbody. induction n as [| n IH]; intros i w w' r HJ E.
  - cbn in E. unfold ret in E. injection E as <- <-.
    split; [exact HJ |]. exists []. rewrite app_nil_r.
    repeat split; auto.
  - cbn [for_range] in E. apply bind_cases in E.
    destruct E as [(e & E & ->) | (a & w1 & E1 & E2)].
    + destruct (Hbody _ _ _ _ HJ E) as (HJ' & new & Ec & HP & _).
      split; [exact HJ' |]. exists new. repeat split; auto.
      discriminate.
    + destruct a.
      destruct (Hbody _ _ _ _ HJ E1) as (HJ1 & new1 & Ec1 & HP1 & Hn1).
      destruct (IH _ _ _ _ HJ1 E2) as (HJ2 & new2 & Ec2 & HP2 & Hn2).
      split; [exact HJ2 |]. exists (new1 ++ new2).
      rewrite Ec2, Ec1, app_assoc. repeat split.
      * apply Forall_app. split; assumption.
      * intros Er Hle. rewrite length_app, Hn1, Hn2; auto; lia.
Qed.

Lemma freelancer_behavior_spec w0 model i w w' r :
  agents_frame w0 w -> freelancer_behavior model i w = (w', r) ->
  agents_frame w0 w' /\
  exists new, calls w' = calls w ++ new /\
    Forall (fun c => behavior_call (latest_snapshot (self w0)) c /\
                     is_freelancer_call c) new /\
    (r = inr tt -> (i < length (freelancers (self w0)))%nat ->
     length new = 1%nat).
Proof.
  intros (Hs & Hm & Hk & Hf & Hc).
  unfold freelancer_behavior, bind, get_self, log, invoke, ret.
  destruct w as [e x cs]; cbn [self ext calls] in *.
  destruct (nth_error (freelancers e) i) as [[k f] |] eqn:En.
  - cbn [self ext calls].
    destruct (model f (latest_snapshot e) (Py.values (clients e))
                (current_time e) x) as [[[f' cs'] x'] [ex |]];
      cbn [self ext calls]; intros E; injection E as <- <-;
      cbn [self ext calls].
    all: split;
      [ repeat split; cbn; auto;
        [ now rewrite write_nth_length | now rewrite write_values_length ]
      | eexists; split; [reflexivity |]; split;
        [ constructor; [| constructor]; split; cbn; auto;
          apply latest_snapshot_frame; assumption
        | reflexivity ] ].
  - cbn [self ext calls]. intros E; injection E as <- <-.
    split; [repeat split; assumption |].
    exists []. rewrite app_nil_r. repeat split; auto.
    intros _ Hlt. apply nth_error_None in En. lia.
Qed.

Lemma client_behavior_spec w0 model i w w' r :
  agents_frame w0 w -> client_behavior model i w = (w', r) ->
  agents_frame w0 w' /\
  exists new, calls w' = calls w ++ new /\
    Forall (fun c => behavior_call (latest_snapshot (self w0)) c /\
                     is_client_call c) new /\
    (r = inr tt -> (i < length (clients (self w0)))%nat ->
     length new = 1%nat).
Proof.
  intros (Hs & Hm & Hk & Hf & Hc).
  unfold client_behavior, bind, get_self, log, invoke, ret.
  destruct w as [e x cs]; cbn [self ext calls] in *.
  destruct (nth_error (clients e) i) as [[k c] |] eqn:En.
  - cbn [self ext calls].
    destruct (model c (latest_snapshot e) (Py.values (freelancers e))
                (current_time e) x) as [[[c' fs'] x'] [ex |]];
      cbn [self ext calls]; intros E; injection E as <- <-;
      cbn [self ext calls].
    all: split;
      [ repeat split; cbn; auto;
        [ now rewrite write_values_length | now rewrite write_nth_length ]
      | eexists; split; [reflexivity |]; split;
        [ constructor; [| constructor]; split; cbn; auto;
          apply latest_snapshot_frame; assumption
        | reflexivity ] ].
  - cbn [self ext calls]. intros E; injection E as <- <-.
    split; [repeat split; assumption |].
    exists []. rewrite app_nil_r. repeat split; auto.
    intros _ Hlt. apply nth_error_None in En. lia.
Qed.


Lemma bind_get_self {B} (k : SimulationEngine -> M B) w :
  bind get_self k w = k (self w) w.
Proof. reflexivity. Qed.

Lemma freelancer_loop_spec w w' r :
  match freelancer_behavior_model (self w) with
  | Some model =>
      for_range (length (freelancers (self w))) 0 (freelancer_behavior model)
  | None => ret tt
  end w = (w', r) ->
  agents_frame w w' /\
  exists new, calls w' = calls w ++ new /\
    Forall (fun c => behavior_call (latest_snapshot (self w)) c /\
                     is_freelancer_call c) new /\
    (r = inr tt -> length new = n_freelancer_calls (self w)).
Proof.
  unfold n_freelancer_calls.
  destruct (freelancer_behavior_model (self w)) as [model |].
  - intros E.
    destruct (@for_range_spec (agents_frame w)
                (fun c => behavior_call (latest_snapshot (self w)) c /\
                          is_freelancer_call c)
                (length (freelancers (self w))) (freelancer_behavior model)
                (fun i w1 w2 r HJ =>
                   @freelancer_behavior_spec w model i w1 w2 r HJ)
                _ _ _ _ _ (agents_frame_refl w) E)
      as (HJ & new & Ec & HP & Hn).
    split; [exact HJ |]. exists new. repeat split; auto.
  - unfold ret. intros E; injection E as <- <-.
    split; [apply agents_frame_refl |]. exists []. rewrite app_nil_r.
    repeat split; auto.
Qed.

Lemma client_loop_spec w w' r :
  match client_behavior_model (self w) with
  | Some model =>
      for_range (length (clients (self w))) 0 (client_behavior model)
  | None => ret tt
  end w = (w', r) ->
  agents_frame w w' /\
  exists new, calls w' = calls w ++ new /\
    Forall (fun c => behavior_call (latest_snapshot (self w)) c /\
                     is_client_call c) new /\
    (r = inr tt -> length new = n_client_calls (self w)).
Proof.
  unfold n_client_calls.
  destruct (client_behavior_model (self w)) as [model |].
  - intros E.
    destruct (@for_range_spec (agents_frame w)
                (fun c => behavior_call (latest_snapshot (self w)) c /\
                          is_client_call c)
                (length (clients (self w))) (client_behavior model)
                (fun i w1 w2 r HJ =>
                   @client_behavior_spec w model i w1 w2 r HJ)
                _ _ _ _ _ (agents_frame_refl w) E)
      as (HJ & new & Ec & HP & Hn).
    split; [exact HJ |]. exists new. repeat split; auto.
  - unfold ret. intros E; injection E as <- <-.
    split; [apply agents_frame_refl |]. exists []. rewrite app_nil_r.
    repeat split; auto.
Qed.

Lemma agents_frame_trans a b c :
  agents_frame a b -> agents_frame b c -> agents_frame a c.
Proof.
  intros (H1 & H2 & H3 & H4 & H5) (K1 & K2 & K3 & K4 & K5).
  repeat split; congruence.
Qed.

Lemma Forall_fst {A} (P Q : A -> Prop) l :
  Forall (fun c => P c /\ Q c) l -> Forall P l /\ Forall Q l.
Proof.
  intros F. split; eapply Forall_impl; try exact F; cbn; tauto.
Qed.

(** Phase 2 calls the freelancer model once for each freelancer, then
    the client model once for each client, every time with the latest
    snapshot of the state it started in. *)
Lemma execute_agent_behaviors_spec w w' r :
  _execute_agent_behaviors w = (w', r) ->
  agents_frame w w' /\
  exists fcalls ccalls,
    calls w' = calls w ++ fcalls ++ ccalls /\
    Forall (behavior_call (latest_snapshot (self w))) (fcalls ++ ccalls) /\
    Forall is_freelancer_call fcalls /\
    Forall is_client_call ccalls /\
    (r = inr tt ->
     length fcalls = n_freelancer_calls (self w) /\
     length ccalls = n_client_calls (self w)).
Proof.
  unfold _execute_agent_behaviors. rewrite bind_get_self.
  intros E. apply bind_cases in E.
  destruct E as [(e & E & ->) | ([] & w1 & E1 & E2)].
  - apply freelancer_loop_spec in E.
    destruct E as (HJ & new & Ec & HP & _).
    apply Forall_fst in HP. destruct HP as [HP1 HP2].
    split; [exact HJ |]. exists new, []. rewrite !app_nil_r.
    repeat split; auto; discriminate.
  - apply freelancer_loop_spec in E1.
    destruct E1 as (HJ1 & new1 & Ec1 & HP1 & Hn1).
    rewrite bind_get_self in E2. apply client_loop_spec in E2.
    destruct E2 as (HJ2 & new2 & Ec2 & HP2 & Hn2).
    apply Forall_fst in HP1. destruct HP1 as [HP1 HF1].
    apply Forall_fst in HP2. destruct HP2 as [HP2 HF2].
    destruct HJ1 as (Hs & Hm & Hk & Hf & Hc).
    split.
    + eapply agents_frame_trans; [| exact HJ2]. repeat split; assumption.
    + exists new1, new2. rewrite Ec2, Ec1, app_assoc.
      split; [reflexivity |]. split.
      * apply Forall_app. split; [exact HP1 |].
        rewrite <- (latest_snapshot_frame _ _ Hm). exact HP2.
      * split; [exact HF1 |]. split; [exact HF2 |].
        intros Er. split; [auto |].
        rewrite Hn2 by exact Er. unfold n_client_calls.
        apply setup_fields in Hs.
        destruct Hs as (_ & _ & _ & _ & _ & -> & _).
        now rewrite Hc.
Qed.

Lemma execute_agent_behaviors_none w :
  freelancer_behavior_model (self w) = None ->
  client_behavior_model (self w) = None ->
  _execute_agent_behaviors w = (w, inr tt).
Proof.
  unfold _execute_agent_behaviors, bind, get_self, ret.
  intros -> . cbn [self]. intros ->. reflexivity.
Qed.

(** ** Phase 4 *)

Lemma call_is_active_spec i s t w w1 (ra : exn + bool) :
  call_is_active i s t w = (w1, ra) ->
  self w1 = self w /\ calls w1 = calls w ++ [CallIsActive i t ra].
Proof.
  unfold call_is_active. destruct (is_active s t (ext w)) as [x r0].
  intros E; injection E as <- <-. split; reflexivity.
Qed.

Lemma apply_call_spec i s w w' r :
  (e <- get_self ;;
   log (CallApply i (mappings e) (current_time e)) ;;
   invoke (apply s (mappings e) (current_time e)) set_mappings) w = (w', r) ->
  setup (self w') = setup (self w) /\
  market_snapshots (self w') = market_snapshots (self w) /\
  calls w' =
    calls w ++ [CallApply i (mappings (self w)) (current_time (self w))].
Proof.
  rewrite bind_get_self. unfold bind, log, invoke. cbn [self ext calls].
  destruct (apply s _ _ _) as [[m x] [ex |]];
    intros E; injection E as <- <-; repeat split.
Qed.

Lemma apply_scenarios_spec l i w w' r :
  apply_scenarios i l w = (w', r) ->
  setup (self w') = setup (self w) /\
  market_snapshots (self w') = market_snapshots (self w) /\
  exists new, calls w' = calls w ++ new /\
    Forall is_scenario_call new /\
    (r = inr tt -> scenario_calls (current_time (self w)) i (length l) new).
Proof.
  revert i w. induction l as [| s l IH]; intros i w E.
  - cbn in E. unfold ret in E. injection E as <- <-.
    repeat split. exists []. rewrite app_nil_r.
    repeat split; [constructor | intros _; constructor].
  - cbn [apply_scenarios] in E. rewrite bind_get_self in E.
    apply bind_cases in E.
    destruct E as [(ex & E & ->) | (active & w1 & E1 & E2)].
    + apply call_is_active_spec in E. destruct E as [Es Ec].
      rewrite Es. repeat split. eexists. split; [exact Ec |].
      split; [repeat constructor | discriminate].
    + apply call_is_active_spec in E1. destruct E1 as [Es1 Ec1].
      apply bind_cases in E2.
      destruct E2 as [(ex & E2 & ->) | ([] & w2 & E2 & E3)].
      * destruct active.
        -- apply apply_call_spec in E2. destruct E2 as (Hs & Hm & Ec).
           rewrite Hs, Hm, Es1. repeat split.
           eexists. rewrite Ec, Ec1, <- app_assoc. split; [reflexivity |].
           split; [repeat constructor | discriminate].
        -- discriminate.
      * apply IH in E3. destruct E3 as (Hs3 & Hm3 & new & Ec3 & HP & Hn).
        destruct active.
        -- apply apply_call_spec in E2. destruct E2 as (Hs & Hm & Ec).
           rewrite Hs3, Hm3, Hs, Hm, Es1. repeat split.
           eexists. rewrite Ec3, Ec, Ec1, <- !app_assoc.
           split; [reflexivity |].
           split; [repeat constructor; exact HP |].
           intros Er. cbn. rewrite Es1. apply sc_active.
           apply Hn in Er. apply setup_fields in Hs.
           destruct Hs as (_ & Ht & _). rewrite Ht, Es1 in Er. exact Er.
        -- unfold ret in E2. injection E2 as <-.
           rewrite Hs3, Hm3, Es1. repeat split.
           eexists. rewrite Ec3, Ec1, <- !app_assoc.
           split; [reflexivity |].
           split; [repeat constructor; exact HP |].
           intros Er. cbn. apply sc_inactive.
           apply Hn in Er. rewrite Es1 in Er. exact Er.
Qed.

Lemma apply_regulatory_scenarios_spec w w' r :
  _apply_regulatory_scenarios w = (w', r) ->
  setup (self w') = setup (self w) /\
  market_snapshots (self w') = market_snapshots (self w) /\
  exists new, calls w' = calls w ++ new /\
    Forall is_scenario_call new /\
    (r = inr tt ->
     scenario_calls (current_time (self w)) 0
       (length (scenarios (self w))) new).
Proof.
  unfold _apply_regulatory_scenarios. rewrite bind_get_self.
  apply apply_scenarios_spec.
Qed.

Lemma apply_regulatory_scenarios_none w :
  scenarios (self w) = [] -> _apply_regulatory_scenarios w = (w, inr tt).
Proof.
  unfold _apply_regulatory_scenarios. rewrite bind_get_self.
  intros ->. reflexivity.
Qed.


(** ** The outcomes of a step *)

Lemma step_cases w w' r : step w = (w', r) -> step_outcome w w' r.
Proof.
  unfold step. intros E.
  apply bind_cases in E.
  destruct E as [(e & E1 & ->) | ([] & w1 & E1 & E)];
    [eapply raised_in_phase1; eassumption |].
  apply bind_cases in E.
  destruct E as [(e & E2 & ->) | ([] & w2 & E2 & E)];
    [eapply raised_in_phase2; eassumption |].
  apply bind_cases in E.
  destruct E as [(e & E3 & ->) | ([] & w3 & E3 & E)];
    [rewrite process_contracts_spec in E3; discriminate |].
  apply bind_cases in E.
  destruct E as [(e & E4 & ->) | ([] & w4 & E4 & E)];
    [eapply raised_in_phase4; eassumption |].
  apply bind_cases in E.
  destruct E as [(e & E5 & ->) | ([] & w5 & E5 & E)];
    [eapply raised_in_phase5; eassumption |].
  destruct r as [e | []].
  - eapply raised_in_phase6; eassumption.
  - eapply completed; eassumption.
Qed.

Lemma step_of_outcome w w' r : step_outcome w w' r -> step w = (w', r).
Proof.
  unfold step. intros O.
  destruct O;
    repeat first
      [ erewrite bind_step by eassumption
      | erewrite bind_raise by eassumption; reflexivity
      | eassumption ].
Qed.

Lemma late_frame_refl w : late_frame w w.
Proof.
  repeat split. exists []. rewrite app_nil_r. split; constructor.
Qed.

Lemma late_frame_quiet w0 w w' (P : Call -> Prop) new :
  late_frame w0 w ->
  setup (self w') = setup (self w) ->
  market_snapshots (self w') = market_snapshots (self w) ->
  calls w' = calls w ++ new ->
  Forall P new ->
  (forall c, P c -> is_freelancer_call c \/ is_client_call c ->
             behavior_call (latest_snapshot (self w0)) c) ->
  late_frame w0 w'.
Proof.
  intros (Hs & Hm & old & Ec & HP) Hs' Hm' Ec' HP' Himp.
  repeat split; try congruence.
  exists (old ++ new). rewrite Ec', Ec, app_assoc. split; [reflexivity |].
  apply Forall_app. split; [exact HP |].
  eapply Forall_impl; [| exact HP']. cbn. intros c Hc. apply Himp, Hc.
Qed.

Lemma phase2_late w w' r :
  _execute_agent_behaviors w = (w', r) -> late_frame w w'.
Proof.
  intros E. apply execute_agent_behaviors_spec in E.
  destruct E as ((Hs & Hm & _) & fc & cc & Ec & HP & _).
  eapply late_frame_quiet with (new := fc ++ cc);
    [apply late_frame_refl | assumption | assumption | assumption
    | exact HP |].
  intros c Hc _. exact Hc.
Qed.

Lemma phase3_late w0 w w' r :
  late_frame w0 w -> _process_contracts w = (w', r) -> late_frame w0 w'.
Proof.
  intros HL E. rewrite process_contracts_spec in E. injection E as <- <-.
  eapply late_frame_quiet with (new := []) (P := fun _ => False);
    [exact HL | reflexivity | reflexivity | | constructor | tauto].
  cbn. now rewrite app_nil_r.
Qed.

Lemma phase4_late w0 w w' r :
  late_frame w0 w -> _apply_regulatory_scenarios w = (w', r) ->
  late_frame w0 w'.
Proof.
  intros HL E. apply apply_regulatory_scenarios_spec in E.
  destruct E as (Hs & Hm & new & Ec & HP & _).
  eapply late_frame_quiet; try eassumption.
  intros [] Hc [F | F]; cbn in *; tauto.
Qed.

Lemma phase5_late w0 w w' r :
  late_frame w0 w -> _collect_step_metrics w = (w', r) -> late_frame w0 w'.
Proof.
  intros HL E. apply collect_step_metrics_spec in E. destruct E as [Es Ec].
  eapply late_frame_quiet with (P := fun c => c = metrics_call (self w));
    try eassumption; try (now rewrite Es).
  - repeat constructor.
  - intros c -> [F | F]; cbn in F; tauto.
Qed.


(** A step, seen from the end of phase 1: either phase 1 raised, or the
    later phases ran within their frame up to a state [w5], from which
    the clock was advanced unless something raised. *)
Lemma step_late w w' r :
  step w = (w', r) ->
  (exists e, r = inl e /\ _update_market_conditions w = (w', inl e)) \/
  exists w1 w5,
    _update_market_conditions w = (w1, inr tt) /\
    late_frame w1 w5 /\
    ((exists e, r = inl e /\ w5 = w') \/
     (r = inr tt /\ advance_time w5 = (w', inr tt))).
Proof.
  intros E. apply step_cases in E.
  destruct E as [w' e E1 | w1 w' e E1 E2 | w1 w2 w3 w' e E1 E2 E3 E4
                | w1 w2 w3 w4 w' e E1 E2 E3 E4 E5
                | w1 w2 w3 w4 w5 w' e E1 E2 E3 E4 E5 E6
                | w1 w2 w3 w4 w5 w' E1 E2 E3 E4 E5 E6].
  - left. exists e. split; [reflexivity | exact E1].
  - right. exists w1, w'. split; [exact E1 |].
    split; [eapply phase2_late; eassumption |].
    left. exists e. split; reflexivity.
  - right. exists w1, w'. split; [exact E1 |].
    split; [| left; exists e; split; reflexivity].
    eapply phase4_late; [| eassumption].
    eapply phase3_late; [| eassumption].
    eapply phase2_late; eassumption.
  - right. exists w1, w'. split; [exact E1 |].
    split; [| left; exists e; split; reflexivity].
    eapply phase5_late; [| eassumption].
    eapply phase4_late; [| eassumption].
    eapply phase3_late; [| eassumption].
    eapply phase2_late; eassumption.
  - right. exists w1, w'. split; [exact E1 |].
    split; [| left; exists e; split; reflexivity].
    apply advance_time_spec in E6. destruct E6 as [-> _].
    eapply phase5_late; [| eassumption].
    eapply phase4_late; [| eassumption].
    eapply phase3_late; [| eassumption].
    eapply phase2_late; eassumption.
  - right. exists w1, w5. split; [exact E1 |].
    split; [| right; split; [reflexivity | exact E6]].
    eapply phase5_late; [| eassumption].
    eapply phase4_late; [| eassumption].
    eapply phase3_late; [| eassumption].
    eapply phase2_late; eassumption.
Qed.

Lemma latest_snapshot_app e l s :
  market_snapshots e = l ++ [s] -> latest_snapshot e = Some s.
Proof.
  unfold latest_snapshot. intros ->.
  rewrite length_app. cbn [length].
  replace (length l + 1 - 1)%nat with (length l) by lia.
  rewrite nth_error_app2 by lia. now rewrite Nat.sub_diag.
Qed.

(** What a step does to the attributes, whatever its outcome. *)
Lemma step_summary w w' r :
  step w = (w', r) ->
  config (self w') = config (self w) /\
  transactions (self w') = transactions (self w) /\
  scenarios (self w') = scenarios (self w) /\
  freelancer_behavior_model (self w') = freelancer_behavior_model (self w) /\
  client_behavior_model (self w') = client_behavior_model (self w) /\
  market_dynamics_model (self w') = market_dynamics_model (self w) /\
  current_time (self w') =
    match r with
    | inr _ => current_time (self w) + time_step (config (self w))
    | inl _ => current_time (self w)
    end /\
  (market_snapshots (self w') =
     market_snapshots (self w) ++ [phase1_snapshot w] \/
   market_snapshots (self w') = market_snapshots (self w) /\
   exists e, r = inl e /\ _update_market_conditions w = (w', inl e)) /\
  exists new, calls w' = calls w ++ new /\
    forall c, In c new -> is_freelancer_call c \/ is_client_call c ->
      behavior_call (Some (phase1_snapshot w)) c /\
      market_snapshots (self w') =
        market_snapshots (self w) ++ [phase1_snapshot w].
Proof.
  intros E. apply step_late in E.
  destruct E as [(e & -> & E1) | (w1 & w5 & E1 & HL & Hend)].
  - destruct (update_market_spec _ _ _ E1) as (Hs & Ec & [Hm Hmodel] & _).
    apply setup_fields in Hs.
    destruct Hs as (H1 & H2 & H3 & H4 & H5 & H6 & H7).
    repeat (split; [assumption |]).
    split; [right; split; [assumption | eauto] |].
    exists (market_calls (self w)). split; [exact Ec |].
    unfold market_calls. intros c Hin [F | F];
      destruct (market_dynamics_model (self w)); cbn in Hin;
      try tauto; destruct Hin as [<- | []]; cbn in F; tauto.
  - destruct (update_market_spec _ _ _ E1) as (Hs & Ec & Hm & _).
    assert (Esnap : phase1_snapshot w = make_snapshot (self w1))
      by (unfold phase1_snapshot; now rewrite E1).
    rewrite <- Esnap in Hm.
    destruct HL as (Hs5 & Hm5 & new & Ec5 & HP).
    rewrite (latest_snapshot_app _ _ _ Hm) in HP.
    assert (Hs' : setup (self w5) = setup (self w)) by congruence.
    assert (Hm' : market_snapshots (self w5) =
                  market_snapshots (self w) ++ [phase1_snapshot w])
      by congruence.
    assert (Hcalls : exists new', calls w5 = calls w ++ new' /\
              forall c, In c new' ->
                is_freelancer_call c \/ is_client_call c ->
                behavior_call (Some (phase1_snapshot w)) c).
    { exists (market_calls (self w) ++ new).
      rewrite Ec5, Ec, app_assoc. split; [reflexivity |].
      intros c Hin Hb. apply in_app_or in Hin. destruct Hin as [Hin | Hin].
      - exfalso. unfold market_calls in Hin.
        destruct (market_dynamics_model (self w)); cbn in Hin; try tauto.
        destruct Hin as [<- | []]. destruct Hb as [F | F]; cbn in F; tauto.
      - rewrite Forall_forall in HP. apply HP; assumption. }
    destruct Hcalls as (new' & Ec' & Hb').
    apply setup_fields in Hs'.
    destruct Hs' as (H1 & H2 & H3 & H4 & H5 & H6 & H7).
    destruct Hend as [(e & -> & <-) | (-> & E6)].
    + repeat (split; [assumption |]).
      split; [left; assumption |].
      exists new'. split; [exact Ec' |]. intros c Hin Hb.
      split; [apply Hb'; assumption | assumption].
    + apply advance_time_spec in E6. subst w'. cbn [self ext calls].
      cbn [config transactions scenarios freelancer_behavior_model
           client_behavior_model market_dynamics_model current_time
           market_snapshots set_current_time].
      rewrite H1, H2.
      repeat (split; [assumption || reflexivity |]).
      split; [left; assumption |].
      exists new'. split; [exact Ec' |]. intros c Hin Hb.
      split; [apply Hb'; assumption | assumption].
Qed.


(** ** The effects of a step *)

Lemma set_mappings_same e : set_mappings (mappings e) e = e.
Proof. destruct e. reflexivity. Qed.

Lemma write_nth_app {V} (pre : Py.dict V) k v v' rest :
  Py.write_nth (pre ++ (k, v) :: rest) (length pre) v' =
  pre ++ (k, v') :: rest.
Proof.
  induction pre as [| [k0 v0] pre IH]; cbn; [reflexivity |].
  now rewrite IH.
Qed.

Lemma nth_error_middle {A} (pre : list A) a rest :
  nth_error (pre ++ a :: rest) (length pre) = Some a.
Proof. induction pre as [| b pre IH]; cbn; [reflexivity | exact IH]. Qed.

Lemma update_market_effect w w' r :
  _update_market_conditions w = (w', r) ->
  exists m1,
    market_effect (self w) (ext w) = ((m1, ext w'), raised r) /\
    self w' =
      match r with
      | inr _ =>
          engine_with (self w) (make_snapshot (set_mappings m1 (self w))) m1
      | inl _ => set_mappings m1 (self w)
      end.
Proof.
  unfold _update_market_conditions, market_effect, bind, get_self, log,
    invoke, modify, ret.
  destruct w as [e x cs]; cbn [self ext calls].
  destruct (market_dynamics_model e) as [model |] eqn:Em.
  - cbn [self ext calls].
    destruct (model (mappings e) (current_time e) x) as [[m x'] [ex |]];
      cbn [self ext calls]; intros E; injection E as <- <-;
      cbn [self ext calls raised]; exists m; split; reflexivity.
  - cbn [self ext calls]. intros E; injection E as <- <-.
    cbn [self ext calls raised]. exists (mappings e).
    split; [reflexivity |]. rewrite set_mappings_same. reflexivity.
Qed.

(** The loop over the freelancers from the one at [length pre] on. *)
Lemma freelancer_loop_effect model :
  forall rest pre w w' r,
    freelancers (self w) = pre ++ rest ->
    for_range (length rest) (length pre) (freelancer_behavior model) w
      = (w', r) ->
    exists rest' cs',
      freelancer_calls model (latest_snapshot (self w))
        (current_time (self w)) rest (clients (self w)) (ext w)
        = ((rest', cs', ext w'), raised r) /\
      self w' = set_clients cs' (set_freelancers (pre ++ rest') (self w)).
Proof.
  induction rest as [| [k f] rest IH]; intros pre w w' r Ef E.
  - cbn in E. unfold ret in E. injection E as <- <-.
    exists [], (clients (self w)). split; [reflexivity |].
    rewrite <- Ef. destruct (self w). reflexivity.
  - cbn [for_range length] in E. cbn [freelancer_calls].
    unfold bind at 1 in E. unfold freelancer_behavior in E.
    rewrite bind_get_self in E. rewrite Ef, nth_error_middle in E.
    unfold bind at 1, log, invoke in E. cbn [self ext calls] in E.
    destruct (model f (latest_snapshot (self w)) (Py.values (clients (self w)))
                (current_time (self w)) (ext w)) as [[[f' cs'] x'] [ex |]].
    + injection E as <- <-. cbn [self ext raised].
      eexists _, _. split; [reflexivity |].
      rewrite Ef, write_nth_app. reflexivity.
    + rewrite Ef, write_nth_app in E.
      specialize (IH (pre ++ [(k, f')])).
      rewrite length_app, Nat.add_1_r in IH.
      apply IH in E; [| cbn; now rewrite <- app_assoc].
      cbn [self ext calls] in E.
      destruct E as (rest' & cs2 & Ecalls & Eself).
      change (latest_snapshot
                (set_clients (Py.write_values (clients (self w)) cs')
                   (set_freelancers (pre ++ (k, f') :: rest) (self w))))
        with (latest_snapshot (self w)) in Ecalls.
      cbn [current_time clients set_clients set_freelancers] in Ecalls.
      rewrite Ecalls. eexists _, _. split; [reflexivity |].
      rewrite Eself, <- app_assoc. reflexivity.
Qed.

Lemma client_loop_effect model :
  forall rest pre w w' r,
    clients (self w) = pre ++ rest ->
    for_range (length rest) (length pre) (client_behavior model) w
      = (w', r) ->
    exists rest' fs',
      client_calls model (latest_snapshot (self w))
        (current_time (self w)) rest (freelancers (self w)) (ext w)
        = ((rest', fs', ext w'), raised r) /\
      self w' = set_freelancers fs' (set_clients (pre ++ rest') (self w)).
Proof.
  induction rest as [| [k c] rest IH]; intros pre w w' r Ef E.
  - cbn in E. unfold ret in E. injection E as <- <-.
    exists [], (freelancers (self w)). split; [reflexivity |].
    rewrite <- Ef. destruct (self w). reflexivity.
  - cbn [for_range length] in E. cbn [client_calls].
    unfold bind at 1 in E. unfold client_behavior in E.
    rewrite bind_get_self in E. rewrite Ef, nth_error_middle in E.
    unfold bind at 1, log, invoke in E. cbn [self ext calls] in E.
    destruct (model c (latest_snapshot (self w))
                (Py.values (freelancers (self w)))
                (current_time (self w)) (ext w)) as [[[c' fs'] x'] [ex |]].
    + injection E as <- <-. cbn [self ext raised].
      eexists _, _. split; [reflexivity |].
      rewrite Ef, write_nth_app. reflexivity.
    + rewrite Ef, write_nth_app in E.
      specialize (IH (pre ++ [(k, c')])).
      rewrite length_app, Nat.add_1_r in IH.
      apply IH in E; [| cbn; now rewrite <- app_assoc].
      cbn [self ext calls] in E.
      destruct E as (rest' & fs2 & Ecalls & Eself).
      change (latest_snapshot
                (set_freelancers (Py.write_values (freelancers (self w)) fs')
                   (set_clients (pre ++ (k, c') :: rest) (self w))))
        with (latest_snapshot (self w)) in Ecalls.
      cbn [current_time freelancers set_clients set_freelancers] in Ecalls.
      rewrite Ecalls. eexists _, _. split; [reflexivity |].
      rewrite Eself, <- app_assoc. reflexivity.
Qed.

Lemma execute_agent_behaviors_effect w w' r :
  _execute_agent_behaviors w = (w', r) ->
  exists m2,
    agents_effect (self w) (latest_snapshot (self w)) (mappings (self w))
      (ext w) = ((m2, ext w'), raised r) /\
    self w' = set_mappings m2 (self w).
Proof.
  unfold _execute_agent_behaviors, agents_effect.
  rewrite bind_get_self. intros E.
  cbn [mappings m_freelancers m_clients m_contracts].
  apply bind_cases in E. destruct E as [(ex & E & ->) | ([] & w1 & E1 & E2)].
  - destruct (freelancer_behavior_model (self w)) as [model |];
      [| discriminate E].
    apply (freelancer_loop_effect model _ []) in E; [| reflexivity].
    destruct E as (fs' & cs' & -> & Eself). cbn [raised app] in *.
    eexists. split; [reflexivity |]. rewrite Eself.
    destruct (self w). reflexivity.
  - assert (E1' : exists fs' cs',
              match freelancer_behavior_model (self w) with
              | Some model =>
                  freelancer_calls model (latest_snapshot (self w))
                    (current_time (self w)) (freelancers (self w))
                    (clients (self w)) (ext w)
              | None => ((freelancers (self w), clients (self w), ext w), None)
              end = ((fs', cs', ext w1), None) /\
              self w1 = set_clients cs' (set_freelancers fs' (self w))).
    { destruct (freelancer_behavior_model (self w)) as [model |].
      - apply (freelancer_loop_effect model _ []) in E1; [| reflexivity].
        exact E1.
      - unfold ret in E1. injection E1 as <-. eexists _, _.
        split; [reflexivity |]. destruct (self w). reflexivity. }
    destruct E1' as (fs' & cs' & -> & Eself1).
    rewrite bind_get_self in E2. rewrite Eself1 in E2.
    cbn [client_behavior_model set_clients set_freelancers clients] in E2.
    destruct (client_behavior_model (self w)) as [model |].
    + apply (client_loop_effect model _ []) in E2;
        [| rewrite Eself1; reflexivity].
      destruct E2 as (cs2 & fs2 & Ecalls & Eself).
      rewrite Eself1 in Ecalls.
      change (latest_snapshot (set_clients cs' (set_freelancers fs' (self w))))
        with (latest_snapshot (self w)) in Ecalls.
      cbn [current_time clients freelancers set_clients set_freelancers]
        in Ecalls.
      rewrite Ecalls. eexists. split; [reflexivity |].
      rewrite Eself, Eself1. destruct (self w). reflexivity.
    + unfold ret in E2. injection E2 as <- <-. cbn [raised].
      eexists. split; [reflexivity |]. rewrite Eself1.
      destruct (self w). reflexivity.
Qed.

Lemma apply_scenarios_effect l :
  forall i w w' r,
    apply_scenarios i l w = (w', r) ->
    exists m4,
      scenario_pass (current_time (self w)) l (mappings (self w)) (ext w)
        = ((m4, ext w'), raised r) /\
      self w' = set_mappings m4 (self w).
Proof.
  induction l as [| s l IH]; intros i w w' r E.
  - cbn in E. unfold ret in E. injection E as <- <-.
    exists (mappings (self w)). split; [reflexivity |].
    now rewrite set_mappings_same.
  - cbn [apply_scenarios scenario_pass] in E |- *.
    rewrite bind_get_self in E. unfold bind at 1, call_is_active in E.
    destruct (is_active s (current_time (self w)) (ext w)) as [x1 [ex | b]].
    + injection E as <- <-. cbn [self ext raised].
      exists (mappings (self w)). split; [reflexivity |].
      now rewrite set_mappings_same.
    + destruct b.
      * unfold bind at 1 in E. rewrite bind_get_self in E.
        unfold bind at 1, log, invoke in E. cbn [self ext calls] in E.
        destruct (apply s (mappings (self w)) (current_time (self w)) x1)
          as [[m' x2] [ex |]].
        -- injection E as <- <-. cbn [self ext raised].
           exists m'. split; reflexivity.
        -- apply IH in E. cbn [self ext] in E.
           destruct E as (m4 & Epass & Eself). exists m4.
           replace (current_time (set_mappings m' (self w)))
             with (current_time (self w)) in Epass by reflexivity.
           replace (mappings (set_mappings m' (self w))) with m' in Epass
             by (destruct m'; reflexivity).
           split; [exact Epass |]. rewrite Eself. reflexivity.
      * unfold bind at 1, ret at 1 in E. apply IH in E.
        cbn [self ext] in E. exact E.
Qed.

Lemma apply_regulatory_scenarios_effect w w' r :
  _apply_regulatory_scenarios w = (w', r) ->
  exists m4,
    scenario_pass (current_time (self w)) (scenarios (self w))
      (mappings (self w)) (ext w) = ((m4, ext w'), raised r) /\
    self w' = set_mappings m4 (self w).
Proof.
  unfold _apply_regulatory_scenarios. rewrite bind_get_self.
  apply apply_scenarios_effect.
Qed.

Lemma collect_step_metrics_effect w w' r :
  _collect_step_metrics w = (w', r) ->
  collect_step_metrics (mappings (self w)) (transactions (self w))
    (current_time (self w)) (ext w) = (ext w', raised r) /\
  self w' = self w.
Proof.
  unfold _collect_step_metrics, bind, get_self, log.
  cbn [self ext calls].
  destruct (collect_step_metrics _ _ _ _) as [x [ex |]];
    intros E; injection E as <- <-; split; reflexivity.
Qed.

Lemma mappings_set_mappings m e : mappings (set_mappings m e) = m.
Proof. destruct m. reflexivity. Qed.

Lemma latest_snapshot_engine_with e s m :
  latest_snapshot (engine_with e s m) = Some s.
Proof.
  unfold latest_snapshot, engine_with.
  cbn [market_snapshots set_market_snapshots].
  rewrite length_app, Nat.add_sub. cbn [length].
  rewrite nth_error_app2 by lia. now rewrite Nat.sub_diag.
Qed.

Lemma mappings_engine_with e s m : mappings (engine_with e s m) = m.
Proof. destruct m. reflexivity. Qed.

Lemma agents_effect_engine_with e s m ms m' x :
  agents_effect (engine_with e s m) ms m' x = agents_effect e ms m' x.
Proof. reflexivity. Qed.

(** A step, whatever its outcome, is the six phases on the attributes and
    the world. *)
Lemma step_effects w w' r :
  step w = (w', r) ->
  step_effect (self w) (ext w) = ((self w', ext w'), r).
Proof.
  intros E. apply step_cases in E. unfold step_effect.
  assert (P1 : forall w1, _update_market_conditions w = (w1, inr tt) ->
            exists m1,
              market_effect (self w) (ext w) = ((m1, ext w1), None) /\
              self w1 =
                engine_with (self w)
                  (make_snapshot (set_mappings m1 (self w))) m1).
  { intros w1 E1. apply update_market_effect in E1. exact E1. }
  assert (P2 : forall w1 m1 w2 r2,
            self w1 =
              engine_with (self w)
                (make_snapshot (set_mappings m1 (self w))) m1 ->
            _execute_agent_behaviors w1 = (w2, r2) ->
            exists m2,
              agents_effect (self w)
                (Some (make_snapshot (set_mappings m1 (self w)))) m1 (ext w1)
                = ((m2, ext w2), raised r2) /\
              self w2 =
                engine_with (self w)
                  (make_snapshot (set_mappings m1 (self w))) m2).
  { intros w1 m1 w2 r2 S1 E2. apply execute_agent_behaviors_effect in E2.
    destruct E2 as (m2 & Ea & S2). exists m2.
    rewrite S1, latest_snapshot_engine_with, mappings_engine_with,
      agents_effect_engine_with in Ea.
    split; [exact Ea |]. rewrite S2, S1. reflexivity. }
  assert (P3 : forall w2 s m2 w3,
            self w2 = engine_with (self w) s m2 ->
            _process_contracts w2 = (w3, inr tt) ->
            self w3 =
              engine_with (self w) s (lifecycle (current_time (self w)) m2) /\
            ext w3 = ext w2).
  { intros w2 s m2 w3 S2 E3. rewrite process_contracts_spec in E3.
    injection E3 as <-. cbn [self ext]. split; [| reflexivity].
    rewrite S2. unfold processed, lifecycle, engine_with.
    destruct m2. reflexivity. }
  assert (P4 : forall w3 s m3 w4 r4,
            self w3 = engine_with (self w) s m3 ->
            _apply_regulatory_scenarios w3 = (w4, r4) ->
            exists m4,
              scenario_pass (current_time (self w)) (scenarios (self w)) m3
                (ext w3) = ((m4, ext w4), raised r4) /\
              self w4 = engine_with (self w) s m4).
  { intros w3 s m3 w4 r4 S3 E4. apply apply_regulatory_scenarios_effect in E4.
    destruct E4 as (m4 & Ep & S4). exists m4.
    rewrite S3, mappings_engine_with in Ep.
    split; [exact Ep |]. rewrite S4, S3. reflexivity. }
  assert (P5 : forall w4 s m4 w5 r5,
            self w4 = engine_with (self w) s m4 ->
            _collect_step_metrics w4 = (w5, r5) ->
            collect_step_metrics m4 (transactions (self w))
              (current_time (self w)) (ext w4) = (ext w5, raised r5) /\
            self w5 = engine_with (self w) s m4).
  { intros w4 s m4 w5 r5 S4 E5. apply collect_step_metrics_effect in E5.
    destruct E5 as (Ec & S5).
    rewrite S4, mappings_engine_with in Ec.
    split; [exact Ec |]. now rewrite S5. }
  inversion E as [w1 e E1 | w1 w2 e E1 E2 | w1 w2 w3 w4 e E1 E2 E3 E4
                 | w1 w2 w3 w4 w5 e E1 E2 E3 E4 E5
                 | w1 w2 w3 w4 w5 w6 e E1 E2 E3 E4 E5 E6
                 | w1 w2 w3 w4 w5 w6 E1 E2 E3 E4 E5 E6]; subst.
  - apply update_market_effect in E1. destruct E1 as (m1 & -> & ->).
    reflexivity.
  - destruct (P1 _ E1) as (m1 & -> & S1). cbv zeta.
    destruct (P2 _ _ _ _ S1 E2) as (m2 & -> & ->). reflexivity.
  - destruct (P1 _ E1) as (m1 & -> & S1). cbv zeta.
    destruct (P2 _ _ _ _ S1 E2) as (m2 & -> & S2).
    destruct (P3 _ _ _ _ S2 E3) as (S3 & X3).
    destruct (P4 _ _ _ _ _ S3 E4) as (m4 & Ep & ->).
    rewrite X3 in Ep. cbn [raised]. rewrite Ep. reflexivity.
  - destruct (P1 _ E1) as (m1 & -> & S1). cbv zeta.
    destruct (P2 _ _ _ _ S1 E2) as (m2 & -> & S2).
    destruct (P3 _ _ _ _ S2 E3) as (S3 & X3).
    destruct (P4 _ _ _ _ _ S3 E4) as (m4 & Ep & S4).
    rewrite X3 in Ep. cbn [raised]. rewrite Ep.
    destruct (P5 _ _ _ _ _ S4 E5) as (-> & ->). reflexivity.
  - destruct (P1 _ E1) as (m1 & -> & S1). cbv zeta.
    destruct (P2 _ _ _ _ S1 E2) as (m2 & -> & S2).
    destruct (P3 _ _ _ _ S2 E3) as (S3 & X3).
    destruct (P4 _ _ _ _ _ S3 E4) as (m4 & Ep & S4).
    rewrite X3 in Ep. cbn [raised]. rewrite Ep.
    destruct (P5 _ _ _ _ _ S4 E5) as (-> & S5). cbn [raised].
    pose proof E6 as E6'. apply advance_time_spec in E6'.
    destruct E6' as [-> ->].
    unfold advance_time in E6. rewrite bind_get_self in E6.
    rewrite S5 in E6.
    change (current_time (engine_with (self w)
              (make_snapshot (set_mappings m1 (self w))) m4))
      with (current_time (self w)) in E6.
    change (config (engine_with (self w)
              (make_snapshot (set_mappings m1 (self w))) m4))
      with (config (self w)) in E6.
    destruct (in_range (current_time (self w) + time_step (config (self w)))).
    + discriminate E6.
    + rewrite S5. reflexivity.
  - destruct (P1 _ E1) as (m1 & -> & S1). cbv zeta.
    destruct (P2 _ _ _ _ S1 E2) as (m2 & -> & S2).
    destruct (P3 _ _ _ _ S2 E3) as (S3 & X3).
    destruct (P4 _ _ _ _ _ S3 E4) as (m4 & Ep & S4).
    rewrite X3 in Ep. cbn [raised]. rewrite Ep.
    destruct (P5 _ _ _ _ _ S4 E5) as (-> & S5). cbn [raised].
    pose proof E6 as E6'. apply advance_time_spec in E6'. subst w'.
    cbn [self ext].
    unfold advance_time in E6. rewrite bind_get_self in E6.
    rewrite S5 in E6 |- *.
    change (current_time (engine_with (self w)
              (make_snapshot (set_mappings m1 (self w))) m4))
      with (current_time (self w)) in E6 |- *.
    change (config (engine_with (self w)
              (make_snapshot (set_mappings m1 (self w))) m4))
      with (config (self w)) in E6 |- *.
    destruct (in_range (current_time (self w) + time_step (config (self w)))).
    + reflexivity.
    + discriminate E6.
Qed.

Lemma scenario_pass_app t l1 l2 m x :
  scenario_pass t (l1 ++ l2) m x =
  match scenario_pass t l1 m x with
  | ((m', x'), None) => scenario_pass t l2 m' x'
  | ((m', x'), Some ex) => ((m', x'), Some ex)
  end.
Proof.
  revert m x. induction l1 as [| s l1 IH]; intros m x; [reflexivity |].
  cbn [app scenario_pass].
  destruct (is_active s t x) as [x1 [ex | [|]]]; [reflexivity | | apply IH].
  destruct (apply s m t x1) as [[m' x2] [ex |]]; [reflexivity | apply IH].
Qed.

Lemma write_values_keys {V} (d : Py.dict V) vs :
  Py.keys (Py.write_values d vs) = Py.keys d.
Proof.
  revert vs. induction d as [| [k v0] d IH]; intros [| v vs]; cbn;
    try reflexivity.
  f_equal. apply IH.
Qed.

Lemma freelancer_calls_keys model ms t fs :
  forall cs x fs' cs' x' r,
    freelancer_calls model ms t fs cs x = ((fs', cs', x'), r) ->
    Py.keys fs' = Py.keys fs /\ Py.keys cs' = Py.keys cs.
Proof.
  induction fs as [| [k f] fs IH]; intros cs x fs' cs' x' r E.
  - cbn in E. injection E as <- <- _ _. split; reflexivity.
  - cbn [freelancer_calls] in E.
    destruct (model f ms (Py.values cs) t x) as [[[f' cs1] x1] [ex |]].
    + injection E as <- <- _ _. split; [reflexivity |].
      apply write_values_keys.
    + destruct (freelancer_calls model ms t fs (Py.write_values cs cs1) x1)
        as [[[rest' cs2] x2] r2] eqn:Er.
      injection E as <- <- _ _. apply IH in Er. destruct Er as [K1 K2].
      split; [cbn; f_equal; exact K1 |].
      rewrite K2. apply write_values_keys.
Qed.

Lemma client_calls_keys model ms t cs :
  forall fs x cs' fs' x' r,
    client_calls model ms t cs fs x = ((cs', fs', x'), r) ->
    Py.keys cs' = Py.keys cs /\ Py.keys fs' = Py.keys fs.
Proof.
  induction cs as [| [k c] cs IH]; intros fs x cs' fs' x' r E.
  - cbn in E. injection E as <- <- _ _. split; reflexivity.
  - cbn [client_calls] in E.
    destruct (model c ms (Py.values fs) t x) as [[[c' fs1] x1] [ex |]].
    + injection E as <- <- _ _. split; [reflexivity |].
      apply write_values_keys.
    + destruct (client_calls model ms t cs (Py.write_values fs fs1) x1)
        as [[[rest' fs2] x2] r2] eqn:Er.
      injection E as <- <- _ _. apply IH in Er. destruct Er as [K1 K2].
      split; [cbn; f_equal; exact K1 |].
      rewrite K2. apply write_values_keys.
Qed.

Lemma agents_effect_keys e ms m x m2 x2 r :
  agents_effect e ms m x = ((m2, x2), r) ->
  Py.keys (m_freelancers m2) = Py.keys (m_freelancers m) /\
  Py.keys (m_clients m2) = Py.keys (m_clients m) /\
  m_contracts m2 = m_contracts m.
Proof.
  unfold agents_effect. intros E.
  assert (F : exists fs cs x1 r1,
            match freelancer_behavior_model e with
            | Some model =>
                freelancer_calls model ms (current_time e) (m_freelancers m)
                  (m_clients m) x
            | None => ((m_freelancers m, m_clients m, x), None)
            end = ((fs, cs, x1), r1) /\
            Py.keys fs = Py.keys (m_freelancers m) /\
            Py.keys cs = Py.keys (m_clients m)).
  { destruct (freelancer_behavior_model e) as [model |].
    - destruct (freelancer_calls model ms (current_time e) (m_freelancers m)
                  (m_clients m) x) as [[[fs cs] x1] r1] eqn:Ef.
      exists fs, cs, x1, r1. split; [reflexivity |].
      eapply freelancer_calls_keys. exact Ef.
    - eexists _, _, _, _. repeat split. }
  destruct F as (fs & cs & x1 & r1 & Ef & Kf & Kc). rewrite Ef in E.
  destruct r1 as [ex |].
  - injection E as <- _ _. cbn [m_freelancers m_clients m_contracts].
    repeat split; assumption.
  - destruct (client_behavior_model e) as [model |].
    + destruct (client_calls model ms (current_time e) cs fs x1)
        as [[[cs' fs'] x2'] r2] eqn:Ec.
      injection E as <- _ _. cbn [m_freelancers m_clients m_contracts].
      apply client_calls_keys in Ec. destruct Ec as [K1 K2].
      repeat split; congruence.
    + injection E as <- _ _. cbn [m_freelancers m_clients m_contracts].
      repeat split; assumption.
Qed.


(** ** The phases of a step *)

(** C10. Inside a step the behavioral models are never given [None] as
    market state.  Either the market model raised, and then the step ended
    in the state that model left, before any call of a behavioral model; or
    phase 1 appended the snapshot [s], and what phase 2 did to the mappings
    and to the world is [agents_effect] with [Some s]: every call of the
    freelancer model and of the client model was made with [Some s], the
    snapshot the engine's log ends with from then on.  Phase 2 either
    raised, which ends the step there, or handed over to the last four
    phases. *)
Theorem behaviors_get_snapshot w w' r :
  step w = (w', r) ->
  let e := self w in
  (exists m1 x1 ex,
     market_effect e (ext w) = ((m1, x1), Some ex) /\
     r = inl ex /\ self w' = set_mappings m1 e /\ ext w' = x1) \/
  (exists m1 x1 m2 x2 r2 w2,
     let s := make_snapshot (set_mappings m1 e) in
     market_effect e (ext w) = ((m1, x1), None) /\
     agents_effect e (Some s) m1 x1 = ((m2, x2), r2) /\
     self w2 = engine_with e s m2 /\ ext w2 = x2 /\
     latest_snapshot (self w2) = Some s /\
     market_snapshots (self w') = market_snapshots e ++ [s] /\
     match r2 with
     | Some ex => r = inl ex /\ w' = w2
     | None =>
         (_process_contracts ;; _apply_regulatory_scenarios ;;
          _collect_step_metrics ;; advance_time) w2 = (w', r)
     end).
Proof.
  intros E. cbv zeta. pose proof (step_effects _ _ _ E) as Heff.
  unfold step in E. apply bind_cases in E.
  destruct E as [(ex & E1 & ->) | ([] & w1 & E1 & E)].
  - left. apply update_market_effect in E1.
    destruct E1 as (m1 & Em & Es). exists m1, (ext w'), ex.
    repeat split; assumption.
  - right. apply update_market_effect in E1.
    destruct E1 as (m1 & Em & S1). cbn [raised] in Em.
    assert (Hsnap : market_snapshots (self w') =
                    market_snapshots (self w) ++
                    [make_snapshot (set_mappings m1 (self w))]).
    { unfold step_effect in Heff. rewrite Em in Heff. cbv zeta in Heff.
      destruct (agents_effect _ _ _ _) as [[m2 x2] [ex |]];
        [injection Heff as <- _ _; reflexivity |].
      destruct (scenario_pass _ _ _ _) as [[m4 x4] [ex |]];
        [injection Heff as <- _ _; reflexivity |].
      destruct (collect_step_metrics _ _ _ _) as [x5 [ex |]];
        [injection Heff as <- _ _; reflexivity |].
      destruct (in_range _); injection Heff as <- _ _; reflexivity. }
    apply bind_cases in E.
    destruct E as [(ex & E2 & ->) | ([] & w2 & E2 & E)].
    + apply execute_agent_behaviors_effect in E2.
      destruct E2 as (m2 & Ea & S2).
      rewrite S1, latest_snapshot_engine_with, mappings_engine_with,
        agents_effect_engine_with in Ea.
      exists m1, (ext w1), m2, (ext w'), (Some ex), w'.
      split; [exact Em |]. split; [exact Ea |].
      assert (S2' : self w' =
                engine_with (self w)
                  (make_snapshot (set_mappings m1 (self w))) m2)
        by (rewrite S2, S1; reflexivity).
      split; [exact S2' |]. split; [reflexivity |].
      split; [rewrite S2'; apply latest_snapshot_engine_with |].
      split; [exact Hsnap |]. split; reflexivity.
    + apply execute_agent_behaviors_effect in E2.
      destruct E2 as (m2 & Ea & S2).
      rewrite S1, latest_snapshot_engine_with, mappings_engine_with,
        agents_effect_engine_with in Ea.
      exists m1, (ext w1), m2, (ext w2), None, w2.
      split; [exact Em |]. split; [exact Ea |].
      assert (S2' : self w2 =
                engine_with (self w)
                  (make_snapshot (set_mappings m1 (self w))) m2)
        by (rewrite S2, S1; reflexivity).
      split; [exact S2' |]. split; [reflexivity |].
      split; [rewrite S2'; apply latest_snapshot_engine_with |].
      split; [exact Hsnap |]. exact E.
Qed.

(** The snapshot a step appended, if it appended one. *)
Lemma step_appended w w' r s :
  step w = (w', r) ->
  market_snapshots (self w') = market_snapshots (self w) ++ [s] ->
  s = phase1_snapshot w /\
  exists w1, _update_market_conditions w = (w1, inr tt).
Proof.
  intros E Hs. pose proof (step_summary _ _ _ E) as Hsum.
  destruct Hsum as (_ & _ & _ & _ & _ & _ & _ & [Hm | [Hm _]] & _).
  - rewrite Hm in Hs. apply app_inj_tail in Hs. destruct Hs as [_ <-].
    split; [reflexivity |].
    apply step_late in E.
    destruct E as [(e & -> & E1) | (w1 & _ & E1 & _)]; [| eauto].
    destruct (update_market_spec _ _ _ E1) as (_ & _ & [Hm' _] & _).
    apply (f_equal (@length _)) in Hm. rewrite Hm', length_app in Hm.
    cbn in Hm. lia.
  - rewrite Hm in Hs. apply (f_equal (@length _)) in Hs.
    rewrite length_app in Hs. cbn in Hs. lia.
Qed.

(** C6. The transaction volume of the snapshot a step appends is the sum
    of the amounts of the logged transactions dated on the step's date:
    the transactions summed are exactly those of the log whose date is the
    current date. *)
Theorem snapshot_volume_is_todays w w' r s :
  step w = (w', r) ->
  market_snapshots (self w') = market_snapshots (self w) ++ [s] ->
  let today := filter (same_date (current_time (self w)))
                      (transactions (self w)) in
  total_transaction_volume s =
    fold_left (fun acc t => Decimal_add acc (amount t)) today Decimal_zero /\
  forall t, In t today <->
    In t (transactions (self w)) /\
    date_of (transaction_date t) = date_of (current_time (self w)).
Proof.
  intros E Hs. destruct (step_appended _ _ _ _ E Hs) as (-> & w1 & E1).
  cbn zeta. split.
  - unfold phase1_snapshot. rewrite E1. cbn [fst].
    destruct (update_market_spec _ _ _ E1) as (Hsetup & _).
    apply setup_fields in Hsetup.
    destruct Hsetup as (_ & Ht & Htx & _).
    unfold make_snapshot. cbn [total_transaction_volume].
    rewrite Ht, Htx. reflexivity.
  - intros t. rewrite filter_In. unfold same_date.
    rewrite Z.eqb_eq. reflexivity.
Qed.

(** C5. With no scenario and no behavioral model, a step appends exactly
    one snapshot, whatever its outcome; its compliance rate is 0 when there
    is no contract and otherwise the number of compliant contracts divided
    by the number of contracts, and its average hourly rate is 0 when
    there is no freelancer and otherwise the sum of the freelancers' rates
    divided by their number. *)
Theorem bare_step_snapshot w w' r :
  scenarios (self w) = [] ->
  freelancer_behavior_model (self w) = None ->
  client_behavior_model (self w) = None ->
  market_dynamics_model (self w) = None ->
  step w = (w', r) ->
  exists s,
    market_snapshots (self w') = market_snapshots (self w) ++ [s] /\
    compliance_rate s =
      match contracts (self w) with
      | [] => 0%float
      | _ =>
          Py.int_truediv
            (length (filter
               (fun c => match sb988_compliant c with
                         | COMPLIANT => true | _ => false end)
               (Py.values (contracts (self w)))))
            (length (contracts (self w)))
      end /\
    average_hourly_rate s =
      match freelancers (self w) with
      | [] => 0%float
      | _ =>
          let rates :=
            map (fun f => Decimal_float (hourly_rate f))
                (Py.values (freelancers (self w))) in
          PrimFloat.div (np.sum rates) (Py.float_of_nat (length rates))
      end.
Proof.
  intros Hsc Hfm Hcm Hmm E.
  pose proof (step_summary _ _ _ E) as Hsum.
  destruct Hsum as (_ & _ & _ & _ & _ & _ & _ & [Hm | (_ & e & -> & E1)] & _).
  - exists (phase1_snapshot w). split; [exact Hm |].
    unfold phase1_snapshot.
    destruct (_update_market_conditions w) as [w1 r1] eqn:E1.
    destruct (update_market_spec _ _ _ E1) as (_ & _ & _ & Hnone).
    destruct (Hnone Hmm) as (_ & _ & Emap). cbn [fst].
    unfold mappings in Emap. injection Emap as Ef _ Ek.
    unfold make_snapshot. cbn [compliance_rate average_hourly_rate].
    unfold _calculate_compliance_rate, _calculate_average_hourly_rate.
    rewrite Ef, Ek. split.
    + destruct (contracts (self w)); [reflexivity |].
      f_equal. f_equal. apply filter_ext. intros c. unfold is_compliant.
      destruct (sb988_compliant c); reflexivity.
    + destruct (freelancers (self w)); reflexivity.
  - exfalso. destruct (update_market_spec _ _ _ E1) as (_ & _ & _ & Hnone).
    destruct (Hnone Hmm) as (F & _). discriminate.
Qed.


(** ** The main loop *)

Lemma main_loop_unfold fuel it w :
  main_loop (S fuel) it w =
    if loop_guard it (self w) then
      match step w with
      | (w1, inl e) => (w1, inl e)
      | (w1, inr _) =>
          if _check_convergence (self w1) then (w1, inr (it + 1))
          else main_loop fuel (it + 1) w1
      end
    else (w, inr it).
Proof.
  cbn [main_loop]. rewrite bind_get_self. unfold loop_guard.
  destruct (_ && _); [| reflexivity].
  unfold bind. destruct (step w) as [w1 [e | u]]; [reflexivity |].
  unfold get_self, ret. destruct (_check_convergence (self w1)); reflexivity.
Qed.

Lemma main_loop_no_fuel it w :
  max_iterations (config (self w)) - it <= 0 ->
  forall fuel, main_loop fuel it w = (w, inr it).
Proof.
  intros Hle [| fuel]; [reflexivity |].
  rewrite main_loop_unfold. unfold loop_guard.
  replace (it <? max_iterations (config (self w))) with false
    by (symmetry; apply Z.ltb_ge; lia).
  now rewrite andb_false_r.
Qed.

Lemma main_loop_fuel fuel :
  forall fuel' it w,
    (Z.to_nat (max_iterations (config (self w)) - it) <= fuel)%nat ->
    (Z.to_nat (max_iterations (config (self w)) - it) <= fuel')%nat ->
    main_loop fuel it w = main_loop fuel' it w.
Proof.
  induction fuel as [| fuel IH]; intros fuel' it w H1 H2.
  - rewrite !main_loop_no_fuel by lia. reflexivity.
  - destruct fuel' as [| fuel'].
    + rewrite !main_loop_no_fuel by lia. reflexivity.
    + rewrite !main_loop_unfold.
      destruct (loop_guard it (self w)) eqn:G; [| reflexivity].
      destruct (step w) as [w1 [e | u]] eqn:E; [reflexivity |].
      destruct (_check_convergence (self w1)); [reflexivity |].
      apply step_summary in E. destruct E as (Hcfg & _).
      apply IH; rewrite Hcfg; lia.
Qed.

Lemma while_loop_eq it w :
  while_loop it w =
    if loop_guard it (self w) then
      match step w with
      | (w1, inl e) => (w1, inl e)
      | (w1, inr _) =>
          if _check_convergence (self w1) then (w1, inr (it + 1))
          else while_loop (it + 1) w1
      end
    else (w, inr it).
Proof.
  unfold while_loop.
  destruct (loop_guard it (self w)) eqn:G.
  - pose proof G as G'. unfold loop_guard in G'. apply andb_prop in G'.
    destruct G' as [_ G']. apply Z.ltb_lt in G'.
    replace (Z.to_nat (max_iterations (config (self w)) - it))
      with (S (Z.to_nat (max_iterations (config (self w)) - (it + 1))))
      by lia.
    rewrite main_loop_unfold, G.
    destruct (step w) as [w1 [e | u]] eqn:E; [reflexivity |].
    apply step_summary in E. destruct E as (Hcfg & _).
    now rewrite Hcfg.
  - destruct (Z.to_nat (max_iterations (config (self w)) - it));
      [reflexivity |].
    rewrite main_loop_unfold, G. reflexivity.
Qed.

Lemma run_eq w :
  run w = (initialize_population ;; _ <- while_loop 0 ;; _generate_results) w.
Proof.
  unfold run, initialize_population, while_loop, bind, ret, get_self.
  now rewrite Z.sub_0_r.
Qed.

Lemma while_loop_reaches it0 w0 it w :
  loop_reaches it0 w0 it w -> while_loop it0 w0 = while_loop it w.
Proof.
  induction 1 as [| it0 w0 w1 it w G E C R IH]; [reflexivity |].
  rewrite while_loop_eq, G, E, C. exact IH.
Qed.

(** C8. A collaborator that raises makes [step] raise the same
    exception, in the state the failing call left: the market model (the
    mappings as it left them, no snapshot), a behavioral model, a scenario
    ([is_active] or [apply]) or the metrics collector (the snapshot of
    phase 1 appended, the mappings as the calls before and the failing call
    itself left them, so nothing the earlier phases did is undone).  The
    clock of a step that raised has not moved, and the loop of [run] does
    not catch the exception: when the loop of a run from [w0] has come to
    [w] and steps again, [run] ends with the same exception in the same
    state. *)
Theorem failure_aborts_run w :
  let e := self w in
  let t := current_time e in
  (forall m1 x1 ex,
     market_effect e (ext w) = ((m1, x1), Some ex) ->
     exists w', step w = (w', inl ex) /\
       self w' = set_mappings m1 e /\ ext w' = x1) /\
  (forall m1 x1,
     market_effect e (ext w) = ((m1, x1), None) ->
     let s := make_snapshot (set_mappings m1 e) in
     (forall m2 x2 ex,
        agents_effect e (Some s) m1 x1 = ((m2, x2), Some ex) ->
        exists w', step w = (w', inl ex) /\
          self w' = engine_with e s m2 /\ ext w' = x2) /\
     (forall m2 x2,
        agents_effect e (Some s) m1 x1 = ((m2, x2), None) ->
        (forall m4 x4 ex,
           scenario_pass t (scenarios e) (lifecycle t m2) x2
             = ((m4, x4), Some ex) ->
           exists w', step w = (w', inl ex) /\
             self w' = engine_with e s m4 /\ ext w' = x4) /\
        (forall m4 x4 x5 ex,
           scenario_pass t (scenarios e) (lifecycle t m2) x2
             = ((m4, x4), None) ->
           collect_step_metrics m4 (transactions e) t x4 = (x5, Some ex) ->
           exists w', step w = (w', inl ex) /\
             self w' = engine_with e s m4 /\ ext w' = x5))) /\
  (forall w' ex, step w = (w', inl ex) ->
     current_time (self w') = t /\
     forall w0 it, loop_reaches 0 w0 it w -> loop_guard it e = true ->
       run w0 = (w', inl ex)).
Proof.
  cbv zeta.
  assert (Heff : step_effect (self w) (ext w) =
                 ((self (fst (step w)), ext (fst (step w))), snd (step w))).
  { apply step_effects. now destruct (step w). }
  unfold step_effect in Heff. cbv zeta in Heff.
  split; [| split].
  - intros m1 x1 ex Em. rewrite Em in Heff.
    exists (fst (step w)). injection Heff as <- <- Hr.
    split; [| split; reflexivity].
    rewrite Hr. now destruct (step w).
  - intros m1 x1 Em. rewrite Em in Heff. split; [| intros m2 x2 Ea; split].
    + intros m2 x2 ex Ea. rewrite Ea in Heff.
      exists (fst (step w)). injection Heff as <- <- Hr.
      split; [| split; reflexivity].
      rewrite Hr. now destruct (step w).
    + intros m4 x4 ex Ep. rewrite Ea, Ep in Heff.
      exists (fst (step w)). injection Heff as <- <- Hr.
      split; [| split; reflexivity].
      rewrite Hr. now destruct (step w).
    + intros m4 x4 x5 ex Ep Ec. rewrite Ea, Ep, Ec in Heff.
      exists (fst (step w)). injection Heff as <- <- Hr.
      split; [| split; reflexivity].
      rewrite Hr. now destruct (step w).
  - intros w' ex E. split.
    + pose proof (step_summary _ _ _ E) as Hsum.
      destruct Hsum as (_ & _ & _ & _ & _ & _ & Ht & _). exact Ht.
    + intros w0 it R G. rewrite run_eq.
      unfold initialize_population. unfold bind at 1, ret at 1.
      erewrite bind_raise; [reflexivity |].
      rewrite (while_loop_reaches _ _ _ _ R), while_loop_eq, G, E.
      reflexivity.
Qed.

(** The ten steps of the January run, counted from the [j]-th. *)
Lemma january_loop (m : nat) :
  forall (j : nat) w w' n,
    (j + m = 10)%nat ->
    cfg_end_date (config (self w)) = mkdatetime 2024 1 10 ->
    time_step (config (self w)) = days 1 ->
    max_iterations (config (self w)) = 1000 ->
    current_time (self w) = mkdatetime 2024 1 1 + Z.of_nat j * us_per_day ->
    length (market_snapshots (self w)) = j ->
    while_loop (Z.of_nat j) w = (w', inr n) ->
    n = 10 /\ current_time (self w') = mkdatetime 2024 1 11 /\
    length (market_snapshots (self w')) = 10%nat.
Proof.
  induction m as [| m IH]; intros j w w' n Hj Hend Hts Hmax Ht Hlen E;
    rewrite while_loop_eq in E; unfold loop_guard in E;
    rewrite Hend, Hmax, Ht in E.
  - assert (Hj10 : j = 10%nat) by lia. rewrite Hj10 in *. clear Hj10.
    change (mkdatetime 2024 1 1 + Z.of_nat 10 * us_per_day
            <=? mkdatetime 2024 1 10) with false in E.
    cbn [andb] in E. injection E as <- <-.
    split; [reflexivity |]. split; [| exact Hlen].
    rewrite Ht. reflexivity.
  - replace (mkdatetime 2024 1 1 + Z.of_nat j * us_per_day
             <=? mkdatetime 2024 1 10) with true in E
      by (symmetry; apply Z.leb_le;
          change (mkdatetime 2024 1 10)
            with (mkdatetime 2024 1 1 + 9 * us_per_day);
          unfold us_per_day; lia).
    replace (Z.of_nat j <? 1000) with true in E
      by (symmetry; apply Z.ltb_lt; lia).
    cbn [andb] in E.
    destruct (step w) as [w1 [e | []]] eqn:Es; [discriminate |].
    pose proof (step_summary _ _ _ Es) as Hsum.
    destruct Hsum as (Hcfg & _ & _ & _ & _ & _ & Ht1 & Hm1 & _).
    destruct Hm1 as [Hm1 | (_ & e & F & _)]; [| discriminate].
    assert (Hlen1 : length (market_snapshots (self w1)) = S j)
      by (rewrite Hm1, length_app; cbn; lia).
    assert (Ht1' : current_time (self w1) =
                   mkdatetime 2024 1 1 + Z.of_nat (S j) * us_per_day)
      by (rewrite Ht1, Ht, Hts; unfold days; lia).
    destruct (_check_convergence (self w1)) eqn:C.
    + injection E as <- <-.
      unfold _check_convergence in C. rewrite Hlen1 in C.
      destruct (S j <? 10)%nat eqn:L; [discriminate |].
      apply Nat.ltb_ge in L. assert (Hj9 : j = 9%nat) by lia.
      rewrite Hj9 in *. clear Hj9.
      split; [reflexivity |]. split; [| exact Hlen1].
      rewrite Ht1'. reflexivity.
    + replace (Z.of_nat j + 1) with (Z.of_nat (S j)) in E by lia.
      apply (IH (S j) w1 w' n);
        [lia | congruence | congruence | congruence
        | exact Ht1' | exact Hlen1 | exact E].
Qed.

(** ** The contract lifecycle *)

Lemma is_active_contract_iff c :
  is_active_contract c = true <-> status c = ACTIVE.
Proof.
  unfold is_active_contract. destruct (status c); cbn; split;
    intros F; try discriminate F; reflexivity.
Qed.

Lemma process_contract_due now c d :
  status c = ACTIVE -> end_date c = Some d -> d < date_of now ->
  process_contract now c = set_status COMPLETED c.
Proof.
  intros Hs He Hd. unfold process_contract. rewrite He.
  replace (d <? date_of now) with true by (symmetry; now apply Z.ltb_lt).
  apply is_active_contract_iff in Hs. now rewrite Hs.
Qed.

Lemma process_contract_not_due now c :
  ~ (status c = ACTIVE /\ exists d, end_date c = Some d /\ d < date_of now) ->
  process_contract now c = c.
Proof.
  intros Hn. unfold process_contract.
  destruct (end_date c) as [d |] eqn:He; [| reflexivity].
  destruct (d <? date_of now) eqn:Hd; [| reflexivity].
  destruct (is_active_contract c) eqn:Ha; [| reflexivity].
  exfalso. apply Hn. split; [now apply is_active_contract_iff |].
  exists d. split; [reflexivity | now apply Z.ltb_lt].
Qed.

Lemma process_contract_evolves now c : evolves c (process_contract now c).
Proof.
  unfold evolves, process_contract.
  destruct (end_date c) as [d |]; [| now left].
  destruct (d <? date_of now); [| now left].
  destruct (is_active_contract c) eqn:Ha; [| now left].
  right. split; [now apply is_active_contract_iff | reflexivity].
Qed.

Lemma evolves_trans a b c : evolves a b -> evolves b c -> evolves a c.
Proof.
  intros [-> | [Ha ->]] [-> | [Hb ->]].
  - now left.
  - right. now split.
  - right. now split.
  - discriminate Hb.
Qed.

Lemma evolves_completed c c' :
  evolves c c' -> status c = COMPLETED -> status c' = COMPLETED.
Proof. intros [-> | [Ha ->]] Hc; [exact Hc | reflexivity]. Qed.

Lemma contracts_evolve_refl d : contracts_evolve d d.
Proof.
  induction d; constructor; [split; [reflexivity | now left] | assumption].
Qed.

Lemma contracts_evolve_trans a b c :
  contracts_evolve a b -> contracts_evolve b c -> contracts_evolve a c.
Proof.
  intros Hab. revert c. induction Hab as [| x y a b [Hk He] Hab IH];
    intros c Hbc; inversion Hbc as [| y' z b' c' [Hk' He'] Hbc']; subst.
  - constructor.
  - constructor; [| apply IH; assumption].
    split; [congruence | eapply evolves_trans; eassumption].
Qed.

Lemma processed_evolve e : contracts_evolve (contracts e) (processed e).
Proof.
  unfold processed. induction (contracts e) as [| [k c] d IH]; cbn.
  - constructor.
  - constructor; [| exact IH].
    split; [reflexivity | apply process_contract_evolves].
Qed.

(** A step of a bare engine: the snapshot, the lifecycle rule, the
    metrics, the clock. *)
Lemma bare_step_eq w :
  bare (self w) ->
  step w =
    (_collect_step_metrics ;; advance_time)
      (mkWorld
         (set_contracts (processed (self w))
            (set_market_snapshots
               (market_snapshots (self w) ++ [make_snapshot (self w)])
               (self w)))
         (ext w) (calls w)).
Proof.
  destruct w as [[cfg t fs cl ks txs snaps scs fm cm mm] x cs].
  unfold bare. cbn. intros (-> & -> & -> & ->). reflexivity.
Qed.

Lemma bare_step w w' r :
  bare (self w) -> step w = (w', r) ->
  bare (self w') /\ contracts (self w') = processed (self w).
Proof.
  intros Hb E. pose proof (step_summary _ _ _ E) as Hsum.
  destruct Hsum as (_ & _ & H1 & H2 & H3 & H4 & _).
  split.
  - destruct Hb as (B1 & B2 & B3 & B4). repeat split; congruence.
  - rewrite (bare_step_eq _ Hb) in E. apply bind_cases in E.
    destruct E as [(e & E & ->) | ([] & w5 & E5 & E6)].
    + apply collect_step_metrics_spec in E. destruct E as [-> _].
      reflexivity.
    + apply collect_step_metrics_spec in E5. destruct E5 as [E5 _].
      apply advance_time_spec in E6.
      destruct r as [e | u]; [destruct E6 as [-> _] | subst w'];
        cbn [self contracts set_current_time]; rewrite E5; reflexivity.
Qed.

Lemma bare_steps n :
  forall w w' r, bare (self w) -> steps n w = (w', r) ->
    contracts_evolve (contracts (self w)) (contracts (self w')).
Proof.
  induction n as [| n IH]; intros w w' r Hb E.
  - cbn in E. unfold ret in E. injection E as <- _.
    apply contracts_evolve_refl.
  - cbn [steps] in E. apply bind_cases in E.
    destruct E as [(e & E & ->) | ([] & w1 & E1 & E2)].
    + destruct (bare_step _ _ _ Hb E) as [_ ->]. apply processed_evolve.
    + destruct (bare_step _ _ _ Hb E1) as [Hb1 Hk].
      eapply contracts_evolve_trans; [| eapply IH; eassumption].
      rewrite Hk. apply processed_evolve.
Qed.

(** C4. Phase 3 completes every active contract whose end date is strictly
    before the current date and leaves every other contract as it is; with
    no scenario and no behavioral model this is all that steps do to the
    contracts: after any number of steps the mapping has the same keys,
    each contract is either untouched or was active and is now completed,
    and a completed contract is still completed; the same holds from one
    iteration of the loop of [run] to any later one. *)
Theorem contract_lifecycle :
  (forall now c d,
     status c = ACTIVE -> end_date c = Some d -> d < date_of now ->
     process_contract now c = set_status COMPLETED c) /\
  (forall now c,
     ~ (status c = ACTIVE /\
        exists d, end_date c = Some d /\ d < date_of now) ->
     process_contract now c = c) /\
  (forall w,
     _process_contracts w =
       (mkWorld
          (set_contracts
             (map (fun kc =>
                     (fst kc, process_contract (current_time (self w)) (snd kc)))
                  (contracts (self w)))
             (self w))
          (ext w) (calls w),
        inr tt)) /\
  (forall n w w' r,
     bare (self w) -> steps n w = (w', r) ->
     Forall2
       (fun kc kc' =>
          fst kc' = fst kc /\
          (snd kc' = snd kc \/
           status (snd kc) = ACTIVE /\
           snd kc' = set_status COMPLETED (snd kc)) /\
          (status (snd kc) = COMPLETED -> status (snd kc') = COMPLETED))
       (contracts (self w)) (contracts (self w'))) /\
  (forall it w it' w',
     bare (self w) -> loop_reaches it w it' w' ->
     Forall2
       (fun kc kc' =>
          fst kc' = fst kc /\
          (snd kc' = snd kc \/
           status (snd kc) = ACTIVE /\
           snd kc' = set_status COMPLETED (snd kc)) /\
          (status (snd kc) = COMPLETED -> status (snd kc') = COMPLETED))
       (contracts (self w)) (contracts (self w'))).
Proof.
  assert (Himp : forall d d', contracts_evolve d d' ->
            Forall2
              (fun kc kc' =>
                 fst kc' = fst kc /\
                 (snd kc' = snd kc \/
                  status (snd kc) = ACTIVE /\
                  snd kc' = set_status COMPLETED (snd kc)) /\
                 (status (snd kc) = COMPLETED ->
                  status (snd kc') = COMPLETED)) d d').
  { intros d d' Hev. unfold contracts_evolve in Hev.
    eapply Forall2_impl; [| exact Hev]. cbn. intros kc kc' [Hk He].
    split; [exact Hk |]. split; [exact He |].
    apply evolves_completed. exact He. }
  split; [exact process_contract_due |].
  split; [exact process_contract_not_due |].
  split; [exact process_contracts_spec |].
  split.
  - intros n w w' r Hb E. apply Himp. exact (bare_steps n w w' r Hb E).
  - intros it w it' w' Hb R. apply Himp. revert Hb.
    induction R as [| it w w1 it' w' G E C R IH]; intros Hb.
    + apply contracts_evolve_refl.
    + destruct (bare_step _ _ _ Hb E) as [Hb1 Hk].
      eapply contracts_evolve_trans; [| apply IH; exact Hb1].
      rewrite Hk. apply processed_evolve.
Qed.


(** ** The convergence predicate *)

Lemma SFltb_asym x y : SFltb x y = true -> SFltb y x = false.
Proof.
  unfold SFltb.
  destruct x as [sx | sx | | sx mx ex], y as [sy | sy | | sy my ey];
    cbn; try destruct sx; try destruct sy; cbn; try discriminate;
    try reflexivity.
  - rewrite (Z.compare_antisym ey ex).
    destruct (ey ?= ex) eqn:Ee; cbn; try discriminate; try reflexivity.
    change (Pos.compare_cont Eq mx my) with (Pos.compare mx my).
    change (Pos.compare_cont Eq my mx) with (Pos.compare my mx).
    rewrite (Pos.compare_antisym my mx).
    destruct (my ?= mx)%positive; cbn; try discriminate; reflexivity.
  - rewrite (Z.compare_antisym ey ex).
    destruct (ey ?= ex) eqn:Ee; cbn; try discriminate; try reflexivity.
    change (Pos.compare_cont Eq mx my) with (Pos.compare mx my).
    change (Pos.compare_cont Eq my mx) with (Pos.compare my mx).
    rewrite (Pos.compare_antisym my mx).
    destruct (my ?= mx)%positive; cbn; try discriminate; reflexivity.
Qed.

(** [x < y] excludes [y < x] on binary64 values. *)
Lemma float_ltb_asym (x y : float) :
  PrimFloat.ltb x y = true -> PrimFloat.ltb y x = false.
Proof. rewrite !FloatAxioms.ltb_spec. apply SFltb_asym. Qed.

(** [r - r] is [0] for a binary64 value between 0 and 1. *)
Lemma float_sub_diag (r : float) :
  PrimFloat.leb 0 r = true -> PrimFloat.leb r 1 = true ->
  PrimFloat.sub r r = 0%float.
Proof.
  intros Hlo Hhi. rewrite FloatAxioms.leb_spec in Hlo, Hhi.
  rewrite <- (SF2Prim_Prim2SF (PrimFloat.sub r r)), FloatAxioms.sub_spec.
  change (Prim2SF 0) with (S754_zero false) in Hlo.
  change (Prim2SF 1) with (S754_finite false 4503599627370496 (-52)) in Hhi.
  destruct (Prim2SF r) as [s | s | | s m e].
  - destruct s; reflexivity.
  - destruct s; [discriminate Hlo | discriminate Hhi].
  - discriminate Hlo.
  - destruct s; [discriminate Hlo |].
    unfold SF64sub, SFsub. cbn [cond_Zopp]. rewrite Z.sub_diag. reflexivity.
Qed.

(** The variance of ten copies of a rate whose mean comes out exact. *)
Lemma var_of_identical (r : float) :
  PrimFloat.leb 0 r = true -> PrimFloat.leb r 1 = true ->
  np.mean (repeat r 10) = r ->
  np.var (repeat r 10) = 0%float.
Proof.
  intros Hlo Hhi Hmean. unfold np.var. rewrite Hmean.
  cbn [repeat map]. rewrite (float_sub_diag r Hlo Hhi).
  vm_compute. reflexivity.
Qed.

Lemma last_n_suffix {A} (n : nat) (l : list A) :
  (n <= length l)%nat ->
  length (Py.last_n n l) = n /\
  l = firstn (length l - n) l ++ Py.last_n n l.
Proof.
  intros Hle. unfold Py.last_n. split.
  - rewrite length_skipn. lia.
  - symmetry. apply firstn_skipn.
Qed.

(** C3, as the code has it.  The predicate is false with fewer than 10
    snapshots; otherwise it is true exactly when the binary64 variance
    ([np.var]) of the compliance rates of the last 10 snapshots is strictly
    below the threshold.  When the ten rates are one rate between 0 and 1
    whose binary64 mean over ten copies is the rate itself (as for 0.0, 0.5
    and 1.0), the variance is exactly 0 and the predicate is true for every
    threshold above 0; when they alternate between 0.0 and 1.0 the variance
    is exactly 0.25 and the predicate is false for every threshold below
    0.25. *)
Theorem convergence_predicate :
  (forall e, (length (market_snapshots e) < 10)%nat ->
     _check_convergence e = false) /\
  (forall e, (10 <= length (market_snapshots e))%nat ->
     length (Py.last_n 10 (market_snapshots e)) = 10%nat /\
     market_snapshots e =
       firstn (length (market_snapshots e) - 10) (market_snapshots e)
       ++ Py.last_n 10 (market_snapshots e) /\
     _check_convergence e =
       PrimFloat.ltb (np.var (recent_rates e))
                     (convergence_threshold (config e))) /\
  (forall e rate, (10 <= length (market_snapshots e))%nat ->
     recent_rates e = repeat rate 10 ->
     PrimFloat.leb 0 rate = true -> PrimFloat.leb rate 1 = true ->
     np.mean (repeat rate 10) = rate ->
     PrimFloat.ltb 0 (convergence_threshold (config e)) = true ->
     np.var (recent_rates e) = 0%float /\ _check_convergence e = true) /\
  (np.mean (repeat 0%float 10) = 0%float /\
   np.mean (repeat 0.5%float 10) = 0.5%float /\
   np.mean (repeat 1%float 10) = 1%float) /\
  (forall e, (10 <= length (market_snapshots e))%nat ->
     recent_rates e = alternating_from_0 \/
     recent_rates e = alternating_from_1 ->
     PrimFloat.ltb (convergence_threshold (config e)) 0.25 = true ->
     np.var (recent_rates e) = 0.25%float /\ _check_convergence e = false).
Proof.
  assert (Hge : forall e, (10 <= length (market_snapshots e))%nat ->
            _check_convergence e =
              PrimFloat.ltb (np.var (recent_rates e))
                            (convergence_threshold (config e))).
  { intros e Hle. unfold _check_convergence, recent_rates.
    replace (length (market_snapshots e) <? 10)%nat with false
      by (symmetry; apply Nat.ltb_ge; exact Hle).
    reflexivity. }
  split; [| split; [| split; [| split]]].
  - intros e Hlt. unfold _check_convergence.
    replace (length (market_snapshots e) <? 10)%nat with true
      by (symmetry; apply Nat.ltb_lt; exact Hlt).
    reflexivity.
  - intros e Hle. destruct (last_n_suffix 10 (market_snapshots e) Hle).
    repeat split; auto.
  - intros e rate Hle Hr Hlo Hhi Hmean Hthr. rewrite (Hge e Hle), Hr.
    rewrite (var_of_identical rate Hlo Hhi Hmean).
    split; [reflexivity | exact Hthr].
  - repeat split; vm_compute; reflexivity.
  - intros e Hle Hr Hthr. rewrite (Hge e Hle).
    assert (Hv : np.var (recent_rates e) = 0.25%float)
      by (destruct Hr as [-> | ->]; vm_compute; reflexivity).
    rewrite Hv. split; [reflexivity | apply float_ltb_asym; exact Hthr].
Qed.


(** ** Construction *)

(** A truthy seed fixes the generator: engines built from one
    configuration in two processes are the same engine, as soon as seeding
    leaves the two processes in the same state. *)
Lemma seeded_init cfg seed x1 x2 :
  random_seed cfg = Some seed -> seed <> 0 ->
  np_random_seed seed (MetricsCollector_init x1) =
    np_random_seed seed (MetricsCollector_init x2) ->
  __init__ cfg x1 = __init__ cfg x2.
Proof.
  intros Hs Hn Hx. unfold __init__. rewrite Hs.
  replace (seed =? 0) with false by (symmetry; now apply Z.eqb_neq).
  now rewrite Hx.
Qed.

(** The seed 0 is falsy, and the generator is left as it was. *)
Lemma unseeded_init cfg x :
  random_seed cfg = Some 0 \/ random_seed cfg = None ->
  ext (__init__ cfg x) = MetricsCollector_init x.
Proof. unfold __init__. intros [-> | ->]; reflexivity. Qed.

(** [__post_init__] keeps an id that was supplied and draws one
    otherwise. *)
Lemma post_init_id_supplied uuid4 id :
  id <> EmptyString -> post_init_id uuid4 id = id.
Proof.
  unfold post_init_id. destruct id; [congruence | reflexivity].
Qed.

Lemma post_init_id_absent uuid4 : post_init_id uuid4 EmptyString = uuid4.
Proof. reflexivity. Qed.

(** An entity constructed with an id is the entity as given. *)
Lemma post_init_supplied uuid4 :
  (forall f, f_id f <> EmptyString -> Freelancer_post_init uuid4 f = f) /\
  (forall c, c_id c <> EmptyString -> Client_post_init uuid4 c = c) /\
  (forall k, k_id k <> EmptyString -> Contract_post_init uuid4 k = k) /\
  (forall t, t_id t <> EmptyString -> Transaction_post_init uuid4 t = t).
Proof.
  repeat split; intros x Hid;
    unfold Freelancer_post_init, Client_post_init, Contract_post_init,
      Transaction_post_init;
    rewrite (post_init_id_supplied _ _ Hid); destruct x; reflexivity.
Qed.


(** ** Steps that return *)

Lemma never_raises_setup e e' :
  setup e' = setup e -> never_raises e -> never_raises e'.
Proof.
  intros Hs (N1 & N2 & N3 & N4 & N5 & N6). apply setup_fields in Hs.
  destruct Hs as (_ & _ & _ & Hsc & Hfm & Hcm & Hmm).
  unfold never_raises. rewrite Hsc, Hfm, Hcm, Hmm. repeat split; assumption.
Qed.

Lemma update_market_returns w :
  never_raises (self w) ->
  exists w1, _update_market_conditions w = (w1, inr tt).
Proof.
  intros (_ & _ & N3 & _).
  unfold _update_market_conditions, bind, get_self, log, invoke, modify, ret.
  destruct (market_dynamics_model (self w)) as [model |] eqn:Em;
    cbn [self ext calls].
  - specialize (N3 model eq_refl (mappings (self w)) (current_time (self w))
                  (ext w)).
    destruct (model _ _ _) as [[m x] r]. cbn in N3. subst r.
    eexists. reflexivity.
  - eexists. reflexivity.
Qed.

Lemma for_range_returns (J : World -> Prop) (body : nat -> M unit) :
  (forall i w, J w -> exists w', body i w = (w', inr tt) /\ J w') ->
  forall n i w, J w -> exists w', for_range n i body w = (w', inr tt) /\ J w'.
Proof.
  intros Hbody. induction n as [| n IH]; intros i w HJ.
  - exists w. split; [reflexivity | exact HJ].
  - destruct (Hbody i w HJ) as (w1 & E1 & HJ1).
    destruct (IH (S i) w1 HJ1) as (w2 & E2 & HJ2).
    exists w2. split; [| exact HJ2].
    cbn [for_range]. rewrite (bind_step _ _ _ _ _ E1). exact E2.
Qed.

Lemma freelancer_behavior_returns model i w :
  (forall f ms cs t x, snd (model f ms cs t x) = None) ->
  exists w', freelancer_behavior model i w = (w', inr tt) /\
             setup (self w') = setup (self w).
Proof.
  intros N. unfold freelancer_behavior, bind, get_self, log, invoke, ret.
  destruct (nth_error (freelancers (self w)) i) as [[k f] |];
    cbn [self ext calls].
  - specialize (N f (latest_snapshot (self w)) (Py.values (clients (self w)))
                  (current_time (self w)) (ext w)).
    destruct (model _ _ _ _ _) as [[[f' cs'] x'] r]. cbn in N. subst r.
    eexists. split; reflexivity.
  - eexists. split; reflexivity.
Qed.

Lemma client_behavior_returns model i w :
  (forall c ms fs t x, snd (model c ms fs t x) = None) ->
  exists w', client_behavior model i w = (w', inr tt) /\
             setup (self w') = setup (self w).
Proof.
  intros N. unfold client_behavior, bind, get_self, log, invoke, ret.
  destruct (nth_error (clients (self w)) i) as [[k c] |];
    cbn [self ext calls].
  - specialize (N c (latest_snapshot (self w))
                  (Py.values (freelancers (self w)))
                  (current_time (self w)) (ext w)).
    destruct (model _ _ _ _ _) as [[[c' fs'] x'] r]. cbn in N. subst r.
    eexists. split; reflexivity.
  - eexists. split; reflexivity.
Qed.

Lemma execute_agent_behaviors_returns w :
  never_raises (self w) ->
  exists w2, _execute_agent_behaviors w = (w2, inr tt).
Proof.
  intros (_ & _ & _ & N4 & N5 & _).
  unfold _execute_agent_behaviors. rewrite bind_get_self.
  assert (E1 : exists w1,
            match freelancer_behavior_model (self w) with
            | Some model =>
                for_range (length (freelancers (self w))) 0
                  (freelancer_behavior model)
            | None => ret tt
            end w = (w1, inr tt) /\ setup (self w1) = setup (self w)).
  { destruct (freelancer_behavior_model (self w)) as [model |].
    - apply (for_range_returns
               (fun w1 => setup (self w1) = setup (self w))); [| reflexivity].
      intros i w1 HJ.
      destruct (freelancer_behavior_returns model i w1 (N4 model eq_refl))
        as (w' & E & Hs).
      exists w'. split; [exact E | congruence].
    - exists w. split; reflexivity. }
  destruct E1 as (w1 & E1 & Hs1).
  rewrite (bind_step _ _ _ _ _ E1), bind_get_self.
  apply setup_fields in Hs1. destruct Hs1 as (_ & _ & _ & _ & _ & Hcm & _).
  rewrite Hcm.
  destruct (client_behavior_model (self w)) as [model |].
  - destruct (for_range_returns (fun _ => True) (client_behavior model))
      with (n := length (clients (self w1))) (i := 0%nat) (w := w1)
      as (w2 & E2 & _); [| exact I | exists w2; exact E2].
    intros i w' _.
    destruct (client_behavior_returns model i w' (N5 model eq_refl))
      as (w'' & E & _).
    exists w''. split; [exact E | exact I].
  - exists w1. reflexivity.
Qed.

Lemma apply_scenarios_returns l :
  Forall (fun s =>
            (forall t x, exists b, snd (is_active s t x) = inr b) /\
            (forall m t x, snd (apply s m t x) = None) /\
            (forall x, exists r, snd (get_results s x) = inr r)) l ->
  forall i w, exists w', apply_scenarios i l w = (w', inr tt).
Proof.
  induction 1 as [| s l (Na & Np & _) _ IH]; intros i w.
  - exists w. reflexivity.
  - cbn [apply_scenarios]. rewrite bind_get_self.
    unfold bind at 1. unfold call_is_active.
    destruct (Na (current_time (self w)) (ext w)) as (b & Eb).
    destruct (is_active s _ _) as [x1 r1]. cbn in Eb. subst r1.
    destruct b.
    + unfold bind at 1. rewrite bind_get_self. cbn [self ext calls].
      unfold bind at 1, log at 1. unfold invoke. cbn [self ext calls].
      specialize (Np (mappings (self w)) (current_time (self w)) x1).
      destruct (apply s _ _ _) as [[m x2] r2]. cbn in Np. subst r2.
      apply IH.
    + unfold bind at 1, ret at 1. apply IH.
Qed.

(** When no collaborator raises and the clock stays in range, a step
    returns. *)
Lemma quiet_step_returns w :
  never_raises (self w) ->
  in_range (current_time (self w) + time_step (config (self w))) = true ->
  exists w', step w = (w', inr tt).
Proof.
  intros N Hr.
  destruct (update_market_returns w N) as (w1 & E1).
  destruct (update_market_spec _ _ _ E1) as (Hs1 & _).
  pose proof (never_raises_setup _ _ Hs1 N) as N1.
  destruct (execute_agent_behaviors_returns w1 N1) as (w2 & E2).
  destruct (execute_agent_behaviors_spec _ _ _ E2) as ((Hs2 & _) & _).
  pose proof (never_raises_setup _ _ Hs2 N1) as N2.
  pose proof (process_contracts_spec w2) as E3.
  set (w3 := mkWorld (set_contracts (processed (self w2)) (self w2))
                     (ext w2) (calls w2)) in E3.
  assert (Hs3 : setup (self w3) = setup (self w2)) by reflexivity.
  pose proof (never_raises_setup _ _ Hs3 N2) as N3.
  destruct N3 as (N31 & _ & _ & _ & _ & N36).
  destruct (apply_scenarios_returns _ N36 0%nat w3) as (w4 & E4).
  assert (E4' : _apply_regulatory_scenarios w3 = (w4, inr tt))
    by (unfold _apply_regulatory_scenarios; rewrite bind_get_self; exact E4).
  destruct (apply_regulatory_scenarios_spec _ _ _ E4') as (Hs4 & _).
  assert (E5 : exists w5, _collect_step_metrics w4 = (w5, inr tt)).
  { unfold _collect_step_metrics, bind, get_self, log. cbn [self ext calls].
    specialize (N31 (mappings (self w4)) (transactions (self w4))
                  (current_time (self w4)) (ext w4)).
    destruct (collect_step_metrics _ _ _ _) as [x r]. cbn in N31. subst r.
    eexists. reflexivity. }
  destruct E5 as (w5 & E5).
  destruct (collect_step_metrics_spec _ _ _ E5) as (Hs5 & _).
  assert (Hs : setup (self w5) = setup (self w)) by congruence.
  apply setup_fields in Hs. destruct Hs as (Hc & Ht & _).
  eexists. apply step_of_outcome.
  eapply completed; try eassumption.
  unfold advance_time, bind, get_self, modify. rewrite Hc, Ht, Hr.
  reflexivity.
Qed.

Lemma generate_results_returns w :
  never_raises (self w) -> exists w' res, _generate_results w = (w', inr res).
Proof.
  intros (_ & N2 & _ & _ & _ & N6).
  unfold _generate_results. rewrite bind_get_self.
  unfold bind at 1. unfold call_fn at 1.
  destruct (N2 (ext w)) as (sm & Esm).
  destruct (get_summary (ext w)) as [x1 r1]. cbn in Esm. subst r1.
  assert (Hres : forall l,
            Forall (fun s =>
              (forall t x, exists b, snd (is_active s t x) = inr b) /\
              (forall m t x, snd (apply s m t x) = None) /\
              (forall x, exists r, snd (get_results s x) = inr r)) l ->
            forall u, exists u' rs, collect_results l u = (u', inr rs)).
  { induction 1 as [| s l (_ & _ & Ng) _ IH]; intros u.
    - exists u, []. reflexivity.
    - cbn [collect_results]. unfold bind at 1. unfold call_fn.
      destruct (Ng (ext u)) as (r & Er).
      destruct (get_results s (ext u)) as [x r0]. cbn in Er. subst r0.
      destruct (IH (mkWorld (self u) x (calls u))) as (u' & rs & E).
      unfold bind at 1. rewrite E. eexists. eexists. reflexivity. }
  cbn [self] in *.
  destruct (Hres _ N6 (mkWorld (self w) x1 (calls w))) as (u' & rs & E).
  unfold bind at 1. rewrite E. eexists. eexists. reflexivity.
Qed.

(** The January loop returns when no collaborator raises. *)
Lemma january_loop_returns (m : nat) :
  forall (j : nat) w,
    (j + m = 10)%nat ->
    never_raises (self w) ->
    cfg_end_date (config (self w)) = mkdatetime 2024 1 10 ->
    time_step (config (self w)) = days 1 ->
    max_iterations (config (self w)) = 1000 ->
    current_time (self w) = mkdatetime 2024 1 1 + Z.of_nat j * us_per_day ->
    exists w' n, while_loop (Z.of_nat j) w = (w', inr n) /\
                 never_raises (self w').
Proof.
  induction m as [| m IH]; intros j w Hj N Hend Hts Hmax Ht;
    rewrite while_loop_eq; unfold loop_guard; rewrite Hend, Hmax, Ht.
  - assert (Hj10 : j = 10%nat) by lia. rewrite Hj10.
    change (mkdatetime 2024 1 1 + Z.of_nat 10 * us_per_day
            <=? mkdatetime 2024 1 10) with false.
    cbn [andb]. exists w, 10. split; [reflexivity | exact N].
  - replace (mkdatetime 2024 1 1 + Z.of_nat j * us_per_day
             <=? mkdatetime 2024 1 10) with true
      by (symmetry; apply Z.leb_le;
          change (mkdatetime 2024 1 10)
            with (mkdatetime 2024 1 1 + 9 * us_per_day);
          unfold us_per_day; lia).
    replace (Z.of_nat j <? 1000) with true
      by (symmetry; apply Z.ltb_lt; lia).
    cbn [andb].
    destruct (quiet_step_returns w N) as (w1 & Es).
    { rewrite Ht, Hts. unfold in_range, days.
      change (mkdatetime 2024 1 1) with (738885 * us_per_day).
      unfold max_ordinal, us_per_day.
      apply andb_true_intro. split; [apply Z.leb_le | apply Z.ltb_lt]; lia. }
    rewrite Es.
    pose proof (step_summary _ _ _ Es) as Hsum.
    destruct Hsum as (Hcfg & Htx & Hsc & Hfm & Hcm & Hmm & Ht1 & _).
    assert (N1 : never_raises (self w1)).
    { destruct N as (N1 & N2 & N3 & N4 & N5 & N6). unfold never_raises.
      rewrite Hsc, Hfm, Hcm, Hmm. repeat split; assumption. }
    destruct (_check_convergence (self w1)).
    + exists w1, (Z.of_nat j + 1). split; [reflexivity | exact N1].
    + replace (Z.of_nat j + 1) with (Z.of_nat (S j)) by lia.
      apply (IH (S j) w1); try congruence; try lia.
      rewrite Ht1, Ht, Hts. unfold days. lia.
Qed.


Lemma january_run_returns w :
  cfg_end_date (config (self w)) = mkdatetime 2024 1 10 ->
  time_step (config (self w)) = days 1 ->
  max_iterations (config (self w)) = 1000 ->
  current_time (self w) = mkdatetime 2024 1 1 ->
  never_raises (self w) ->
  exists w' res, run w = (w', inr res).
Proof.
  intros Hend Hts Hmax Ht N. rewrite run_eq.
  unfold initialize_population. unfold bind at 1, ret at 1.
  destruct (january_loop_returns 10 0 w eq_refl N Hend Hts Hmax)
    as (w1 & n & E1 & N1); [rewrite Ht; reflexivity |].
  rewrite (bind_step _ _ _ _ _ E1).
  apply generate_results_returns. exact N1.
Qed.

(** C2. [run] initializes the population once and then runs the loop: while
    the current time is at most the end time and the counter is below the
    iteration cap it steps, adds one to the counter, and stops if the
    convergence predicate holds after the step; a step that raises ends the
    loop with its exception.  With start 2024-01-01, end 2024-01-10, a time
    step of one day and a cap of 1000 iterations, a run that returns has
    made exactly 10 steps and ends with the clock at 2024-01-11, whatever
    the convergence threshold; and it does return when no collaborator
    raises. *)
Theorem run_loop_and_january :
  (forall w,
     run w =
       (initialize_population ;; _ <- while_loop 0 ;; _generate_results) w) /\
  (forall w, initialize_population w = (w, inr tt)) /\
  (forall it w,
     while_loop it w =
       if (current_time (self w) <=? cfg_end_date (config (self w)))
          && (it <? max_iterations (config (self w)))
       then
         match step w with
         | (w1, inl e) => (w1, inl e)
         | (w1, inr _) =>
             if _check_convergence (self w1) then (w1, inr (it + 1))
             else while_loop (it + 1) w1
         end
       else (w, inr it)) /\
  (forall w w' res,
     cfg_end_date (config (self w)) = mkdatetime 2024 1 10 ->
     time_step (config (self w)) = days 1 ->
     max_iterations (config (self w)) = 1000 ->
     current_time (self w) = mkdatetime 2024 1 1 ->
     market_snapshots (self w) = [] ->
     run w = (w', inr res) ->
     (exists w1, while_loop 0 w = (w1, inr 10)) /\
     r_total_steps res = 10%nat /\
     length (market_snapshots (self w')) = 10%nat /\
     r_end_time res = mkdatetime 2024 1 11 /\
     current_time (self w') = mkdatetime 2024 1 11) /\
  (forall w,
     cfg_end_date (config (self w)) = mkdatetime 2024 1 10 ->
     time_step (config (self w)) = days 1 ->
     max_iterations (config (self w)) = 1000 ->
     current_time (self w) = mkdatetime 2024 1 1 ->
     never_raises (self w) ->
     exists w' res, run w = (w', inr res)).
Proof.
  split; [exact run_eq |]. split; [reflexivity |].
  split; [exact while_loop_eq |].
  split; [| exact january_run_returns].
  intros w w' res Hend Hts Hmax Ht Hm E.
  rewrite run_eq in E. unfold initialize_population in E.
  unfold bind at 1, ret at 1 in E.
  apply bind_ok in E. destruct E as (n & w1 & E1 & E2).
  destruct (january_loop 10 0 w w1 n) as (-> & Ht1 & Hl1);
    try assumption; try reflexivity.
  { now rewrite Hm. }
  unfold _generate_results in E2. rewrite bind_get_self in E2.
  apply bind_ok in E2. destruct E2 as (metrics & w2 & E2 & E3).
  apply bind_ok in E3. destruct E3 as (results & w3 & E3 & E4).
  unfold ret in E4. injection E4 as <- <-.
  cbn [r_total_steps r_end_time].
  assert (Hself : forall A (f : X -> X * (exn + A)) u u' a,
            call_fn f u = (u', a) -> self u' = self u).
  { intros A f u u' a. unfold call_fn. destruct (f (ext u)).
    intros F. injection F as <- <-. reflexivity. }
  assert (Hself3 : forall l u u' a,
            collect_results l u = (u', inr a) -> self u' = self u).
  { induction l as [| s l IHl]; intros u u' a F.
    - cbn in F. unfold ret in F. injection F as <- _. reflexivity.
    - cbn [collect_results] in F.
      apply bind_ok in F. destruct F as (r0 & u1 & F1 & F2).
      apply bind_ok in F2. destruct F2 as (rs & u2 & F2 & F3).
      unfold ret in F3. injection F3 as <- _.
      rewrite (IHl _ _ _ F2). eapply Hself. exact F1. }
  rewrite (Hself3 _ _ _ _ E3), (Hself _ _ _ _ _ E2).
  repeat split; try assumption. exists w1. exact E1.
Qed.

(** C1. A call of [step] runs the six phases in their order, each from
    what the one before it left, and skips none.  Whatever its outcome, its
    effect on the attributes and on the world is [step_effect]: the six
    phases up to the first call that raises.  When it returns, then in this
    order: the market model (if injected) was called on the mappings and
    [s] was appended, the snapshot of what it left; the freelancer model
    was called on each freelancer and the client model on each client (if
    injected), each call with [Some s]; the contracts went through the
    lifecycle rule; the registered scenarios were asked in registration
    order and applied when active; the metrics collector was called on what
    they left; and the clock moved by the time step.  It does return when
    no collaborator raises and the clock stays in range. *)
Theorem step_six_phases w w' r :
  step w = (w', r) ->
  let e := self w in
  let t := current_time e in
  step_outcome w w' r /\
  step_effect e (ext w) = ((self w', ext w'), r) /\
  (never_raises e -> in_range (t + time_step (config e)) = true ->
   r = inr tt) /\
  (r = inr tt ->
   exists m1 x1 m2 x2 m4 x4,
     let s := make_snapshot (set_mappings m1 e) in
     market_effect e (ext w) = ((m1, x1), None) /\
     agents_effect e (Some s) m1 x1 = ((m2, x2), None) /\
     scenario_pass t (scenarios e) (lifecycle t m2) x2 = ((m4, x4), None) /\
     collect_step_metrics m4 (transactions e) t x4 = (ext w', None) /\
     in_range (t + time_step (config e)) = true /\
     self w' =
       set_current_time (t + time_step (config e)) (engine_with e s m4)).
Proof.
  intros E. cbv zeta. pose proof (step_effects _ _ _ E) as Heff.
  split; [apply step_cases; exact E |]. split; [exact Heff |]. split.
  - intros N Hr. destruct (quiet_step_returns w N Hr) as (w'' & E').
    rewrite E in E'. now injection E'.
  - intros ->. unfold step_effect in Heff. cbv zeta in Heff.
    destruct (market_effect (self w) (ext w)) as [[m1 x1] [ex |]];
      [discriminate Heff |].
    destruct (agents_effect _ _ _ _) as [[m2 x2] [ex |]] eqn:Ea;
      [discriminate Heff |].
    destruct (scenario_pass _ _ _ _) as [[m4 x4] [ex |]] eqn:Ep;
      [discriminate Heff |].
    destruct (collect_step_metrics _ _ _ _) as [x5 [ex |]] eqn:Ec;
      [discriminate Heff |].
    destruct (in_range _) eqn:Er; [| discriminate Heff].
    injection Heff as <- <-.
    exists m1, x1, m2, x2, m4, x4. repeat split; assumption.
Qed.


(** ** The whole run *)

Lemma phase1_snapshot_time w w1 :
  _update_market_conditions w = (w1, inr tt) ->
  timestamp (phase1_snapshot w) = current_time (self w).
Proof.
  intros E. unfold phase1_snapshot. rewrite E. cbn [fst].
  destruct (update_market_spec _ _ _ E) as (Hs & _).
  apply setup_fields in Hs. destruct Hs as (_ & Ht & _). exact Ht.
Qed.

Lemma step_times_succ t d n :
  step_times t d (S n) = t :: step_times (t + d) d n.
Proof.
  unfold step_times. cbn [seq map]. f_equal; [cbn; lia |].
  rewrite <- seq_shift, map_map. apply map_ext. intros i.
  rewrite Nat2Z.inj_succ. ring.
Qed.

(** What the loop of [run] has done when it is left: the attributes no
    phase assigns are as they were, the snapshot log has grown at its end,
    and, when the loop returns, one snapshot per step was appended, the
    clock moved one time step per step, and the loop ended on its condition
    or on convergence. *)
Lemma while_loop_inv (k : nat) :
  forall it w w' r,
    Z.to_nat (max_iterations (config (self w)) - it) = k ->
    while_loop it w = (w', r) ->
    config (self w') = config (self w) /\
    transactions (self w') = transactions (self w) /\
    scenarios (self w') = scenarios (self w) /\
    freelancer_behavior_model (self w') = freelancer_behavior_model (self w) /\
    client_behavior_model (self w') = client_behavior_model (self w) /\
    market_dynamics_model (self w') = market_dynamics_model (self w) /\
    exists (n : nat) new,
      market_snapshots (self w') = market_snapshots (self w) ++ new /\
      match r with
      | inr iteration =>
          iteration = it + Z.of_nat n /\
          length new = n /\
          current_time (self w') =
            current_time (self w) + Z.of_nat n * time_step (config (self w)) /\
          map timestamp new =
            step_times (current_time (self w)) (time_step (config (self w))) n /\
          (n = O -> w' = w /\ loop_guard it (self w) = false) /\
          ((0 < n)%nat -> iteration <= max_iterations (config (self w))) /\
          (loop_guard iteration (self w') = false \/
           (0 < n)%nat /\ _check_convergence (self w') = true)
      | inl _ =>
          current_time (self w') =
            current_time (self w) + Z.of_nat n * time_step (config (self w)) /\
          (length new = n \/ length new = S n)
      end.
Proof.
  induction k as [| k IH]; intros it w w' r Hk E; rewrite while_loop_eq in E.
  - assert (G : loop_guard it (self w) = false).
    { unfold loop_guard.
      replace (it <? max_iterations (config (self w))) with false
        by (symmetry; apply Z.ltb_ge; lia).
      apply andb_false_r. }
    rewrite G in E. injection E as <- <-.
    repeat (split; [reflexivity |]).
    exists O, []. rewrite app_nil_r. split; [reflexivity |].
    split; [cbn; lia |]. split; [reflexivity |]. split; [cbn; lia |].
    split; [reflexivity |]. split; [intros _; split; [reflexivity | exact G] |].
    split; [intros F; lia |].
    left. replace (it + Z.of_nat 0) with it by (cbn; lia). exact G.
  - destruct (loop_guard it (self w)) eqn:G.
    + pose proof G as G'. unfold loop_guard in G'.
      apply andb_prop in G'. destruct G' as [_ Glt]. apply Z.ltb_lt in Glt.
      destruct (step w) as [w1 [e | []]] eqn:Es.
      * injection E as <- <-.
        pose proof (step_summary _ _ _ Es) as Hsum.
        destruct Hsum as (H1 & H2 & H3 & H4 & H5 & H6 & Ht & Hm & _).
        repeat (split; [assumption |]).
        exists O.
        destruct Hm as [Hm | [Hm _]].
        -- exists [phase1_snapshot w]. split; [exact Hm |].
           split; [rewrite Ht; cbn; lia | right; reflexivity].
        -- exists []. rewrite app_nil_r. split; [exact Hm |].
           split; [rewrite Ht; cbn; lia | left; reflexivity].
      * pose proof (step_summary _ _ _ Es) as Hsum.
        destruct Hsum as (H1 & H2 & H3 & H4 & H5 & H6 & Ht & Hm & _).
        destruct Hm as [Hm | (_ & e & F & _)]; [| discriminate F].
        assert (Htime : timestamp (phase1_snapshot w) = current_time (self w)).
        { apply step_late in Es.
          destruct Es as [(e & F & _) | (w0 & _ & E1 & _)];
            [discriminate F |].
          eapply phase1_snapshot_time. exact E1. }
        destruct (_check_convergence (self w1)) eqn:C.
        -- injection E as <- <-.
           repeat (split; [assumption |]).
           exists 1%nat, [phase1_snapshot w]. split; [exact Hm |].
           split; [cbn; lia |]. split; [reflexivity |].
           split; [rewrite Ht; change (Z.of_nat 1) with 1; lia |].
           split; [cbn [map]; rewrite Htime; unfold step_times; cbn;
                   f_equal; lia |].
           split; [intros F; discriminate F |].
           split; [intros _; lia |].
           right. split; [lia | exact C].
        -- apply IH in E; [| rewrite H1; lia].
           destruct E as (K1 & K2 & K3 & K4 & K5 & K6 & n & new & Km & Kr).
           split; [congruence |]. split; [congruence |].
           split; [congruence |]. split; [congruence |].
           split; [congruence |]. split; [congruence |].
           destruct r as [e | iteration].
           ++ destruct Kr as (Kt & Kl).
              exists (S n), (phase1_snapshot w :: new).
              split; [rewrite Km, Hm, <- app_assoc; reflexivity |].
              split.
              ** rewrite Kt, Ht, H1, Nat2Z.inj_succ. lia.
              ** cbn [length]. destruct Kl as [-> | ->]; [left | right];
                   reflexivity.
           ++ destruct Kr as (Ki & Kl & Kt & Kts & _ & Kmax & Kexit).
              exists (S n), (phase1_snapshot w :: new).
              split; [rewrite Km, Hm, <- app_assoc; reflexivity |].
              split; [rewrite Ki, Nat2Z.inj_succ; lia |].
              split; [cbn [length]; now rewrite Kl |].
              split; [rewrite Kt, Ht, H1, Nat2Z.inj_succ; lia |].
              split.
              { cbn [map]. rewrite step_times_succ, Htime, Kts, Ht, H1.
                reflexivity. }
              split; [intros F; discriminate F |].
              split.
              { intros _. destruct n as [| n'].
                - rewrite Ki. cbn. lia.
                - rewrite <- H1. apply Kmax. lia. }
              destruct Kexit as [Kg | [_ Kc]]; [left; exact Kg |].
              right. split; [lia | exact Kc].
    + injection E as <- <-.
      repeat (split; [reflexivity |]).
      exists O, []. rewrite app_nil_r. split; [reflexivity |].
      split; [cbn; lia |]. split; [reflexivity |]. split; [cbn; lia |].
      split; [reflexivity |].
      split; [intros _; split; reflexivity |].
      split; [intros F; lia |].
      left. replace (it + Z.of_nat 0) with it by (cbn; lia). exact G.
Qed.

Lemma collect_results_spec l :
  forall u u' r,
    collect_results l u = (u', r) ->
    self u' = self u /\ calls u' = calls u /\
    forall rs, r = inr rs -> length rs = length l.
Proof.
  induction l as [| s l IH]; intros u u' r E.
  - cbn in E. unfold ret in E. injection E as <- <-.
    repeat split. intros rs F. injection F as <-. reflexivity.
  - cbn [collect_results] in E. apply bind_cases in E.
    assert (Hfn : forall A (f : X -> X * (exn + A)) v v' a,
              call_fn f v = (v', a) -> self v' = self v /\ calls v' = calls v).
    { intros A f v v' a. unfold call_fn. destruct (f (ext v)).
      intros F. injection F as <- <-. split; reflexivity. }
    destruct E as [(e & E & ->) | (r0 & u1 & E1 & E2)].
    + destruct (Hfn _ _ _ _ _ E) as [Hs Hc].
      split; [exact Hs |]. split; [exact Hc |]. intros rs F. discriminate F.
    + destruct (Hfn _ _ _ _ _ E1) as [Hs1 Hc1].
      apply bind_cases in E2.
      destruct E2 as [(e & E2 & ->) | (rs0 & u2 & E2 & E3)].
      * destruct (IH _ _ _ E2) as (Hs & Hc & _).
        split; [congruence |]. split; [congruence |].
        intros rs F. discriminate F.
      * destruct (IH _ _ _ E2) as (Hs & Hc & Hl).
        unfold ret in E3. injection E3 as <- <-.
        split; [congruence |]. split; [congruence |].
        intros rs F. injection F as <-. cbn. f_equal. apply Hl. reflexivity.
Qed.

Lemma generate_results_spec w w' r :
  _generate_results w = (w', r) ->
  self w' = self w /\ calls w' = calls w /\
  forall res, r = inr res ->
    r_config res = config (self w) /\
    r_start_time res = cfg_start_date (config (self w)) /\
    r_end_time res = current_time (self w) /\
    r_market_evolution res = market_snapshots (self w) /\
    r_total_steps res = length (r_market_evolution res) /\
    r_freelancers res = Py.values (freelancers (self w)) /\
    r_clients res = Py.values (clients (self w)) /\
    r_contracts res = Py.values (contracts (self w)) /\
    r_transactions res = transactions (self w) /\
    r_final_freelancers res = length (r_freelancers res) /\
    r_final_clients res = length (r_clients res) /\
    r_final_contracts res = length (r_contracts res) /\
    r_final_transactions res = length (r_transactions res) /\
    length (r_scenario_results res) = length (scenarios (self w)).
Proof.
  unfold _generate_results. rewrite bind_get_self. intros E.
  apply bind_cases in E.
  assert (Hfn : forall A (f : X -> X * (exn + A)) v v' a,
            call_fn f v = (v', a) -> self v' = self v /\ calls v' = calls v).
  { intros A f v v' a. unfold call_fn. destruct (f (ext v)).
    intros F. injection F as <- <-. split; reflexivity. }
  destruct E as [(e & E & ->) | (metrics & w1 & E1 & E2)].
  - destruct (Hfn _ _ _ _ _ E) as [Hs Hc].
    split; [exact Hs |]. split; [exact Hc |]. intros res F. discriminate F.
  - destruct (Hfn _ _ _ _ _ E1) as [Hs1 Hc1].
    apply bind_cases in E2.
    destruct E2 as [(e & E2 & ->) | (rs & w2 & E2 & E3)].
    + destruct (collect_results_spec _ _ _ _ E2) as (Hs & Hc & _).
      split; [congruence |]. split; [congruence |].
      intros res F. discriminate F.
    + destruct (collect_results_spec _ _ _ _ E2) as (Hs & Hc & Hl).
      unfold ret in E3. injection E3 as <- <-.
      split; [congruence |]. split; [congruence |].
      intros res F. injection F as <-. cbn.
      unfold Py.values. rewrite !length_map.
      repeat split. apply Hl. reflexivity.
Qed.


Lemma run_cases w w' r :
  run w = (w', r) ->
  (exists e, r = inl e /\ while_loop 0 w = (w', inl e)) \/
  exists w1 iteration,
    while_loop 0 w = (w1, inr iteration) /\
    match r with
    | inr res => _generate_results w1 = (w', inr res)
    | inl e => _generate_results w1 = (w', inl e)
    end.
Proof.
  rewrite run_eq. unfold initialize_population.
  unfold bind at 1, ret at 1. intros E. apply bind_cases in E.
  destruct E as [(e & E & ->) | (iteration & w1 & E1 & E2)].
  - left. exists e. split; [reflexivity | exact E].
  - right. exists w1, iteration. split; [exact E1 |].
    destruct r; exact E2.
Qed.

(** X1. A run that returns has made some number [n] of steps: it appended
    [n] snapshots to the log it found, stamped with the times of the steps
    (one time step apart, from the time the run started at), reports the
    length of the whole log as [total_steps] and the final clock, [n] time
    steps later, as [end_time], and never makes more steps than
    [max_iterations]. *)
Theorem run_accounting w w' res :
  run w = (w', inr res) ->
  exists (n : nat) new,
    r_market_evolution res = market_snapshots (self w) ++ new /\
    length new = n /\
    map timestamp new =
      step_times (current_time (self w)) (time_step (config (self w))) n /\
    r_total_steps res = (length (market_snapshots (self w)) + n)%nat /\
    r_end_time res =
      current_time (self w) + Z.of_nat n * time_step (config (self w)) /\
    current_time (self w') = r_end_time res /\
    ((0 < n)%nat -> Z.of_nat n <= max_iterations (config (self w))).
Proof.
  intros E. apply run_cases in E.
  destruct E as [(e & F & _) | (w1 & it & E1 & E2)]; [discriminate F |].
  destruct (while_loop_inv _ 0 w w1 (inr it) eq_refl E1)
    as (_ & _ & _ & _ & _ & _ & n & new & Hm & Hi & Hl & Ht & Hts & _ & Hmax & _).
  destruct (generate_results_spec _ _ _ E2) as (Hs & _ & Hres).
  destruct (Hres res eq_refl)
    as (_ & _ & Hend & Hev & Htot & _).
  exists n, new. rewrite Htot, Hev, Hend, Hs, Hm, length_app, Hl.
  repeat split; try assumption; try reflexivity.
  intros Hn. specialize (Hmax Hn). lia.
Qed.

(** X2. A run that returns stopped for one of three reasons: the clock is
    past the end date, the steps made have reached [max_iterations], or the
    convergence predicate held after the last step; and it made no step at
    all exactly when the loop condition failed at the start. *)
Theorem run_stops_because w w' res :
  run w = (w', inr res) ->
  let n := (r_total_steps res - length (market_snapshots (self w)))%nat in
  (cfg_end_date (config (self w)) < r_end_time res \/
   max_iterations (config (self w)) <= Z.of_nat n \/
   (0 < n)%nat /\ _check_convergence (self w') = true) /\
  (n = O <->
   (cfg_end_date (config (self w)) < current_time (self w) \/
    max_iterations (config (self w)) <= 0)).
Proof.
  intros E. apply run_cases in E.
  destruct E as [(e & F & _) | (w1 & it & E1 & E2)]; [discriminate F |].
  destruct (while_loop_inv _ 0 w w1 (inr it) eq_refl E1)
    as (Hcfg & _ & _ & _ & _ & _ & n & new & Hm & Hi & Hl & Ht & _ & Hzero
        & _ & Hexit).
  destruct (generate_results_spec _ _ _ E2) as (Hs & _ & Hres).
  destruct (Hres res eq_refl) as (_ & _ & Hend & Hev & Htot & _).
  assert (Hn : (r_total_steps res - length (market_snapshots (self w)))%nat
               = n)
    by (rewrite Htot, Hev, Hm, length_app, Hl; lia).
  cbn zeta. rewrite Hn, Hend, Hs. clear Hn.
  assert (Hguard : forall i e,
            loop_guard i e = false <->
            cfg_end_date (config e) < current_time e \/
            max_iterations (config e) <= i).
  { intros i e. unfold loop_guard. rewrite andb_false_iff, Z.leb_gt, Z.ltb_ge.
    reflexivity. }
  split.
  - destruct Hexit as [Hg | [Hpos Hc]].
    + apply Hguard in Hg. rewrite Hcfg in Hg. subst it.
      destruct Hg as [Hg | Hg]; [left; exact Hg | right; left; lia].
    + right. right. split; [exact Hpos | exact Hc].
  - split.
    + intros Hn. destruct (Hzero Hn) as [_ Hg]. apply Hguard in Hg. exact Hg.
    + intros Hg. apply Hguard in Hg.
      rewrite while_loop_eq, Hg in E1. injection E1 as <- _.
      apply (f_equal (@length _)) in Hm. rewrite length_app, Hl in Hm. lia.
Qed.

(** X3. When the loop condition fails at the start (the clock is past the
    end date, or [max_iterations] is not positive), [run] is
    [_generate_results] alone: it steps not once, calls no behavioral
    model, scenario [is_active] or metrics collection, and leaves the
    engine as it found it. *)
Theorem run_without_steps w :
  cfg_end_date (config (self w)) < current_time (self w) \/
  max_iterations (config (self w)) <= 0 ->
  run w = _generate_results w /\
  self (fst (run w)) = self w /\
  calls (fst (run w)) = calls w.
Proof.
  intros Hg.
  assert (G : loop_guard 0 (self w) = false).
  { unfold loop_guard. rewrite andb_false_iff, Z.leb_gt, Z.ltb_ge. exact Hg. }
  assert (E : run w = _generate_results w).
  { rewrite run_eq. unfold initialize_population.
    unfold bind at 1, ret at 1.
    erewrite bind_step; [reflexivity |]. rewrite while_loop_eq, G.
    reflexivity. }
  split; [exact E |]. rewrite E.
  destruct (_generate_results w) as [w' r] eqn:Eg.
  destruct (generate_results_spec _ _ _ Eg) as (Hs & Hc & _).
  split; assumption.
Qed.

(** X4. Whatever its outcome, [run] leaves the configuration, the
    transaction log, the registered scenarios and the injected models as
    they were, and the snapshot log only grows at its end. *)
Theorem run_preserves w w' r :
  run w = (w', r) ->
  config (self w') = config (self w) /\
  transactions (self w') = transactions (self w) /\
  scenarios (self w') = scenarios (self w) /\
  freelancer_behavior_model (self w') = freelancer_behavior_model (self w) /\
  client_behavior_model (self w') = client_behavior_model (self w) /\
  market_dynamics_model (self w') = market_dynamics_model (self w) /\
  exists new, market_snapshots (self w') = market_snapshots (self w) ++ new.
Proof.
  intros E. apply run_cases in E.
  destruct E as [(e & -> & E) | (w1 & it & E1 & E2)].
  - destruct (while_loop_inv _ 0 w w' (inl e) eq_refl E)
      as (H1 & H2 & H3 & H4 & H5 & H6 & n & new & Hm & _).
    repeat (split; [assumption |]). exists new. exact Hm.
  - destruct (while_loop_inv _ 0 w w1 (inr it) eq_refl E1)
      as (H1 & H2 & H3 & H4 & H5 & H6 & n & new & Hm & _).
    assert (Hs : self w' = self w1).
    { destruct r as [e | res];
        destruct (generate_results_spec _ _ _ E2) as (Hs & _); exact Hs. }
    rewrite Hs. repeat (split; [assumption |]). exists new. exact Hm.
Qed.

(** X5. [_generate_results] reads the engine and changes none of its
    attributes, whatever its outcome; when it returns, the report is the
    engine's: [end_time] is the clock, [market_evolution] the snapshot log
    and [total_steps] its length, the entity lists are the values of the
    mappings in insertion order and the final population counts their
    lengths, with one result per registered scenario. *)
Theorem results_report_the_engine w w' r :
  _generate_results w = (w', r) ->
  self w' = self w /\
  forall res, r = inr res ->
    r_config res = config (self w) /\
    r_start_time res = cfg_start_date (config (self w)) /\
    r_end_time res = current_time (self w) /\
    r_market_evolution res = market_snapshots (self w) /\
    r_total_steps res = length (market_snapshots (self w)) /\
    r_freelancers res = map snd (freelancers (self w)) /\
    r_clients res = map snd (clients (self w)) /\
    r_contracts res = map snd (contracts (self w)) /\
    r_transactions res = transactions (self w) /\
    r_final_freelancers res = length (freelancers (self w)) /\
    r_final_clients res = length (clients (self w)) /\
    r_final_contracts res = length (contracts (self w)) /\
    r_final_transactions res = length (transactions (self w)) /\
    length (r_scenario_results res) = length (scenarios (self w)).
Proof.
  intros E. destruct (generate_results_spec _ _ _ E) as (Hs & _ & Hres).
  split; [exact Hs |]. intros res Hr.
  destruct (Hres res Hr)
    as (K1 & K2 & K3 & K4 & K5 & K6 & K7 & K8 & K9 & K10 & K11 & K12 & K13
        & K14).
  rewrite K10, K11, K12, K13, K5, K4, K6, K7, K8, K9.
  unfold Py.values. rewrite !length_map.
  repeat split; assumption.
Qed.


(** ** Edges of a step *)

Lemma quiet_phases_return w :
  never_raises (self w) ->
  exists w1 w2 w3 w4 w5,
    _update_market_conditions w = (w1, inr tt) /\
    _execute_agent_behaviors w1 = (w2, inr tt) /\
    _process_contracts w2 = (w3, inr tt) /\
    _apply_regulatory_scenarios w3 = (w4, inr tt) /\
    _collect_step_metrics w4 = (w5, inr tt) /\
    config (self w5) = config (self w) /\
    current_time (self w5) = current_time (self w).
Proof.
  intros N.
  destruct (update_market_returns w N) as (w1 & E1).
  destruct (update_market_spec _ _ _ E1) as (Hs1 & _).
  pose proof (never_raises_setup _ _ Hs1 N) as N1.
  destruct (execute_agent_behaviors_returns w1 N1) as (w2 & E2).
  destruct (execute_agent_behaviors_spec _ _ _ E2) as ((Hs2 & _) & _).
  pose proof (never_raises_setup _ _ Hs2 N1) as N2.
  pose proof (process_contracts_spec w2) as E3.
  set (w3 := mkWorld (set_contracts (processed (self w2)) (self w2))
                     (ext w2) (calls w2)) in E3.
  assert (Hs3 : setup (self w3) = setup (self w2)) by reflexivity.
  pose proof (never_raises_setup _ _ Hs3 N2) as N3.
  destruct N3 as (N31 & _ & _ & _ & _ & N36).
  destruct (apply_scenarios_returns _ N36 0%nat w3) as (w4 & E4).
  assert (E4' : _apply_regulatory_scenarios w3 = (w4, inr tt))
    by (unfold _apply_regulatory_scenarios; rewrite bind_get_self; exact E4).
  destruct (apply_regulatory_scenarios_spec _ _ _ E4') as (Hs4 & _).
  assert (E5 : exists w5, _collect_step_metrics w4 = (w5, inr tt)).
  { unfold _collect_step_metrics, bind, get_self, log. cbn [self ext calls].
    specialize (N31 (mappings (self w4)) (transactions (self w4))
                  (current_time (self w4)) (ext w4)).
    destruct (collect_step_metrics _ _ _ _) as [x r]. cbn in N31. subst r.
    eexists. reflexivity. }
  destruct E5 as (w5 & E5).
  destruct (collect_step_metrics_spec _ _ _ E5) as (Hs5 & _).
  assert (Hs : setup (self w5) = setup (self w)) by congruence.
  apply setup_fields in Hs. destruct Hs as (Hc & Ht & _).
  exists w1, w2, w3, w4, w5. repeat split; assumption.
Qed.

(** X6. When no collaborator raises, a step fails exactly when the next
    clock value would leave the range of [datetime], and then with
    [OverflowError]: by then the step has appended its snapshot and
    collected its metrics (the metrics collector's call is the last one
    made), and the clock is where it was. *)
Theorem step_overflows_last w w' r :
  never_raises (self w) ->
  step w = (w', r) ->
  (r = inr tt <->
   in_range (current_time (self w) + time_step (config (self w))) = true) /\
  (r <> inr tt ->
   r = inl OverflowError /\
   current_time (self w') = current_time (self w) /\
   market_snapshots (self w') =
     market_snapshots (self w) ++ [phase1_snapshot w] /\
   exists earlier m txs,
     calls w' = earlier ++ [CallCollectMetrics m txs (current_time (self w))]).
Proof.
  intros N E.
  destruct (quiet_phases_return w N)
    as (w1 & w2 & w3 & w4 & w5 & E1 & E2 & E3 & E4 & E5 & Hc & Ht).
  destruct (in_range (current_time (self w) + time_step (config (self w))))
    eqn:R.
  - destruct (quiet_step_returns w N R) as (w'' & E').
    rewrite E in E'. injection E' as _ ->.
    split; [split; reflexivity |]. intros F. now contradiction F.
  - assert (E6 : advance_time w5 = (w5, inl OverflowError)).
    { unfold advance_time, bind, get_self, raise. rewrite Hc, Ht, R.
      reflexivity. }
    pose proof (step_of_outcome _ _ _
                  (raised_in_phase6 w w1 w2 w3 w4 w5 w5 OverflowError
                     E1 E2 E3 E4 E5 E6)) as E'.
    rewrite E in E'. injection E' as -> ->.
    split; [split; intros F; discriminate F |]. intros _.
    split; [reflexivity |]. split; [exact Ht |].
    pose proof (step_summary _ _ _ E) as Hsum.
    destruct Hsum as (_ & _ & _ & _ & _ & _ & _ & Hm & _).
    split.
    + destruct Hm as [Hm | (_ & e & _ & F)]; [exact Hm |].
      rewrite E1 in F. discriminate F.
    + destruct (collect_step_metrics_spec _ _ _ E5) as (_ & Hcalls).
      exists (calls w4), (mappings (self w4)), (transactions (self w4)).
      rewrite Hcalls. unfold metrics_call.
      destruct (collect_step_metrics_spec _ _ _ E5) as (Hs5 & _).
      rewrite <- Hs5, Ht. reflexivity.
Qed.

(** X7. When the injected market model raises, the step ends there with
    that exception: the mappings are as the model left them, the call of
    the market model is the only call made, no snapshot is appended, no
    contract is processed, and the clock stays. *)
Theorem market_model_failure w model m x e :
  market_dynamics_model (self w) = Some model ->
  model (mappings (self w)) (current_time (self w)) (ext w) = ((m, x), Some e) ->
  step w =
    (mkWorld (set_mappings m (self w)) x
       (calls w ++ [CallMarketDynamics (mappings (self w))
                      (current_time (self w))]),
     inl e).
Proof.
  intros Hm Hr. unfold step. erewrite bind_raise; [reflexivity |].
  unfold _update_market_conditions. rewrite bind_get_self, Hm.
  erewrite bind_raise; [reflexivity |].
  erewrite bind_step by reflexivity.
  unfold invoke, log. cbn [self ext calls]. rewrite Hr. reflexivity.
Qed.

(** ** Scenarios in a step *)

(** X9. A scenario registered with [add_scenario] is consulted last:
    phase 4 of the engine with [s] added is the pass over the scenarios
    registered before, and then, when none of them raised, [s] is asked
    whether it is active in the world they left and applied to the mappings
    they left when it answers yes; when one of them raised, [s] is not
    consulted at all. *)
Theorem scenarios_asked_in_registration_order w s w' r :
  _apply_regulatory_scenarios (fst (add_scenario s w)) = (w', r) ->
  let t := current_time (self w) in
  exists m x r0,
    scenario_pass t (scenarios (self w)) (mappings (self w)) (ext w)
      = ((m, x), r0) /\
    scenarios (self w') = scenarios (self w) ++ [s] /\
    match r0 with
    | Some ex => r = inl ex /\ mappings (self w') = m /\ ext w' = x
    | None =>
        match is_active s t x with
        | (x1, inl ex) =>
            r = inl ex /\ mappings (self w') = m /\ ext w' = x1
        | (x1, inr false) =>
            r = inr tt /\ mappings (self w') = m /\ ext w' = x1
        | (x1, inr true) =>
            apply s m t x1 = ((mappings (self w'), ext w'), raised r)
        end
    end.
Proof.
  intros E. cbv zeta. apply apply_regulatory_scenarios_effect in E.
  destruct E as (m4 & Epass & Eself).
  cbn [add_scenario modify fst self ext] in Epass, Eself.
  change (current_time (set_scenarios (scenarios (self w) ++ [s]) (self w)))
    with (current_time (self w)) in Epass.
  change (scenarios (set_scenarios (scenarios (self w) ++ [s]) (self w)))
    with (scenarios (self w) ++ [s]) in Epass.
  change (mappings (set_scenarios (scenarios (self w) ++ [s]) (self w)))
    with (mappings (self w)) in Epass.
  rewrite scenario_pass_app in Epass.
  assert (Hm : mappings (self w') = m4)
    by (rewrite Eself; apply mappings_set_mappings).
  assert (Hs : scenarios (self w') = scenarios (self w) ++ [s])
    by (rewrite Eself; reflexivity).
  destruct (scenario_pass (current_time (self w)) (scenarios (self w))
              (mappings (self w)) (ext w)) as [[m x] [ex |]].
  - exists m, x, (Some ex). split; [reflexivity |]. split; [exact Hs |].
    injection Epass as <- <- Hr.
    destruct r as [ex' | []]; [| discriminate Hr]. injection Hr as ->.
    repeat split; assumption.
  - exists m, x, None. split; [reflexivity |]. split; [exact Hs |].
    cbn [scenario_pass] in Epass.
    destruct (is_active s (current_time (self w)) x) as [x1 [ex | [|]]].
    + injection Epass as <- <- Hr.
      destruct r as [ex' | []]; [| discriminate Hr]. injection Hr as ->.
      repeat split; assumption.
    + destruct (apply s m (current_time (self w)) x1) as [[m' x2] [ex |]];
        injection Epass as <- <- Hr; rewrite Hm, <- Hr; reflexivity.
    + injection Epass as <- <- Hr.
      destruct r as [ex' | []]; [discriminate Hr |].
      repeat split; assumption.
Qed.


(** ** A bare engine over time *)

Lemma bare_step_population w w' r :
  bare (self w) -> step w = (w', r) ->
  freelancers (self w') = freelancers (self w) /\
  clients (self w') = clients (self w).
Proof.
  intros Hb E. rewrite (bare_step_eq _ Hb) in E. apply bind_cases in E.
  destruct E as [(e & E & ->) | ([] & w5 & E5 & E6)].
  - apply collect_step_metrics_spec in E. destruct E as [-> _].
    split; reflexivity.
  - apply collect_step_metrics_spec in E5. destruct E5 as [E5 _].
    apply advance_time_spec in E6.
    destruct r as [e | u]; [destruct E6 as [-> _] | subst w'];
      cbn [self freelancers clients set_current_time]; rewrite E5;
      split; reflexivity.
Qed.

Lemma contracts_evolve_aggregates d d' :
  contracts_evolve d d' ->
  Py.keys d' = Py.keys d /\
  length (filter is_compliant (Py.values d')) =
    length (filter is_compliant (Py.values d)) /\
  (length (filter is_active_contract (Py.values d'))
   <= length (filter is_active_contract (Py.values d)))%nat.
Proof.
  induction 1 as [| [k c] [k' c'] d d' [Hk He] Hev (IH1 & IH2 & IH3)];
    [repeat split; constructor |].
  cbn in Hk. subst k'. unfold Py.keys, Py.values in *. cbn [map filter fst snd].
  split; [now rewrite IH1 |].
  cbn in He. destruct He as [-> | [Ha ->]].
  - split.
    + destruct (is_compliant c); cbn [length]; now rewrite IH2.
    + destruct (is_active_contract c); cbn [length]; lia.
  - apply is_active_contract_iff in Ha. rewrite Ha.
    change (is_compliant (set_status COMPLETED c)) with (is_compliant c).
    change (is_active_contract (set_status COMPLETED c)) with false.
    split.
    + destruct (is_compliant c); cbn [length]; now rewrite IH2.
    + cbn [length]. lia.
Qed.

Lemma compliance_rate_evolve e e' :
  contracts_evolve (contracts e) (contracts e') ->
  _calculate_compliance_rate e' = _calculate_compliance_rate e.
Proof.
  intros Hev.
  destruct (contracts_evolve_aggregates _ _ Hev) as (_ & Hcomp & _).
  unfold _calculate_compliance_rate. rewrite Hcomp.
  assert (Hlen : length (contracts e') = length (contracts e))
    by (symmetry; eapply Forall2_length; exact Hev).
  rewrite Hlen.
  destruct (contracts e), (contracts e'); try reflexivity; discriminate Hlen.
Qed.

(** X10. With no scenario and no behavioral model, steps never change the
    population or the compliance of the contracts: after any number of
    steps the freelancers and clients are the same, the contracts have the
    same keys, the compliance rate and the average hourly rate that the
    next snapshot will record are unchanged, and the number of active
    contracts has not grown. *)
Theorem bare_steps_aggregates n :
  forall w w' r,
    bare (self w) -> steps n w = (w', r) ->
    freelancers (self w') = freelancers (self w) /\
    clients (self w') = clients (self w) /\
    map fst (contracts (self w')) = map fst (contracts (self w)) /\
    _calculate_compliance_rate (self w') = _calculate_compliance_rate (self w) /\
    _calculate_average_hourly_rate (self w') =
      _calculate_average_hourly_rate (self w) /\
    (active_count (self w') <= active_count (self w))%nat.
Proof.
  intros w w' r Hb E.
  pose proof (bare_steps n w w' r Hb E) as Hev.
  assert (Hpop : freelancers (self w') = freelancers (self w) /\
                 clients (self w') = clients (self w)).
  { clear Hev. revert w w' r Hb E.
    induction n as [| n IH]; intros w w' r Hb E.
    - cbn in E. unfold ret in E. injection E as <- _. split; reflexivity.
    - cbn [steps] in E. apply bind_cases in E.
      destruct E as [(e & E & ->) | ([] & w1 & E1 & E2)].
      + exact (bare_step_population _ _ _ Hb E).
      + destruct (bare_step_population _ _ _ Hb E1) as [Hf Hc].
        destruct (bare_step _ _ _ Hb E1) as [Hb1 _].
        destruct (IH _ _ _ Hb1 E2) as [Hf' Hc'].
        split; congruence. }
  destruct Hpop as [Hf Hc].
  destruct (contracts_evolve_aggregates _ _ Hev) as (Hk & Hcomp & Hact).
  split; [exact Hf |]. split; [exact Hc |]. split; [exact Hk |].
  split; [| split; [| exact Hact]].
  - apply compliance_rate_evolve. exact Hev.
  - unfold _calculate_average_hourly_rate. now rewrite Hf.
Qed.

Lemma bare_phase1_snapshot w :
  market_dynamics_model (self w) = None ->
  phase1_snapshot w = make_snapshot (self w).
Proof.
  intros Hm. unfold phase1_snapshot, _update_market_conditions.
  rewrite bind_get_self, Hm. reflexivity.
Qed.

Lemma repeat_snoc {A} (a : A) n : repeat a n ++ [a] = repeat a (S n).
Proof. induction n as [| n IH]; cbn; [reflexivity | now rewrite IH]. Qed.

(** The loop of a bare engine whose compliance rate has a mean that comes
    out exact: from the [j]-th step on it runs up to the tenth and stops
    there on convergence. *)
Lemma bare_loop_converges rate (m : nat) :
  forall (j : nat) w,
    (j + S m = 10)%nat ->
    bare (self w) -> never_raises (self w) ->
    map compliance_rate (market_snapshots (self w)) = repeat rate j ->
    _calculate_compliance_rate (self w) = rate ->
    PrimFloat.leb 0 rate = true -> PrimFloat.leb rate 1 = true ->
    np.mean (repeat rate 10) = rate ->
    PrimFloat.ltb 0 (convergence_threshold (config (self w))) = true ->
    10 <= max_iterations (config (self w)) ->
    (forall i : nat, (i <= m)%nat ->
       current_time (self w) + Z.of_nat i * time_step (config (self w))
         <= cfg_end_date (config (self w)) /\
       in_range (current_time (self w)
                 + Z.of_nat (S i) * time_step (config (self w))) = true) ->
    exists w',
      while_loop (Z.of_nat j) w = (w', inr 10) /\
      never_raises (self w') /\
      _check_convergence (self w') = true /\
      length (market_snapshots (self w')) = 10%nat /\
      current_time (self w') =
        current_time (self w) + Z.of_nat (S m) * time_step (config (self w)).
Proof.
  induction m as [| m IH];
    intros j w Hj Hb N Hrates Hrate Hlo Hhi Hmean Hthr Hmax Htime;
    rewrite while_loop_eq.
  all: destruct (Htime O ltac:(lia)) as [Hle Hin];
    change (Z.of_nat 0) with 0 in Hle; change (Z.of_nat 1) with 1 in Hin;
    rewrite Z.mul_0_l, Z.add_0_r in Hle; rewrite Z.mul_1_l in Hin.
  all: assert (G : loop_guard (Z.of_nat j) (self w) = true)
    by (unfold loop_guard; apply andb_true_intro;
        split; [apply Z.leb_le; exact Hle | apply Z.ltb_lt; lia]).
  all: rewrite G.
  all: destruct (quiet_step_returns w N Hin) as (w1 & Es); rewrite Es.
  all: pose proof (step_summary _ _ _ Es) as Hsum;
    destruct Hsum as (Hcfg & Htx & Hsc & Hfm & Hcm & Hmm & Ht1 & Hm1 & _);
    destruct Hm1 as [Hm1 | (_ & e & F & _)]; [| discriminate F].
  all: assert (N1 : never_raises (self w1))
    by (destruct N as (N1 & N2 & N3 & N4 & N5 & N6); unfold never_raises;
        rewrite Hsc, Hfm, Hcm, Hmm; repeat split; assumption).
  all: destruct (bare_step _ _ _ Hb Es) as [Hb1 Hk1].
  all: assert (Hrates1 : map compliance_rate (market_snapshots (self w1)) =
                         repeat rate (S j))
    by (rewrite Hm1, map_app, Hrates; cbn [map];
        rewrite (bare_phase1_snapshot w (proj2 (proj2 (proj2 Hb))));
        cbn [make_snapshot compliance_rate]; rewrite Hrate;
        apply repeat_snoc).
  all: assert (Hlen1 : length (market_snapshots (self w1)) = S j)
    by (rewrite <- (length_map compliance_rate), Hrates1;
        apply repeat_length).
  - assert (Hj9 : j = 9%nat) by lia. rewrite Hj9 in *. clear Hj9.
    assert (C : _check_convergence (self w1) = true).
    { unfold _check_convergence. rewrite Hlen1. cbn [Nat.ltb Nat.leb].
      unfold Py.last_n. rewrite Hlen1. cbn [Nat.sub skipn].
      rewrite Hrates1, (var_of_identical rate Hlo Hhi Hmean), Hcfg.
      exact Hthr. }
    rewrite C. exists w1.
    split; [reflexivity |]. split; [exact N1 |]. split; [exact C |].
    split; [exact Hlen1 |]. rewrite Ht1. change (Z.of_nat 1) with 1. lia.
  - assert (C : _check_convergence (self w1) = false).
    { unfold _check_convergence. rewrite Hlen1.
      replace (S j <? 10)%nat with true
        by (symmetry; apply Nat.ltb_lt; lia).
      reflexivity. }
    rewrite C.
    replace (Z.of_nat j + 1) with (Z.of_nat (S j)) by lia.
    destruct (IH (S j) w1) as (w' & E' & N' & C' & L' & T');
      try assumption; try (rewrite Hcfg; assumption); try lia.
    + rewrite <- Hrate. apply compliance_rate_evolve.
      rewrite Hk1. apply processed_evolve.
    + intros i Hi. rewrite Hcfg, Ht1.
      destruct (Htime (S i) ltac:(lia)) as [Hle' Hin'].
      rewrite !Nat2Z.inj_succ in *.
      split.
      * replace (current_time (self w) + time_step (config (self w))
                 + Z.of_nat i * time_step (config (self w)))
          with (current_time (self w)
                + Z.succ (Z.of_nat i) * time_step (config (self w)))
          by lia.
        exact Hle'.
      * replace (current_time (self w) + time_step (config (self w))
                 + Z.succ (Z.of_nat i) * time_step (config (self w)))
          with (current_time (self w)
                + Z.succ (Z.succ (Z.of_nat i)) * time_step (config (self w)))
          by lia.
        exact Hin'.
    + exists w'. split; [exact E' |]. split; [exact N' |].
      split; [exact C' |]. split; [exact L' |].
      rewrite T', Ht1, Hcfg, !Nat2Z.inj_succ. lia.
Qed.

(** X11. A fresh engine with no scenario and no behavioral model always
    converges on its tenth step, however far the end date and the
    iteration cap are: nothing changes its compliance rate, so when that
    rate has an exact mean (as 0.0, the rate of an engine without
    contracts, has) the ten snapshots have variance 0 and, for any
    threshold above 0, [run] stops after exactly 10 steps. *)
Theorem bare_run_converges_at_ten w :
  bare (self w) -> never_raises (self w) ->
  market_snapshots (self w) = [] ->
  let rate := _calculate_compliance_rate (self w) in
  let ts := time_step (config (self w)) in
  PrimFloat.leb 0 rate = true -> PrimFloat.leb rate 1 = true ->
  np.mean (repeat rate 10) = rate ->
  PrimFloat.ltb 0 (convergence_threshold (config (self w))) = true ->
  10 <= max_iterations (config (self w)) ->
  (forall i : nat, (i <= 9)%nat ->
     current_time (self w) + Z.of_nat i * ts <= cfg_end_date (config (self w)) /\
     in_range (current_time (self w) + Z.of_nat (S i) * ts) = true) ->
  exists w' res,
    run w = (w', inr res) /\
    r_total_steps res = 10%nat /\
    r_end_time res = current_time (self w) + 10 * ts /\
    _check_convergence (self w') = true.
Proof.
  cbn zeta. intros Hb N Hm Hlo Hhi Hmean Hthr Hmax Htime.
  destruct (bare_loop_converges (_calculate_compliance_rate (self w)) 9 0 w)
    as (w1 & E1 & N1 & C1 & L1 & T1); try assumption; try reflexivity.
  { now rewrite Hm. }
  destruct (generate_results_returns w1 N1) as (w' & res & E2).
  exists w', res.
  destruct (generate_results_spec _ _ _ E2) as (Hs & _ & Hres).
  destruct (Hres res eq_refl) as (_ & _ & Hend & Hev & Htot & _).
  split.
  - rewrite run_eq. unfold initialize_population.
    unfold bind at 1, ret at 1.
    rewrite (bind_step _ _ _ _ _ E1). exact E2.
  - rewrite Htot, Hev, Hend, Hs, L1, T1.
    repeat split; try assumption.
Qed.

(** ** Dates and tags *)

(** X12. The snapshot's volume counts a transaction by calendar day: a
    transaction is counted exactly when its timestamp lies from midnight
    (included) of the clock's date to the next midnight (excluded),
    whatever the time of day of the clock or of the transaction. *)
Theorem volume_counts_the_calendar_day now txs t :
  In t (filter (same_date now) txs) <->
  In t txs /\
  date_of now * us_per_day <= transaction_date t
    < (date_of now + 1) * us_per_day.
Proof.
  rewrite filter_In. unfold same_date, date_of.
  rewrite Z.eqb_eq.
  assert (Hu : 0 < us_per_day) by reflexivity.
  split; intros [Hin Hd]; (split; [exact Hin |]).
  - rewrite <- Hd.
    pose proof (Z.mul_div_le (transaction_date t) us_per_day Hu).
    pose proof (Z.mul_succ_div_gt (transaction_date t) us_per_day Hu).
    lia.
  - symmetry.
    apply (Z.div_unique _ _ _
             (transaction_date t - us_per_day * (now / us_per_day))); lia.
Qed.

(** X13. The string tags of the two enumerations are distinct within each
    enumeration, so the engine's comparisons with ["active"] and
    ["compliant"] single out exactly the [ACTIVE] contracts and the
    [COMPLIANT] ones. *)
Theorem tags_identify_members :
  (forall a b, ContractStatus_value a = ContractStatus_value b -> a = b) /\
  (forall a b, ComplianceStatus_value a = ComplianceStatus_value b -> a = b) /\
  (forall c, is_active_contract c = true <-> status c = ACTIVE) /\
  (forall c, is_compliant c = true <-> sb988_compliant c = COMPLIANT).
Proof.
  split; [intros [] []; cbn; intros F; try reflexivity; discriminate F |].
  split; [intros [] []; cbn; intros F; try reflexivity; discriminate F |].
  split; [exact is_active_contract_iff |].
  intros c. unfold is_compliant. destruct (sb988_compliant c); cbn; split;
    intros F; try discriminate F; reflexivity.
Qed.

(** ** The agents in phase 2 *)

(** X14. Phase 2 on its own: the freelancer model is called on each
    freelancer of the mapping in insertion order, with the clients as the
    calls before left them, then the client model on each client in
    insertion order, with the freelancers as the calls before left them, up
    to the first call that raises.  Every call is given the last snapshot
    of the log, or [None] when the log is empty (as it is before the first
    step).  The keys of the two mappings, the contracts and every other
    attribute are as before. *)
Theorem agents_called_in_mapping_order w w' r :
  _execute_agent_behaviors w = (w', r) ->
  exists ms m2,
    agents_effect (self w) ms (mappings (self w)) (ext w)
      = ((m2, ext w'), raised r) /\
    self w' = set_mappings m2 (self w) /\
    (market_snapshots (self w) = [] -> ms = None) /\
    (forall l s, market_snapshots (self w) = l ++ [s] -> ms = Some s) /\
    Py.keys (m_freelancers m2) = Py.keys (freelancers (self w)) /\
    Py.keys (m_clients m2) = Py.keys (clients (self w)) /\
    m_contracts m2 = contracts (self w).
Proof.
  intros E. apply execute_agent_behaviors_effect in E.
  destruct E as (m2 & Ea & Es).
  exists (latest_snapshot (self w)), m2.
  split; [exact Ea |]. split; [exact Es |].
  split; [intros Hm; unfold latest_snapshot; now rewrite Hm |].
  split; [intros l s Hm; eapply latest_snapshot_app; exact Hm |].
  apply agents_effect_keys in Ea. exact Ea.
Qed.

(** ** A scenario that fails *)

(** X15. A scenario that fails stops the pass.  When the scenarios
    registered before [s] have returned and [is_active] of [s] raises, or
    it answers yes and [apply] raises, phase 4 raises that exception in the
    state the failing call left, whatever the scenarios registered after
    [s] are: none of them is asked. *)
Theorem failing_scenario_stops_the_pass w l1 s l2 m1 x1 :
  scenarios (self w) = l1 ++ s :: l2 ->
  scenario_pass (current_time (self w)) l1 (mappings (self w)) (ext w)
    = ((m1, x1), None) ->
  let t := current_time (self w) in
  (forall x' ex,
     is_active s t x1 = (x', inl ex) ->
     exists w', _apply_regulatory_scenarios w = (w', inl ex) /\
       self w' = set_mappings m1 (self w) /\ ext w' = x') /\
  (forall x' m' x'' ex,
     is_active s t x1 = (x', inr true) ->
     apply s m1 t x' = ((m', x''), Some ex) ->
     exists w', _apply_regulatory_scenarios w = (w', inl ex) /\
       self w' = set_mappings m' (self w) /\ ext w' = x'').
Proof.
  intros Hl Hp. cbv zeta.
  destruct (_apply_regulatory_scenarios w) as [w' r] eqn:E.
  apply apply_regulatory_scenarios_effect in E.
  destruct E as (m4 & Epass & Eself).
  rewrite Hl, scenario_pass_app, Hp in Epass. cbn [scenario_pass] in Epass.
  split.
  - intros x' ex Ha. rewrite Ha in Epass. injection Epass as Hm Hx Hr.
    exists w'. destruct r as [ex' | []]; [| discriminate Hr].
    injection Hr as ->. subst m4 x'. repeat split. exact Eself.
  - intros x' m' x'' ex Ha Hap. rewrite Ha, Hap in Epass.
    injection Epass as Hm Hx Hr.
    exists w'. destruct r as [ex' | []]; [| discriminate Hr].
    injection Hr as ->. subst m4 x''. repeat split. exact Eself.
Qed.

End Proofs.

(** * The properties on the sample engines *)

Import Sample.

Lemma step_six_phases_witness :
  step busy = (fst (step busy), inr tt) /\
  step_effect (self busy) (ext busy) =
    ((self (fst (step busy)), ext (fst (step busy))), inr tt) /\
  current_time (self (fst (step busy))) = mkdatetime 2024 1 2 /\
  length (market_snapshots (self (fst (step busy)))) = 1%nat.
Proof.
  assert (E : step busy = (fst (step busy), inr tt))
    by (vm_compute; reflexivity).
  split; [exact E |].
  destruct (step_six_phases busy _ _ E) as (_ & Heff & _ & Hdone).
  split; [exact Heff |].
  destruct (Hdone eq_refl)
    as (m1 & x1 & m2 & x2 & m4 & x4 & _ & _ & _ & _ & _ & Hs).
  split.
  - rewrite Hs. cbn [current_time set_current_time]. vm_compute. reflexivity.
  - rewrite Hs. unfold engine_with.
    cbn [market_snapshots set_current_time set_market_snapshots].
    rewrite length_app. reflexivity.
Defined.

Lemma behaviors_get_snapshot_witness :
  step watchful = (fst (step watchful), inr tt) /\
  exists m1 x1 m2 x2,
    let s := make_snapshot (set_mappings m1 (self watchful)) in
    agents_effect (self watchful) (Some s) m1 x1 = ((m2, x2), None) /\
    market_snapshots (self (fst (step watchful))) =
      market_snapshots (self watchful) ++ [s].
Proof.
  assert (E : step watchful = (fst (step watchful), inr tt))
    by (vm_compute; reflexivity).
  split; [exact E |].
  destruct (behaviors_get_snapshot watchful _ _ E)
    as [(m1 & x1 & ex & _ & Hr & _)
       | (m1 & x1 & m2 & x2 & r2 & w2 & _ & Ha & _ & _ & _ & Hm & Hrest)].
  - discriminate Hr.
  - exists m1, x1, m2, x2. destruct r2 as [ex |].
    + destruct Hrest as [Hr _]. discriminate Hr.
    + split; [exact Ha | exact Hm].
Defined.

Lemma snapshot_volume_is_todays_witness :
  step busy = (fst (step busy), inr tt) /\
  market_snapshots (self (fst (step busy))) =
    market_snapshots (self busy) ++ [phase1_snapshot busy] /\
  total_transaction_volume (phase1_snapshot busy) = 12500.
Proof.
  assert (E : step busy = (fst (step busy), inr tt))
    by (vm_compute; reflexivity).
  assert (Hm : market_snapshots (self (fst (step busy))) =
               market_snapshots (self busy) ++ [phase1_snapshot busy])
    by (vm_compute; reflexivity).
  split; [exact E |]. split; [exact Hm |].
  destruct (snapshot_volume_is_todays busy _ _ _ E Hm) as [Hv _].
  rewrite Hv. reflexivity.
Defined.

Lemma bare_step_snapshot_witness :
  step plain = (fst (step plain), inr tt) /\
  exists s,
    market_snapshots (self (fst (step plain))) = [s] /\
    compliance_rate s = Py.int_truediv 2 3 /\
    average_hourly_rate s = 62.5%float.
Proof.
  assert (E : step plain = (fst (step plain), inr tt))
    by (vm_compute; reflexivity).
  split; [exact E |].
  destruct (bare_step_snapshot plain _ _ eq_refl eq_refl eq_refl eq_refl E)
    as (s & Hm & Hc & Ha).
  exists s. split; [exact Hm |]. split.
  - rewrite Hc. reflexivity.
  - rewrite Ha. vm_compute. reflexivity.
Defined.

Lemma failure_aborts_run_witness :
  (exists w',
     step choosy = (w', inl (Raised "freelancer model failed")) /\
     run choosy = (w', inl (Raised "freelancer model failed")) /\
     ext w' = mkAmbient 3 0 /\
     map sb988_aware (Py.values (freelancers (self w'))) = [true; true] /\
     length (market_snapshots (self w')) = 1%nat /\
     current_time (self w') = current_time (self choosy)) /\
  (exists w',
     step troubled = (w', inl (Raised "apply failed")) /\
     run troubled = (w', inl (Raised "apply failed")) /\
     ext w' = mkAmbient 4 0 /\
     map status (Py.values (contracts (self w'))) =
       map status (Py.values (contracts (self troubled))) /\
     length (market_snapshots (self w')) = 1%nat) /\
  (exists w',
     step unmetered = (w', inl (Raised "metrics store full")) /\
     run unmetered = (w', inl (Raised "metrics store full")) /\
     ext w' = mkAmbient 1 1 /\
     length (market_snapshots (self w')) = 1%nat).
Proof.
  split; [| split].
  - destruct (failure_aborts_run choosy) as (_ & H & Hrun). cbv zeta in H.
    specialize (H (mappings (self choosy)) (ext choosy)
                  ltac:(vm_compute; reflexivity)).
    destruct H as (Hb & _).
    set (P := agents_effect (self choosy)
                (Some (make_snapshot
                         (set_mappings (mappings (self choosy))
                            (self choosy))))
                (mappings (self choosy)) (ext choosy)) in *.
    specialize (Hb (fst (fst P)) (snd (fst P))
                  (Raised "freelancer model failed")
                  ltac:(vm_compute; reflexivity)).
    destruct Hb as (w' & E & Hs & Hx). exists w'.
    destruct (Hrun _ _ E) as (Ht & Hr).
    split; [exact E |].
    split; [apply (Hr choosy 0); [apply reaches_here
                                 | vm_compute; reflexivity] |].
    split; [rewrite Hx; vm_compute; reflexivity |].
    split; [rewrite Hs; vm_compute; reflexivity |].
    split; [rewrite Hs; vm_compute; reflexivity | exact Ht].
  - destruct (failure_aborts_run troubled) as (_ & H & Hrun). cbv zeta in H.
    specialize (H (mappings (self troubled)) (ext troubled)
                  ltac:(vm_compute; reflexivity)).
    destruct H as (_ & Hc).
    specialize (Hc (mappings (self troubled)) (ext troubled)
                  ltac:(vm_compute; reflexivity)).
    destruct Hc as (Hc & _).
    set (P := scenario_pass (current_time (self troubled))
                (scenarios (self troubled))
                (lifecycle (current_time (self troubled))
                   (mappings (self troubled)))
                (ext troubled)) in *.
    specialize (Hc (fst (fst P)) (snd (fst P)) (Raised "apply failed")
                  ltac:(vm_compute; reflexivity)).
    destruct Hc as (w' & E & Hs & Hx). exists w'.
    destruct (Hrun _ _ E) as (Ht & Hr).
    split; [exact E |].
    split; [apply (Hr troubled 0); [apply reaches_here
                                   | vm_compute; reflexivity] |].
    split; [rewrite Hx; vm_compute; reflexivity |].
    split; [rewrite Hs; vm_compute; reflexivity |].
    rewrite Hs; vm_compute; reflexivity.
  - destruct (@failure_aborts_run cents strict unmetered) as (_ & H & Hrun).
    cbv zeta in H.
    specialize (H (mappings (self unmetered)) (ext unmetered)
                  ltac:(vm_compute; reflexivity)).
    destruct H as (_ & Hc).
    specialize (Hc (mappings (self unmetered)) (ext unmetered)
                  ltac:(vm_compute; reflexivity)).
    destruct Hc as (_ & Hd).
    specialize (Hd (lifecycle (current_time (self unmetered))
                      (mappings (self unmetered)))
                  (ext unmetered) (mkAmbient 1 1)
                  (Raised "metrics store full")
                  ltac:(vm_compute; reflexivity)
                  ltac:(vm_compute; reflexivity)).
    destruct Hd as (w' & E & Hs & Hx). exists w'.
    destruct (Hrun _ _ E) as (Ht & Hr).
    split; [exact E |].
    split; [apply (Hr unmetered 0); [apply reaches_here
                                    | vm_compute; reflexivity] |].
    split; [exact Hx |].
    rewrite Hs; vm_compute; reflexivity.
Defined.

Lemma run_loop_and_january_witness :
  exists w' res,
    run plain = (w', inr res) /\
    r_total_steps res = 10%nat /\
    r_end_time res = mkdatetime 2024 1 11.
Proof.
  eexists. eexists. split; [vm_compute; reflexivity |].
  destruct run_loop_and_january as (_ & _ & _ & Hjan & _).
  destruct (Hjan plain (fst (run plain)) _ eq_refl eq_refl eq_refl eq_refl
              eq_refl ltac:(vm_compute; reflexivity))
    as (_ & Hn & _ & Ht & _).
  split; [exact Hn | exact Ht].
Defined.

Lemma contract_lifecycle_witness :
  steps 6 plain = (fst (steps 6 plain), inr tt) /\
  map (fun kc => status (snd kc)) (contracts (self (fst (steps 5 plain)))) =
    [ACTIVE; ACTIVE; DRAFT] /\
  map (fun kc => status (snd kc)) (contracts (self (fst (steps 6 plain)))) =
    [COMPLETED; ACTIVE; DRAFT] /\
  Forall2
    (fun kc kc' =>
       fst kc' = fst kc /\
       (snd kc' = snd kc \/
        status (snd kc) = ACTIVE /\ snd kc' = set_status COMPLETED (snd kc)) /\
       (status (snd kc) = COMPLETED -> status (snd kc') = COMPLETED))
    (contracts (self plain)) (contracts (self (fst (steps 6 plain)))).
Proof.
  assert (E : steps 6 plain = (fst (steps 6 plain), inr tt))
    by (vm_compute; reflexivity).
  split; [exact E |]. split; [vm_compute; reflexivity |].
  split; [vm_compute; reflexivity |].
  destruct contract_lifecycle as (_ & _ & _ & Hsteps & _).
  apply (Hsteps 6%nat plain _ _ (conj eq_refl (conj eq_refl
           (conj eq_refl eq_refl))) E).
Defined.

Lemma convergence_predicate_witness :
  _check_convergence (engine_with_rates alternating_from_0 0.125) = false /\
  _check_convergence (engine_with_rates (repeat 0.5%float 10) 0x1p-133) = true /\
  _check_convergence (engine_with_rates (repeat 1%float 9) 0.125) = false.
Proof.
  destruct convergence_predicate as (Hfew & _ & Hsame & _ & Halt).
  split; [| split].
  - apply (Halt (engine_with_rates alternating_from_0 0.125)).
    + cbn. lia.
    + left. reflexivity.
    + reflexivity.
  - apply (Hsame (engine_with_rates (repeat 0.5%float 10) 0x1p-133)
             0.5%float).
    + cbn. lia.
    + reflexivity.
    + reflexivity.
    + reflexivity.
    + vm_compute. reflexivity.
    + reflexivity.
  - apply (Hfew (engine_with_rates (repeat 1%float 9) 0.125)). cbn. lia.
Defined.

(** C3, as the claim has it, fails: ten snapshots with the same compliance
    rate 1/3 have a binary64 variance of about 3.1e-33, not 0, so with the
    threshold 2^-133 (about 9.2e-41), which is above 0, the predicate is
    false. *)
Lemma identical_rates_not_converged :
  ~ (forall (e : SimulationEngine) (rate : float),
       (10 <= length (market_snapshots e))%nat ->
       recent_rates e = repeat rate 10 ->
       PrimFloat.ltb 0 (convergence_threshold (config e)) = true ->
       _check_convergence e = true).
Proof.
  intros Hclaim.
  specialize (Hclaim (engine_with_rates (repeat third 10) 0x1p-133) third).
  assert (F : _check_convergence
                (engine_with_rates (repeat third 10) 0x1p-133) = false)
    by (vm_compute; reflexivity).
  rewrite Hclaim in F; [discriminate | cbn; lia | reflexivity | reflexivity].
Qed.

(** C7 at the seed 0.  [__init__] seeds the generator only when the seed
    is truthy, so the seed 0 is not applied: the engine starts with the
    generator in whatever state the process has it, and two runs of one
    configuration with the same models end with different freelancers.
    With the seed 7 the same two runs agree. *)
Theorem seed_zero_is_not_applied :
  ext (__init__ (config_jan (Some 0)) (mkAmbient 1 0)) = mkAmbient 1 0 /\
  ext (__init__ (config_jan (Some 0)) (mkAmbient 2 0)) = mkAmbient 2 0 /\
  final_awareness (snd (run_from (Some 0) 1)) = [false; true] /\
  final_awareness (snd (run_from (Some 0) 2)) = [true; false] /\
  snd (run_from (Some 0) 1) <> snd (run_from (Some 0) 2) /\
  ext (__init__ (config_jan (Some 7)) (mkAmbient 1 0)) =
    ext (__init__ (config_jan (Some 7)) (mkAmbient 2 0)) /\
  run_from (Some 7) 1 = run_from (Some 7) 2.
Proof.
  assert (H1 : final_awareness (snd (run_from (Some 0) 1)) = [false; true])
    by (vm_compute; reflexivity).
  assert (H2 : final_awareness (snd (run_from (Some 0) 2)) = [true; false])
    by (vm_compute; reflexivity).
  split; [vm_compute; reflexivity |]. split; [vm_compute; reflexivity |].
  split; [exact H1 |]. split; [exact H2 |]. split.
  - intros F. apply (f_equal final_awareness) in F.
    rewrite H1, H2 in F. discriminate F.
  - split; vm_compute; reflexivity.
Qed.

(** * Further properties on the sample engines *)

Lemma sample_bare_never_raises w : bare (self w) -> never_raises (self w).
Proof.
  intros (Hs & Hf & Hc & Hm). unfold never_raises.
  rewrite Hs, Hf, Hc, Hm.
  split; [reflexivity |]. split; [intros x; eexists; reflexivity |].
  repeat split; try discriminate. constructor.
Qed.

Lemma run_accounting_witness :
  exists w' res (n : nat),
    run plain = (w', inr res) /\
    r_total_steps res = n /\
    r_end_time res = current_time (self plain) + Z.of_nat n * days 1 /\
    Z.of_nat n <= 1000.
Proof.
  destruct (run plain) as [w' [e | res]] eqn:E.
  - exfalso. vm_compute in E. discriminate E.
  - destruct (run_accounting plain w' res E)
      as (n & new & _ & Hl & _ & Htot & Hend & _ & Hmax).
    exists w', res, n. split; [reflexivity |].
    split; [exact Htot |]. split; [exact Hend |].
    destruct n as [| n]; [cbn; lia | apply Hmax; lia].
Defined.

Lemma run_stops_because_witness :
  exists w' res,
    run plain = (w', inr res) /\
    (cfg_end_date (config (self plain)) < r_end_time res \/
     max_iterations (config (self plain))
       <= Z.of_nat (r_total_steps res - length (market_snapshots (self plain))) \/
     (0 < r_total_steps res - length (market_snapshots (self plain)))%nat /\
     _check_convergence (self w') = true).
Proof.
  destruct (run plain) as [w' [e | res]] eqn:E.
  - exfalso. vm_compute in E. discriminate E.
  - exists w', res. split; [reflexivity |].
    exact (proj1 (run_stops_because plain w' res E)).
Defined.

Lemma run_without_steps_witness :
  cfg_end_date (config (self second)) < current_time (self second) /\
  run second = _generate_results second /\
  self (fst (run second)) = self second.
Proof.
  assert (Hlate : cfg_end_date (config (self second))
                  < current_time (self second))
    by (vm_compute; reflexivity).
  split; [exact Hlate |].
  destruct (run_without_steps second (or_introl Hlate)) as (E & Hs & _).
  split; assumption.
Defined.

Lemma run_preserves_witness :
  run broken = (fst (run broken), inl (Raised "apply failed")) /\
  config (self (fst (run broken))) = config (self broken) /\
  transactions (self (fst (run broken))) = transactions (self broken).
Proof.
  assert (E : run broken = (fst (run broken), inl (Raised "apply failed")))
    by (vm_compute; reflexivity).
  split; [exact E |].
  destruct (run_preserves broken _ _ E) as (Hc & Ht & _).
  split; assumption.
Defined.

Lemma results_report_the_engine_witness :
  exists w' res,
    _generate_results plain = (w', inr res) /\
    self w' = self plain /\
    r_total_steps res = 0%nat /\
    r_final_contracts res = 3%nat.
Proof.
  destruct (_generate_results plain) as [w' [e | res]] eqn:E.
  - exfalso. vm_compute in E. discriminate E.
  - destruct (results_report_the_engine plain w' (inr res) E) as (Hs & Hres).
    destruct (Hres res eq_refl)
      as (_ & _ & _ & _ & Htot & _ & _ & _ & _ & _ & _ & Hk & _).
    exists w', res. split; [reflexivity |]. split; [exact Hs |].
    split; [rewrite Htot | rewrite Hk]; reflexivity.
Defined.

Lemma step_overflows_last_witness :
  step last_day = (fst (step last_day), inl OverflowError) /\
  current_time (self (fst (step last_day))) = mkdatetime 9999 12 31 /\
  length (market_snapshots (self (fst (step last_day)))) = 1%nat.
Proof.
  assert (E : step last_day = (fst (step last_day), inl OverflowError))
    by (vm_compute; reflexivity).
  split; [exact E |].
  assert (Hb : bare (self last_day)) by (repeat split).
  destruct (step_overflows_last last_day _ _
              (sample_bare_never_raises last_day Hb) E) as (_ & Hfail).
  destruct Hfail as (_ & Ht & Hm & _); [discriminate |].
  split; [rewrite Ht; reflexivity | rewrite Hm; reflexivity].
Defined.

Lemma market_model_failure_witness :
  market_dynamics_model (self crashed) = Some crashing_market /\
  snd (step crashed) = inl (Raised "market closed") /\
  market_snapshots (self (fst (step crashed))) = [] /\
  length (calls (fst (step crashed))) = 1%nat.
Proof.
  split; [reflexivity |].
  rewrite (market_model_failure crashed crashing_market
             (mappings (self crashed)) (ext crashed)
             (Raised "market closed") eq_refl eq_refl).
  repeat split.
Defined.

Lemma bare_steps_aggregates_witness :
  bare (self plain) /\
  steps 7 plain = (fst (steps 7 plain), inr tt) /\
  active_count (self plain) = 2%nat /\
  active_count (self (fst (steps 7 plain))) = 1%nat /\
  _calculate_compliance_rate (self (fst (steps 7 plain))) =
    _calculate_compliance_rate (self plain) /\
  (active_count (self (fst (steps 7 plain))) <= active_count (self plain))%nat.
Proof.
  assert (Hb : bare (self plain)) by (repeat split).
  assert (E : steps 7 plain = (fst (steps 7 plain), inr tt))
    by (vm_compute; reflexivity).
  split; [exact Hb |]. split; [exact E |].
  split; [reflexivity |]. split; [vm_compute; reflexivity |].
  destruct (bare_steps_aggregates 7 plain _ _ Hb E)
    as (_ & _ & _ & Hr & _ & Ha).
  split; assumption.
Defined.

Lemma bare_run_converges_at_ten_witness :
  cfg_end_date (config (self fresh_year)) = mkdatetime 2024 12 31 /\
  exists w' res,
    run fresh_year = (w', inr res) /\
    r_total_steps res = 10%nat /\
    r_end_time res = mkdatetime 2024 1 11.
Proof.
  split; [reflexivity |].
  assert (Hb : bare (self fresh_year)) by (repeat split).
  destruct (bare_run_converges_at_ten fresh_year Hb
              (sample_bare_never_raises fresh_year Hb) eq_refl)
    as (w' & res & E & Htot & Hend & _).
  - reflexivity.
  - reflexivity.
  - vm_compute. reflexivity.
  - reflexivity.
  - vm_compute. discriminate.
  - intros i Hi.
    do 10 (destruct i as [| i];
           [split; [vm_compute; discriminate | vm_compute; reflexivity] |]).
    lia.
  - exists w', res. split; [exact E |]. split; [exact Htot |].
    rewrite Hend. reflexivity.
Defined.

Lemma scenarios_asked_in_registration_order_witness :
  exists w',
    _apply_regulatory_scenarios (fst (add_scenario tally counted))
      = (w', inr tt) /\
    scenarios (self w') = [tally; tally] /\
    ext w' = mkAmbient 10 0.
Proof.
  destruct (_apply_regulatory_scenarios (fst (add_scenario tally counted)))
    as [w' r] eqn:E.
  destruct (scenarios_asked_in_registration_order counted tally _ _ E)
    as (m & x & r0 & Hp & Hs & H).
  assert (Hp' : scenario_pass (current_time (self counted))
                   (scenarios (self counted)) (mappings (self counted))
                   (ext counted)
                 = ((mappings (self counted), mkAmbient 4 0), None))
    by (vm_compute; reflexivity).
  rewrite Hp' in Hp. injection Hp as <- <- <-.
  cbn [is_active apply tally] in H.
  pose proof (f_equal snd H) as Hr.
  pose proof (f_equal (fun p => snd (fst p)) H) as Hx.
  cbn [fst snd] in Hr, Hx.
  exists w'. destruct r as [ex | []]; [discriminate Hr |].
  split; [reflexivity |]. split; [rewrite Hs; vm_compute; reflexivity |].
  rewrite <- Hx. vm_compute. reflexivity.
Defined.

Lemma agents_called_in_mapping_order_witness :
  exists w',
    _execute_agent_behaviors watchful
      = (w', inl (Raised "no market state")) /\
    agents_effect (self watchful) None (mappings (self watchful))
      (ext watchful)
      = ((mappings (self w'), ext w'), Some (Raised "no market state")).
Proof.
  destruct (_execute_agent_behaviors watchful) as [w' r] eqn:E.
  destruct (agents_called_in_mapping_order watchful _ _ E)
    as (ms & m2 & Ha & Hs & Hnone & _).
  rewrite (Hnone ltac:(vm_compute; reflexivity)) in Ha.
  assert (Hc : snd (agents_effect (self watchful) None
                      (mappings (self watchful)) (ext watchful))
               = Some (Raised "no market state"))
    by (vm_compute; reflexivity).
  rewrite Ha in Hc. cbn [snd] in Hc.
  destruct r as [ex | []]; [| discriminate Hc]. injection Hc as ->.
  exists w'. split; [reflexivity |].
  rewrite Ha, Hs, mappings_set_mappings. reflexivity.
Defined.

Lemma failing_scenario_stops_the_pass_witness :
  exists w',
    _apply_regulatory_scenarios troubled = (w', inl (Raised "apply failed")) /\
    self w' = set_mappings (mappings (self troubled)) (self troubled) /\
    ext w' = mkAmbient 4 0.
Proof.
  destruct (failing_scenario_stops_the_pass troubled [tally] failing [tally]
              (mappings (self troubled)) (mkAmbient 4 0)
              ltac:(vm_compute; reflexivity)
              ltac:(vm_compute; reflexivity)) as (_ & H).
  exact (H (mkAmbient 4 0) (mappings (self troubled)) (mkAmbient 4 0)
           (Raised "apply failed")
           ltac:(vm_compute; reflexivity) ltac:(vm_compute; reflexivity)).
Defined.
